(** * BitgetBot: candidate filter and signal scorer

    A shallow embedding of the decision pipeline of the bot
    ([bot.py], [src/data_sources.py], [src/indicators.py],
    [src/patterns.py], [src/signals.py]) and the properties its
    specification states about it.

    Conventions of the embedding:
    - a Python [str] is a [string] of ASCII characters;
    - a Python [float] holding a market cap, a bound of the cap band or a
      price is an exact rational [Q] (finite values, no rounding); a cell
      of a pandas frame is a [cell], which adds [NaN];
    - the floats of the 24h change (the parsed change, its scaling, the
      ceiling it is compared with) are IEEE 754 binary64 numbers, the
      [spec_float] of the standard library, with its rounding;
    - a Python [dict] keyed by symbols is a [gmap string _]; the small
      literal dictionaries of the scorer keep their insertion order and
      are association lists;
    - an exception is a value [Raise e] of the error monad [result]. *)

From Stdlib Require Import QArith Qabs String Ascii List ZArith Lia Bool Sorted.
From Stdlib Require Import SpecFloat.
From stdpp Require Import base gmap strings list.

Open Scope string_scope.

(** ** Python strings *)

Module PyStr.

(** [c.upper()] on an ASCII character. *)
Definition upper_ascii (c : ascii) : ascii :=
  let n := nat_of_ascii c in
  if (97 <=? n)%nat && (n <=? 122)%nat then ascii_of_nat (n - 32) else c.

(** [s.upper()] *)
Fixpoint upper (s : string) : string :=
  match s with
  | EmptyString => EmptyString
  | String c r => String (upper_ascii c) (upper r)
  end.

(** [c.lower()] on an ASCII character, and [s.lower()] *)
Definition lower_ascii (c : ascii) : ascii :=
  let n := nat_of_ascii c in
  if (65 <=? n)%nat && (n <=? 90)%nat then ascii_of_nat (n + 32) else c.

Fixpoint lower (s : string) : string :=
  match s with
  | EmptyString => EmptyString
  | String c r => String (lower_ascii c) (lower r)
  end.

(** [s.endswith(suf)] *)
Definition endswith (s suf : string) : bool :=
  let n := String.length s in
  let m := String.length suf in
  (m <=? n)%nat && String.eqb (substring (n - m) m s) suf.

(** [s[:-k]] for a positive [k] *)
Definition drop_last (k : nat) (s : string) : string :=
  substring 0 (String.length s - k) s.

(** [s[:k]] *)
Definition take (k : nat) (s : string) : string := substring 0 k s.

(** [s.replace(old, new)] for a non-empty [old]: the occurrences of [old]
    are found from the left and do not overlap.  [skip] counts the
    characters of a match that are still to be passed over. *)
Fixpoint replace_go (old new : string) (skip : nat) (s : string) : string :=
  match s with
  | EmptyString => EmptyString
  | String c r =>
      match skip with
      | S k => replace_go old new k r
      | O =>
          if String.prefix old s
          then new +:+ replace_go old new (String.length old - 1) r
          else String c (replace_go old new 0 r)
      end
  end.

Definition replace (old new s : string) : string := replace_go old new 0 s.

(** [c in s] for a character *)
Fixpoint mem (c : ascii) (s : string) : bool :=
  match s with
  | EmptyString => false
  | String d r => Ascii.eqb c d || mem c r
  end.

(** [s.lstrip(chars)] and [s.strip(chars)], the set of characters given
    as a predicate *)
Fixpoint lstrip (p : ascii -> bool) (s : string) : string :=
  match s with
  | EmptyString => EmptyString
  | String d r => if p d then lstrip p r else s
  end.

Fixpoint rstrip (p : ascii -> bool) (s : string) : string :=
  match s with
  | EmptyString => EmptyString
  | String d r =>
      match rstrip p r with
      | EmptyString => if p d then EmptyString else String d EmptyString
      | r' => String d r'
      end
  end.

Definition strip (p : ascii -> bool) (s : string) : string :=
  rstrip p (lstrip p s).

End PyStr.

(** ** Symbol normalizer ([filter_small_caps], the body of the loop) *)

(** The base asset of a pair symbol, before upper-casing; [symbol] is the
    truthy string bound at line 210. *)
Definition base_of_symbol (symbol : string) : string :=
  let s := PyStr.replace "_SPBL" EmptyString (PyStr.replace "-" EmptyString symbol) in
  if PyStr.endswith s "USDT" then PyStr.drop_last 4 s
  else if PyStr.endswith s "USDC" then PyStr.drop_last 4 s
  else if PyStr.endswith s "USD" then PyStr.drop_last 3 s
  else PyStr.take 5 s.

(** [normalize symbol] is [None] where the loop runs [continue] (no symbol,
    or an empty base) and the upper-cased base otherwise. *)
Definition normalize (symbol : string) : option string :=
  if String.eqb symbol EmptyString then None
  else
    let base := base_of_symbol symbol in
    if String.eqb base EmptyString then None else Some (PyStr.upper base).

(** ** Exceptions *)

Inductive exn : Set :=
  | ValueError | KeyError | IndexError | TypeError | AttributeError
  | OverflowError.

Inductive result (A : Type) : Type :=
  | Ok (a : A)
  | Raise (e : exn).

Arguments Ok {A} a.
Arguments Raise {A} e.

(** The error monad, with stdpp's notation [x ← m; k]. *)
#[global] Instance result_ret : MRet result := fun A a => Ok a.

#[global] Instance result_bind : MBind result := fun A B k m =>
  match m with
  | Ok a => k a
  | Raise e => Raise e
  end.

(** Strict comparison of exact numbers, as a boolean. *)
Definition Qlt_bool (a b : Q) : bool := negb (Qle_bool b a).

(** ** Floats ([float], IEEE 754 binary64)

    A float is a [spec_float] of the standard library at precision 53 and
    maximal exponent 1024; the floats Python computes with are those that
    satisfy [is_double].  A NaN carries no sign. *)

Module PyFloat.

Definition prec : Z := 53.
Definition emax : Z := 1024.

Definition float : Type := spec_float.

Definition is_double : float -> bool := valid_binary prec emax.

(** [x * y], [abs(x)] and [x < y] *)
Definition mul : float -> float -> float := SFmul prec emax.
Definition abs : float -> float := SFabs.
Definition ltb : float -> float -> bool := SFltb.

(** [float(z)] for an [int] that is not too large: the nearest double,
    ties to even. *)
Definition of_Z (z : Z) : float := binary_normalize prec emax z 0 false.

(** The exact value of a finite float. *)
Definition to_Q (s : bool) (m : positive) (e : Z) : Q :=
  (inject_Z (if s then Zneg m else Zpos m) * Qpower 2 e)%Q.

(** [x < q] for a float and an [int], which Python compares exactly. *)
Definition ltb_number (x : float) (q : Q) : bool :=
  match x with
  | S754_nan => false
  | S754_infinity s => s
  | S754_zero _ => Qlt_bool 0 q
  | S754_finite s m e => Qlt_bool (to_Q s m e) q
  end.

(** [float(q)] for a number given by its exact value (an [int]): the
    nearest double, ties to even, and an [OverflowError] when that is too
    large for a float. *)
Definition of_number (q : Q) : result float :=
  match Qnum q with
  | Z0 => Ok (S754_zero false)
  | Zpos n | Zneg n =>
      match SFdiv prec emax (S754_finite (Qnum q <? 0)%Z n 0)
              (S754_finite false (Qden q) 0) with
      | S754_infinity _ => Raise OverflowError
      | x => Ok x
      end
  end.

(** [n * 10 ** e] rounded to the nearest double, ties to even; the sign
    is kept on a zero, and a value too large gives an infinity. *)
Definition of_decimal (neg : bool) (n : N) (e : Z) : float :=
  match n with
  | N0 => S754_zero neg
  | Npos m =>
      match e with
      | Zneg k => SFdiv prec emax (S754_finite neg m 0)
                    (S754_finite false (10 ^ k) 0)
      | Z0 => binary_round prec emax neg m 0
      | Zpos k => binary_round prec emax neg (m * 10 ^ k) 0
      end
  end.

(** *** [float(s)] on a string

    The string is read as [float] reads an ASCII [str]: underscores are
    taken out, each of which has to stand between two digits; white space
    is stripped at both ends; then come an optional sign and either one of
    the words [inf], [infinity], [nan], in any case, or a decimal number:
    digits with an optional point, one digit at least, and an optional
    exponent [e] or [E] with an optional sign and one digit at least.
    Anything else is a [ValueError].  (A number of more than [10 ** 9]
    digits, which [float] refuses, is not told apart.) *)

Definition is_space (c : ascii) : bool :=
  let n := nat_of_ascii c in
  (n =? 32)%nat || ((9 <=? n)%nat && (n <=? 13)%nat).

Definition digit (c : ascii) : option N :=
  let n := N_of_ascii c in
  if (48 <=? n)%N && (n <=? 57)%N then Some (n - 48)%N else None.

Definition is_digit (c : ascii) : bool :=
  match digit c with
  | Some _ => true
  | None => false
  end.

(** The string without its underscores; [prev] is the character before
    [s], and [None] marks an underscore that does not follow a digit, or
    is not followed by one. *)
Fixpoint without_underscores (prev : ascii) (s : string) : option string :=
  match s with
  | EmptyString => if Ascii.eqb prev "_" then None else Some EmptyString
  | String c r =>
      if Ascii.eqb c "_" then
        if is_digit prev then without_underscores c r else None
      else if Ascii.eqb prev "_" && negb (is_digit c) then None
      else String c <$> without_underscores c r
  end.

(** The digits at the head of [s]: their value, read after those of
    [acc]; their number, added to [count]; and what follows them. *)
Fixpoint digits (acc : N) (count : nat) (s : string) : N * nat * string :=
  match s with
  | EmptyString => (acc, count, s)
  | String c r =>
      match digit c with
      | Some d => digits (10 * acc + d)%N (S count) r
      | None => (acc, count, s)
      end
  end.

Definition sign (s : string) : bool * string :=
  match s with
  | String "-" r => (true, r)
  | String "+" r => (false, r)
  | _ => (false, s)
  end.

(** The exponent that ends a number: nothing, or [e] with a signed run of
    digits up to the end of the string. *)
Definition exponent (s : string) : option Z :=
  match s with
  | EmptyString => Some 0%Z
  | String c r =>
      if Ascii.eqb c "e" || Ascii.eqb c "E" then
        let (neg, r) := sign r in
        match digits 0 0 r with
        | (_, O, _) => None
        | (x, _, EmptyString) =>
            Some (if neg : bool then - Z.of_N x else Z.of_N x)%Z
        | _ => None
        end
      else None
  end.

Definition number (neg : bool) (s : string) : option float :=
  let '(i, ni, r) := digits 0 0 s in
  let '(n, nf, r) :=
    match r with
    | String "." r => digits i 0 r
    | _ => (i, O, r)
    end in
  match (ni + nf)%nat with
  | O => None
  | _ => x ← exponent r; Some (of_decimal neg n (x - Z.of_nat nf))
  end.

Definition inf_or_nan (neg : bool) (s : string) : option float :=
  let w := PyStr.lower s in
  if String.eqb w "inf" || String.eqb w "infinity"
  then Some (S754_infinity neg)
  else if String.eqb w "nan" then Some S754_nan
  else None.

Definition of_string (s : string) : result float :=
  match
    s ← without_underscores "000" s;
    let (neg, r) := sign (PyStr.strip is_space s) in
    match inf_or_nan neg r with
    | Some x => Some x
    | None => number neg r
    end
  with
  | Some x => Ok x
  | None => Raise ValueError
  end.

End PyFloat.

(** ** Python values *)

(** The scalar values a ticker holds: those of the decoded JSON, and what
    the bot itself stores.  [VNum q] is a number given by its exact value
    (an [int], or a market cap of the resolver), [VFloat x] a float. *)
Inductive value : Type :=
  | VNone
  | VBool (b : bool)
  | VNum (q : Q)
  | VFloat (x : PyFloat.float)
  | VStr (s : string).

(** [bool(v)] *)
Definition truthy (v : value) : bool :=
  match v with
  | VNone => false
  | VBool b => b
  | VNum q => negb (Qeq_bool q 0)
  | VFloat x => negb (SFeqb x (S754_zero false))
  | VStr s => negb (String.eqb s EmptyString)
  end.

(** [a or b] *)
Definition py_or (a b : value) : value := if truthy a then a else b.

(** [d.get(k)] on a ticker *)
Definition dict_get (t : gmap string value) (k : string) : value :=
  default VNone (t !! k).

(** [d.update(other)]: the entries of [other] replace those of [d]. *)
Definition dict_update {V : Type} (d other : gmap string V) : gmap string V :=
  other ∪ d.

(** ** Market-cap resolver ([build_symbol_marketcap_map], [run_once]) *)

(** A record of the market listing source, after [str(...)] of its symbol;
    [market_cap] is [None] where the field is missing or null. *)
Record coin : Type := Coin {
  coin_symbol : string;
  market_cap : option Q
}.

(** [sorted(lst)]: a stable insertion sort. *)
Fixpoint insert_sorted (x : Q) (l : list Q) : list Q :=
  match l with
  | [] => [x]
  | y :: r => if Qle_bool x y then x :: l else y :: insert_sorted x r
  end.

Definition sorted (l : list Q) : list Q := foldr insert_sorted [] l.

(** [caps.setdefault(sym, []).append(float(mc))], skipped on a null cap *)
Definition add_coin (caps : gmap string (list Q)) (it : coin)
  : gmap string (list Q) :=
  let sym := PyStr.upper (coin_symbol it) in
  match market_cap it with
  | None => caps
  | Some mc => <[sym := (default [] (caps !! sym) ++ [mc])%list]> caps
  end.

(** The loop over pages [p, p+1, ...], [n] pages at most; [fetch] is
    [coingecko_markets], [None] being a [RequestException], on which the
    loop breaks. *)
Fixpoint collect_pages (fetch : nat -> option (list coin)) (p n : nat)
    (caps : gmap string (list Q)) : gmap string (list Q) :=
  match n with
  | O => caps
  | S n' =>
      match fetch p with
      | None => caps
      | Some items => collect_pages fetch (S p) n' (foldl add_coin caps items)
      end
  end.

(** [s[len(s)//2]] of the sorted list *)
Definition middle (lst : list Q) : option Q :=
  let s := sorted lst in s !! (length s / 2)%nat.

(** An empty list of values would make [s[len(s)//2]] an [IndexError]. *)
Definition build_symbol_marketcap_map (fetch : nat -> option (list coin))
    (pages : nat) : result (gmap string Q) :=
  let caps := collect_pages fetch 1 pages ∅ in
  if decide (map_Forall (fun _ lst => is_Some (middle lst)) caps)
  then Ok (omap middle caps)
  else Raise IndexError.

(** The merge of [run_once]: [cg_caps] is the exchange-scoped mapping. *)
Definition merged_caps (cg_caps : gmap string Q)
    (fetch : nat -> option (list coin)) (pages : nat)
  : result (gmap string Q) :=
  if (size cg_caps <? 50)%nat then
    generic_caps ← build_symbol_marketcap_map fetch pages;
    Ok (dict_update cg_caps generic_caps)
  else Ok cg_caps.

(** ** Candidate filter ([filter_small_caps], [pick_symbols]) *)

(** [t.get("symbol") or t.get("instId")], or the empty string *)
Definition ticker_symbol (t : gmap string value) : value :=
  py_or (dict_get t "symbol") (py_or (dict_get t "instId") (VStr EmptyString)).

(** [{**t, "_base": base.upper(), "_market_cap": cap}] *)
Definition annotated (t : gmap string value) (base : string) (cap : Q)
  : gmap string value :=
  <["_market_cap" := VNum cap]> (<["_base" := VStr base]> t).

(** One turn of the loop of [filter_small_caps]: [None] for a ticker that
    is dropped.  A truthy symbol that is not a string has no [replace]. *)
Definition small_cap_entry (min_cap max_cap : Q) (cg_symbol_caps : gmap string Q)
    (t : gmap string value) : result (option (gmap string value)) :=
  let symbol := ticker_symbol t in
  if truthy symbol then
    match symbol with
    | VStr s =>
        match normalize s with
        | None => Ok None
        | Some base =>
            match cg_symbol_caps !! base with
            | None => Ok None
            | Some cap =>
                if Qle_bool min_cap cap && Qle_bool cap max_cap
                then Ok (Some (annotated t base cap))
                else Ok None
            end
        end
    | _ => Raise AttributeError
    end
  else Ok None.

Fixpoint filter_small_caps (bitget_tickers : list (gmap string value))
    (min_cap max_cap : Q) (cg_symbol_caps : gmap string Q)
  : result (list (gmap string value)) :=
  match bitget_tickers with
  | [] => Ok []
  | t :: rest =>
      e ← small_cap_entry min_cap max_cap cg_symbol_caps t;
      filtered ← filter_small_caps rest min_cap max_cap cg_symbol_caps;
      Ok (match e with Some t' => t' :: filtered | None => filtered end)
  end.

(** The strategy parameters of [settings]. *)
Record Settings : Type := {
  min_market_cap : Q;
  max_market_cap : Q;
  skip_if_24h_gain_pct : PyFloat.float
}.

Definition default_settings : Settings :=
  {| min_market_cap := 5000000%Q; max_market_cap := 250000000%Q;
     skip_if_24h_gain_pct := PyFloat.of_Z 30 |}.

(** [float(val) * (100 if abs(float(val)) < 2 else 1)]; the [int]s 2, 100
    and 1 meet a float, and count as the floats 2.0, 100.0 and 1.0. *)
Definition scale_change (x : PyFloat.float) : PyFloat.float :=
  PyFloat.mul x
    (if PyFloat.ltb (PyFloat.abs x) (PyFloat.of_Z 2)
     then PyFloat.of_Z 100 else PyFloat.of_Z 1).

(** [float(val)] *)
Definition to_float (val : value) : result PyFloat.float :=
  match val with
  | VNone => Raise TypeError
  | VBool b => Ok (PyFloat.of_Z (if b then 1 else 0))
  | VNum q => PyFloat.of_number q
  | VFloat x => Ok x
  | VStr s => PyFloat.of_string s
  end.

(** The body of the [try] of [pick_symbols]. *)
Definition parse_change (val : value) : result PyFloat.float :=
  match val with
  | VStr s =>
      if PyStr.endswith s "%"
      then PyFloat.of_string (PyStr.strip (Ascii.eqb "%") s)
      else x ← to_float val; Ok (scale_change x)
  | _ => x ← to_float val; Ok (scale_change x)
  end.

(** The loop over the field names: the first one present whose value
    parses gives the change; one that raises is passed over. *)
Fixpoint change_of (t : gmap string value) (keys : list string)
  : option PyFloat.float :=
  match keys with
  | [] => None
  | key :: rest =>
      match t !! key with
      | None => change_of t rest
      | Some val =>
          match parse_change val with
          | Ok change => Some change
          | Raise _ => change_of t rest
          end
      end
  end.

Definition change_keys : list string :=
  ["priceChgPct"; "changePercent"; "chgPct"].

(** [t["_24h_change_pct"] = change] *)
Definition with_change (t : gmap string value) : gmap string value :=
  <["_24h_change_pct" :=
      match change_of t change_keys with
      | Some c => VFloat c
      | None => VNone
      end]> t.

(** [chg is not None and chg > ceiling], that is [ceiling < chg]: between
    floats, or between the float [ceiling] and the exact value of an
    [int]; a string does not compare with a float. *)
Definition over_ceiling (ceiling : PyFloat.float) (chg : value)
  : result bool :=
  match chg with
  | VNone => Ok false
  | VBool b => Ok (PyFloat.ltb_number ceiling (if b then 1 else 0)%Q)
  | VNum c => Ok (PyFloat.ltb_number ceiling c)
  | VFloat c => Ok (PyFloat.ltb ceiling c)
  | VStr _ => Raise TypeError
  end.

Fixpoint under_ceiling (ceiling : PyFloat.float)
    (small_caps : list (gmap string value))
  : result (list (gmap string value)) :=
  match small_caps with
  | [] => Ok []
  | t :: rest =>
      over ← over_ceiling ceiling (dict_get t "_24h_change_pct");
      r ← under_ceiling ceiling rest;
      Ok (if over : bool then r else t :: r)
  end.

Definition pick_symbols (settings : Settings)
    (tickers : list (gmap string value)) (cg_caps : gmap string Q)
  : result (list (gmap string value)) :=
  let filtered := with_change <$> tickers in
  small_caps ← filter_small_caps filtered (min_market_cap settings)
                 (max_market_cap settings) cg_caps;
  under_ceiling (skip_if_24h_gain_pct settings) small_caps.

(** ** Insertion-ordered dictionaries with string keys *)

Module PyDict.

Section Dict.
Context {V : Type}.

(** [d.get(k)] *)
Fixpoint get (d : list (string * V)) (k : string) : option V :=
  match d with
  | [] => None
  | (k', v) :: r => if String.eqb k k' then Some v else get r k
  end.

(** [d[k] = v]: an existing key keeps its place. *)
Fixpoint set (d : list (string * V)) (k : string) (v : V) : list (string * V) :=
  match d with
  | [] => [(k, v)]
  | (k', v') :: r =>
      if String.eqb k k' then (k, v) :: r else (k', v') :: set r k v
  end.

(** [d.update(other)] *)
Definition update (d other : list (string * V)) : list (string * V) :=
  foldl (fun acc kv => set acc (fst kv) (snd kv)) d other.

Definition keys (d : list (string * V)) : list string := map fst d.
Definition values (d : list (string * V)) : list V := map snd d.

End Dict.

End PyDict.

(** ** pandas series and frames *)

(** A cell of a numeric column. *)
Inductive cell : Type :=
  | NaN
  | Fin (q : Q).

Module Cell.

(** Comparisons are false on [NaN]. *)
Definition leb (a b : cell) : bool :=
  match a, b with
  | Fin x, Fin y => Qle_bool x y
  | _, _ => false
  end.

Definition ltb (a b : cell) : bool :=
  match a, b with
  | Fin x, Fin y => Qlt_bool x y
  | _, _ => false
  end.

Definition sub (a b : cell) : cell :=
  match a, b with
  | Fin x, Fin y => Fin (x - y)
  | _, _ => NaN
  end.

Definition mul (a b : cell) : cell :=
  match a, b with
  | Fin x, Fin y => Fin (x * y)
  | _, _ => NaN
  end.

Definition isna (a : cell) : bool :=
  match a with
  | NaN => true
  | Fin _ => false
  end.

(** [bool(x)]: zero alone is false. *)
Definition to_bool (a : cell) : bool :=
  match a with
  | NaN => true
  | Fin q => negb (Qeq_bool q 0)
  end.

(** The larger of two cells, [NaN] being skipped. *)
Definition max (a b : cell) : cell :=
  match a, b with
  | NaN, _ => b
  | _, NaN => a
  | Fin x, Fin y => if Qle_bool x y then b else a
  end.

End Cell.

Module Series.

(** [s.iloc[i]] with Python's negative positions *)
Definition iloc (s : list cell) (i : Z) : result cell :=
  let n := Z.of_nat (length s) in
  let j := if (i <? 0)%Z then (i + n)%Z else i in
  if (0 <=? j)%Z && (j <? n)%Z then
    match s !! Z.to_nat j with
    | Some c => Ok c
    | None => Raise IndexError
    end
  else Raise IndexError.

(** A bound of a slice, put into [0 .. n]. *)
Definition clamp (n i : Z) : Z :=
  if (i <? 0)%Z then Z.max 0 (i + n) else Z.min i n.

(** [s.iloc[a:b]] *)
Definition slice (s : list cell) (a b : Z) : list cell :=
  let n := Z.of_nat (length s) in
  let a' := Z.to_nat (clamp n a) in
  let b' := Z.to_nat (clamp n b) in
  take (b' - a') (drop a' s).

(** [s.max()]: [NaN] cells are skipped, and [NaN] is the result when
    nothing is left. *)
Definition max (s : list cell) : cell := foldr Cell.max NaN s.

(** The mean of a full window, [NaN] if one of its cells is. *)
Fixpoint sum (s : list cell) : cell :=
  match s with
  | [] => Fin 0
  | NaN :: _ => NaN
  | Fin x :: r =>
      match sum r with
      | NaN => NaN
      | Fin y => Fin (x + y)
      end
  end.

Definition mean (s : list cell) : cell :=
  match sum s with
  | NaN => NaN
  | Fin t => Fin (t / inject_Z (Z.of_nat (length s)))
  end.

(** [s.rolling(w).mean()] *)
Definition rolling_mean (w : nat) (s : list cell) : list cell :=
  (fun i =>
     if (S i <? w)%nat then NaN else mean (take w (drop (S i - w) s)))
    <$> seq 0 (length s).

(** A series put on an index of [n] rows. *)
Definition align (n : nat) (s : list cell) : list cell :=
  take n (s ++ replicate (n - length s) NaN)%list.

End Series.

Record DataFrame : Type := {
  nrows : nat;
  columns : list (string * list cell)
}.

Module Frame.

(** [df[c]] *)
Definition col (df : DataFrame) (c : string) : result (list cell) :=
  match PyDict.get (columns df) c with
  | Some s => Ok s
  | None => Raise KeyError
  end.

(** [df[c] = s] *)
Definition assign (df : DataFrame) (c : string) (s : list cell) : DataFrame :=
  {| nrows := nrows df;
     columns := PyDict.set (columns df) c (Series.align (nrows df) s) |}.

(** [c in df.columns] *)
Definition has (df : DataFrame) (c : string) : bool :=
  match PyDict.get (columns df) c with
  | Some _ => true
  | None => false
  end.

End Frame.

(** ** Indicator engine ([src/indicators.py]) *)

(** The indicators of the [ta] package, each from the columns it reads to
    the series it returns. *)
Class TA : Type := {
  rsi : nat -> list cell -> list cell;
  money_flow_index :
    nat -> list cell -> list cell -> list cell -> list cell -> list cell;
  macd : list cell -> list cell;
  macd_signal : list cell -> list cell;
  ema_indicator : nat -> list cell -> list cell
}.

Definition ensure_ohlcv (df : DataFrame) : result DataFrame :=
  let needed := ["open"; "high"; "low"; "close"; "volume"] in
  let missing := List.filter (fun c => negb (Frame.has df c)) needed in
  match missing with
  | [] => Ok df
  | _ => Raise ValueError
  end.

Definition add_indicators `{TA} (df : DataFrame) : result DataFrame :=
  df ← ensure_ohlcv df;
  close ← Frame.col df "close";
  let df := Frame.assign df "rsi" (rsi 14 close) in
  high ← Frame.col df "high";
  low ← Frame.col df "low";
  volume ← Frame.col df "volume";
  let df := Frame.assign df "mfi" (money_flow_index 14 high low close volume) in
  let df := Frame.assign df "macd" (macd close) in
  let df := Frame.assign df "macd_signal" (macd_signal close) in
  let df := Frame.assign df "ema20" (ema_indicator 20 close) in
  let df := Frame.assign df "ema50" (ema_indicator 50 close) in
  let df := Frame.assign df "ema200" (ema_indicator 200 close) in
  volume ← Frame.col df "volume";
  Ok (Frame.assign df "vol_ma20" (Series.rolling_mean 20 volume)).

Definition recent_resistance_break (df : DataFrame) (lookback : Z)
  : result bool :=
  if (Z.of_nat (nrows df) <? lookback + 1)%Z then Ok false
  else
    high ← Frame.col df "high";
    let recent_high := Series.max (Series.slice high (- (lookback + 1)) (-1)) in
    close ← Frame.col df "close";
    last ← Series.iloc close (-1);
    Ok (Cell.ltb recent_high last).

Definition volume_spike (df : DataFrame) (multiple : Q) : result bool :=
  vol_ma20 ← Frame.col df "vol_ma20";
  na ← Series.iloc vol_ma20 (-1);
  if Cell.isna na then Ok false
  else
    volume ← Frame.col df "volume";
    v ← Series.iloc volume (-1);
    ma ← Series.iloc vol_ma20 (-1);
    Ok (Cell.ltb (Cell.mul (Fin multiple) ma) v).

(** ** Pattern detector ([src/patterns.py]) *)

(** A function of the candlestick package: it is handed a copy of the
    frame and leaves its columns in it, or raises. *)
Definition pattern_fn : Type := DataFrame -> result DataFrame.

(** The package, as [getattr(_candle_mod, name, None)]. *)
Definition candle_mod : Type := string -> option pattern_fn.

Definition BULLISH_PATTERNS : list string :=
  ["bullish_engulfing"; "hammer"; "morning_star"; "three_white_soldiers"].

(** [_PATTERN_FUNCS]; [None] is the package that could not be imported. *)
Definition PATTERN_FUNCS (m : option candle_mod)
  : list (string * option pattern_fn) :=
  match m with
  | None => []
  | Some getattr => (fun name => (name, getattr name)) <$> BULLISH_PATTERNS
  end.

(** The body of the [try]: does the pattern show on the last row? *)
Definition pattern_fires (fn : pattern_fn) (name : string) (df : DataFrame)
  : result bool :=
  temp ← fn df;
  if Frame.has temp name then
    column ← Frame.col temp name;
    last ← Series.iloc column (-1);
    Ok (Cell.to_bool last)
  else Ok false.

Definition detect_step (df : DataFrame) (res : list (string * bool))
    (item : string * option pattern_fn) : list (string * bool) :=
  match snd item with
  | None => res
  | Some fn =>
      match pattern_fires fn (fst item) df with
      | Ok true => PyDict.set res (fst item) true
      | Ok false => res
      | Raise _ => res
      end
  end.

Definition detect_bullish_patterns (m : option candle_mod) (df : DataFrame)
  : list (string * bool) :=
  match PATTERN_FUNCS m with
  | [] => (fun name => (name, false)) <$> BULLISH_PATTERNS
  | funcs =>
      foldl (detect_step df) ((fun name => (name, false)) <$> BULLISH_PATTERNS)
        funcs
  end.

(** ** Signal scorer ([src/signals.py]) *)

Record Signal : Type := {
  score : nat;
  conditions : list (string * bool);
  patterns : list (string * bool);
  indicators : list (string * cell);
  price : cell
}.

(** [any(xs)] *)
Definition any (xs : list bool) : bool := existsb id xs.

(** [sum(1 for v in xs if v)] *)
Definition count_true (xs : list bool) : nat := length (List.filter id xs).

(** The two crossings, read on the last two rows. *)
Definition crossings (df1 : DataFrame) (conds : list (string * bool))
  : result (list (string * bool)) :=
  if (2 <=? nrows df1)%nat then
    rsi_col ← Frame.col df1 "rsi";
    rsi_prev ← Series.iloc rsi_col (-2);
    rsi_now ← Series.iloc rsi_col (-1);
    let conds :=
      PyDict.set conds "rsi_cross_50"
        (Cell.leb rsi_prev (Fin 50)
         && (Cell.ltb (Fin 50) rsi_now && Cell.ltb rsi_now (Fin 80))) in
    macd_col ← Frame.col df1 "macd";
    sig_col ← Frame.col df1 "macd_signal";
    m2 ← Series.iloc macd_col (-2);
    s2 ← Series.iloc sig_col (-2);
    let macd_prev := Cell.sub m2 s2 in
    m1 ← Series.iloc macd_col (-1);
    s1 ← Series.iloc sig_col (-1);
    let macd_now := Cell.sub m1 s1 in
    Ok (PyDict.set conds "macd_bullish_cross"
          (Cell.leb macd_prev (Fin 0) && Cell.ltb (Fin 0) macd_now))
  else Ok conds.

(** The last cell of a column. *)
Definition latest (df : DataFrame) (c : string) : result cell :=
  column ← Frame.col df c;
  Series.iloc column (-1).

Definition compute_signal `{TA} (m : option candle_mod)
    (df_1h df_15m : DataFrame) : result Signal :=
  df1 ← add_indicators df_1h;
  df15 ← add_indicators df_15m;
  let conds :=
    [("rsi_cross_50", false); ("macd_bullish_cross", false);
     ("price_above_ema20_50", false); ("ema20_gt_ema50", false);
     ("bullish_pattern", false)] in
  conds ← crossings df1 conds;
  price_now ← latest df1 "close";
  ema20 ← latest df1 "ema20";
  ema50 ← latest df1 "ema50";
  let conds :=
    PyDict.set conds "price_above_ema20_50"
      (Cell.ltb ema20 price_now && Cell.ltb ema50 price_now) in
  let conds := PyDict.set conds "ema20_gt_ema50" (Cell.ltb ema50 ema20) in
  let patterns := detect_bullish_patterns m df1 in
  let conds := PyDict.set conds "bullish_pattern" (any (PyDict.values patterns)) in
  spike ← volume_spike df15 2;
  rsi15 ← latest df15 "rsi";
  brk ← recent_resistance_break df15 20;
  let conds :=
    PyDict.update conds
      [("vol_spike_15m", spike); ("rsi_15m_gt_50", Cell.ltb (Fin 50) rsi15);
       ("break_resistance_15m", brk)] in
  let conds :=
    PyDict.update conds [("lunar_trending", false); ("news_positive", false)] in
  let score := count_true (PyDict.values conds) in
  rsi1 ← latest df1 "rsi";
  macd1 ← latest df1 "macd";
  sig1 ← latest df1 "macd_signal";
  ema200 ← latest df1 "ema200";
  Ok {| score := score;
        conditions := conds;
        patterns := patterns;
        indicators :=
          [("rsi", rsi1); ("macd", macd1); ("macd_signal", sig1);
           ("ema20", ema20); ("ema50", ema50); ("ema200", ema200)];
        price := price_now |}.

(** The ten slots of the condition set, in the order they are written. *)
Definition condition_names : list string :=
  ["rsi_cross_50"; "macd_bullish_cross"; "price_above_ema20_50";
   "ema20_gt_ema50"; "bullish_pattern"; "vol_spike_15m"; "rsi_15m_gt_50";
   "break_resistance_15m"; "lunar_trending"; "news_positive"].

(** ** Notions the specification is stated with *)

(** The coins of the pages the generic build reads: pages [p, p+1, ...],
    [n] at most, up to the first page that fails. *)
Fixpoint pages_read (fetch : nat -> option (list coin)) (p n : nat)
  : list coin :=
  match n with
  | O => []
  | S n' =>
      match fetch p with
      | None => []
      | Some items => (items ++ pages_read fetch (S p) n')%list
      end
  end.

(** The market caps observed for a symbol, in the order they were read. *)
Definition observed (sym : string) (items : list coin) : list Q :=
  omap (fun it =>
          if String.eqb (PyStr.upper (coin_symbol it)) sym
          then market_cap it else None) items.

(** The median of a list of values: the middle one of the sorted values,
    the mean of the two middle ones when their number is even. *)
Definition median (l : list Q) : option Q :=
  let s := sorted l in
  let n := length s in
  if Nat.even n then
    a ← s !! (n / 2 - 1)%nat; b ← s !! (n / 2)%nat; Some ((a + b) / 2)%Q
  else s !! (n / 2)%nat.

(** The letters of the ASCII alphabet, and the capital of a character:
    for a lower-case letter the letter at the same place of the upper-case
    alphabet, the character itself otherwise. *)
Definition ascii_lowercase : string := "abcdefghijklmnopqrstuvwxyz".
Definition ascii_uppercase : string := "ABCDEFGHIJKLMNOPQRSTUVWXYZ".

Fixpoint capital_in (lower upper : string) (c : ascii) : ascii :=
  match lower, upper with
  | String l lower', String u upper' =>
      if Ascii.eqb c l then u else capital_in lower' upper' c
  | _, _ => c
  end.

Definition capital (c : ascii) : ascii :=
  capital_in ascii_lowercase ascii_uppercase c.

(** A string with each of its characters replaced by its capital. *)
Fixpoint capitals (s : string) : string :=
  match s with
  | EmptyString => EmptyString
  | String c r => String (capital c) (capitals r)
  end.

(** A field name that gives no 24h change for a ticker: the ticker does
    not have it, or the parse of its value raises. *)
Definition unparsed (t : gmap string value) (key : string) : Prop :=
  t !! key = None \/
  exists v e, t !! key = Some v /\ parse_change v = Raise e.

(** What [pick_symbols] writes into a ticker as its 24h change. *)
Definition change_attached (t : gmap string value) : value :=
  dict_get (with_change t) "_24h_change_pct".

(** The [lookback] candles before the latest one. *)
Definition preceding (lookback : nat) (s : list cell) : list cell :=
  let before := take (length s - 1) s in
  drop (length before - lookback) before.

(** ** Inputs of the examples *)

Module Examples.

(** One page on which ABC is listed twice. *)
Definition two_caps (p : nat) : option (list coin) :=
  match p with
  | 1%nat => Some [Coin "abc" (Some 10%Q); Coin "abc" (Some 20%Q)]
  | _ => Some []
  end.

(** ABC listed three times, over two pages. *)
Definition three_caps (p : nat) : option (list coin) :=
  match p with
  | 1%nat => Some [Coin "abc" (Some 30%Q); Coin "xyz" (Some 5%Q);
                   Coin "abc" (Some 10%Q)]
  | 2%nat => Some [Coin "ABC" (Some 20%Q); Coin "nil" None]
  | _ => Some []
  end.

(** The generic listing gives ABC a cap of 7. *)
Definition generic_abc (p : nat) : option (list coin) :=
  match p with
  | 1%nat => Some [Coin "abc" (Some 7%Q)]
  | _ => Some []
  end.

(** The exchange-scoped mapping gives ABC a cap of 100. *)
Definition exchange_abc : gmap string Q := {["ABC" := 100%Q]}.

(** A ticker of the pair ABC/USDT, and a mapping that knows ABC. *)
Definition abc_ticker : gmap string value := {["symbol" := VStr "ABCUSDT"]}.

Definition abc_caps : gmap string Q := {["ABC" := 5000000%Q]}.

(** The doubles that the literals 0.0123, 1.23, 5.0, 100.0, 0.07 and
    7.000000000000001 denote, and the double next below the last one,
    7.0. *)
Definition f0_0123 : PyFloat.float :=
  S754_finite false 7090467253332109 (-59).

Definition f1_23 : PyFloat.float :=
  S754_finite false 5539427541665710 (-52).

Definition f5 : PyFloat.float :=
  S754_finite false 5629499534213120 (-50).

Definition f100 : PyFloat.float :=
  S754_finite false 7036874417766400 (-46).

Definition f0_07 : PyFloat.float :=
  S754_finite false 5044031582654956 (-56).

Definition f7_000000000000001 : PyFloat.float :=
  S754_finite false 7881299347898369 (-50).

Definition f7 : PyFloat.float :=
  S754_finite false 7881299347898368 (-50).

(** The doubles that the literals 0.1 and 50.0 denote. *)
Definition f0_1 : PyFloat.float :=
  S754_finite false 7205759403792794 (-56).

Definition f50 : PyFloat.float :=
  S754_finite false 7036874417766400 (-47).

(** The ticker of ABC/USDT with a field [key] that holds [chg]. *)
Definition abc_with (key : string) (chg : value) : gmap string value :=
  <[key := chg]> abc_ticker.

(** Three candles: the two before the latest have highs 5 and 7, and the
    latest closes at 8. *)
Definition three_candles : DataFrame :=
  {| nrows := 3;
     columns := [("high", [Fin 5; Fin 7; Fin 100]);
                 ("close", [Fin 1; Fin 1; Fin 8])] |}.

(** An indicator package whose RSI is a given series; its other
    indicators are not defined on any row. *)
Definition fixed_rsi (r : list cell) : TA :=
  {| rsi := fun _ _ => r;
     money_flow_index := fun _ _ _ _ _ => [];
     macd := fun _ => [];
     macd_signal := fun _ => [];
     ema_indicator := fun _ _ => [] |}.

(** A frame of [n] candles, every price and volume of which is 1. *)
Definition flat (n : nat) : DataFrame :=
  {| nrows := n;
     columns :=
       (fun c => (c, replicate n (Fin 1)))
         <$> ["open"; "high"; "low"; "close"; "volume"] |}.

End Examples.

(** ** Exchange-scoped market caps ([build_marketcap_map_from_exchange]) *)

Definition STABLE_TARGETS : list string := ["USDT"; "USDC"; "USD"].

(** A ticker of the exchange listing: its quote asset, after [str(...)];
    the coin id under ["coin_id"] and the one under ["coin"]["id"], each
    the empty string where it is missing or null. *)
Record xticker : Type := XTicker {
  target : string;
  coin_id : string;
  coin_nested_id : string
}.

(** The body of the loop over the tickers of a page. *)
Definition add_ticker_id (coin_ids : list string) (t : xticker) : list string :=
  if bool_decide (PyStr.upper (target t) ∈ STABLE_TARGETS) then
    let cid :=
      if String.eqb (coin_id t) EmptyString then coin_nested_id t
      else coin_id t in
    if String.eqb cid EmptyString then coin_ids else (coin_ids ++ [cid])%list
  else coin_ids.

(** The loop over the pages [p, p+1, ...], [n] at most; [fetch] is
    [coingecko_exchange_tickers], read through [payload.get("tickers")],
    [None] being a [RequestException].  The loop breaks on a failure and
    on a page without tickers. *)
Fixpoint collect_coin_ids (fetch : nat -> option (list xticker)) (p n : nat)
    (coin_ids : list string) : list string :=
  match n with
  | O => coin_ids
  | S n' =>
      match fetch p with
      | None => coin_ids
      | Some [] => coin_ids
      | Some tickers =>
          collect_coin_ids fetch (S p) n' (foldl add_ticker_id coin_ids tickers)
      end
  end.

(** [list(dict.fromkeys(l))]: the first occurrence of each element, in
    order. *)
Definition fromkeys (l : list string) : list string :=
  foldl (fun acc x => if bool_decide (x ∈ acc) then acc else (acc ++ [x])%list)
    [] l.

(** [range(0, stop, step)] for a positive [step] *)
Definition range_step (stop step : nat) : list nat :=
  (fun k => (k * step)%nat) <$> seq 0 ((stop + step - 1) / step)%nat.

(** The slices [l[i:i+size]] of the loop over [range(0, len(l), size)] *)
Definition chunks {A : Type} (size : nat) (l : list A) : list (list A) :=
  (fun i => take size (drop i l)) <$> range_step (length l) size.

(** [coingecko_markets_by_ids]: no request is made for no id; [http] is
    the request, [None] being a [RequestException]. *)
Definition coingecko_markets_by_ids (http : list string -> option (list coin))
    (ids : list string) : option (list coin) :=
  match ids with
  | [] => Some []
  | _ => http ids
  end.

(** [max(a, b)]: the first of the two unless the second is larger. *)
Definition py_max (a b : Q) : Q := if Qlt_bool a b then b else a.

(** [caps[sym] = max(float(mc), caps.get(sym, 0.0))], skipped on a null cap
    and on an empty symbol *)
Definition add_market (caps : gmap string Q) (m : coin) : gmap string Q :=
  let sym := PyStr.upper (coin_symbol m) in
  match market_cap m with
  | None => caps
  | Some mc =>
      if String.eqb sym EmptyString then caps
      else <[sym := py_max mc (default 0%Q (caps !! sym))]> caps
  end.

(** One turn of the loop over the chunks: a chunk whose request fails is
    passed over. *)
Definition add_chunk (http : list string -> option (list coin))
    (caps : gmap string Q) (part : list string) : gmap string Q :=
  match coingecko_markets_by_ids http part with
  | None => caps
  | Some markets => foldl add_market caps markets
  end.

Definition build_marketcap_map_from_exchange
    (fetch : nat -> option (list xticker))
    (http : list string -> option (list coin)) (pages : nat)
  : gmap string Q :=
  let coin_ids := fromkeys (collect_coin_ids fetch 1 pages []) in
  match coin_ids with
  | [] => ∅
  | _ => foldl (add_chunk http) ∅ (chunks 200 coin_ids)
  end.

(** ** Candles ([bitget_candles]) *)

(** The rows that [bitget_candles] hands to the frame constructor (lines
    63 to 66), of a response which lists the most recent candle first:
    [rows = list(reversed(rows))], then [rows[-limit:]] when [limit] is
    not zero and there are more rows than that.  [limit] is an [int]; the
    slice [rows[-limit:]] starts at [len(rows) - limit] for a positive
    [limit] and at [-limit] for a negative one. *)
Definition recent_rows {A : Type} (limit : Z) (rows : list A) : list A :=
  let rows := rev rows in
  if negb (limit =? 0)%Z && (limit <? Z.of_nat (length rows))%Z
  then
    if (0 <? limit)%Z then drop (length rows - Z.to_nat limit) rows
    else drop (Z.to_nat (- limit)) rows
  else rows.

(** ** The alert threshold ([bot.py]) *)

Definition REQUIRED_SCORE : nat := 5.

(** [analysis["score"] >= REQUIRED_SCORE] *)
Definition alert_worthy (analysis : Signal) : bool :=
  (REQUIRED_SCORE <=? score analysis)%nat.

(** ** Notions the further properties are stated with *)

(** The tickers of the pages the exchange-scoped build reads. *)
Fixpoint xpages_read (fetch : nat -> option (list xticker)) (p n : nat)
  : list xticker :=
  match n with
  | O => []
  | S n' =>
      match fetch p with
      | None => []
      | Some [] => []
      | Some tickers => (tickers ++ xpages_read fetch (S p) n')%list
      end
  end.

(** The market records the exchange-scoped build receives: those of the
    chunks whose request succeeds. *)
Definition markets_received (http : list string -> option (list coin))
    (parts : list (list string)) : list coin :=
  concat (omap (coingecko_markets_by_ids http) parts).

(** The caps a list of market records gives for a non-empty symbol. *)
Definition caps_of (sym : string) (markets : list coin) : list Q :=
  if String.eqb sym EmptyString then [] else observed sym markets.

(** * Properties *)

(** ** Market-cap resolver *)

Lemma dict_update_lookup {V : Type} (d other : gmap string V) (k : string) :
  dict_update d other !! k =
    match other !! k with
    | Some v => Some v
    | None => d !! k
    end.
Proof.
  unfold dict_update. rewrite lookup_union.
  destruct (other !! k) as [v|]; destruct (d !! k); reflexivity.
Qed.

(** Whenever the generic build runs, its value for a symbol replaces the
    exchange-scoped one. *)
Lemma merged_caps_generic_wins (cg_caps generic : gmap string Q)
    (fetch : nat -> option (list coin)) (pages : nat) (sym : string) (g : Q) :
  (size cg_caps < 50)%nat ->
  build_symbol_marketcap_map fetch pages = Ok generic ->
  generic !! sym = Some g ->
  exists m, merged_caps cg_caps fetch pages = Ok m /\ m !! sym = Some g.
Proof.
  intros Hsize Hbuild Hg. unfold merged_caps.
  destruct (Nat.ltb_spec (size cg_caps) 50) as [_|Hge]; [|lia].
  rewrite Hbuild. simpl. eexists. split; [reflexivity|].
  rewrite dict_update_lookup, Hg. reflexivity.
Qed.

(** C1. On an exchange-scoped mapping that gives ABC a cap of 100 and a
    generic listing that gives it 7, the merged mapping holds 7 for ABC:
    the generic entry has replaced the exchange-scoped one. *)
Theorem merged_caps_overwrites_exchange_entry :
  Examples.exchange_abc !! "ABC" = Some 100%Q /\
  exists m,
    merged_caps Examples.exchange_abc Examples.generic_abc 8 = Ok m /\
    m !! "ABC" = Some 7%Q.
Proof.
  split; [reflexivity|].
  eexists. split; [vm_compute; reflexivity|]. vm_compute. reflexivity.
Qed.

(** *** [sorted] sorts *)

Lemma insert_sorted_perm (x : Q) (l : list Q) : insert_sorted x l ≡ₚ x :: l.
Proof.
  induction l as [|y r IH]; simpl; [reflexivity|].
  destruct (Qle_bool x y); [reflexivity|].
  rewrite IH. apply perm_swap.
Qed.

Lemma sorted_perm (l : list Q) : sorted l ≡ₚ l.
Proof.
  induction l as [|x r IH]; simpl; [reflexivity|].
  rewrite insert_sorted_perm. apply perm_skip, IH.
Qed.

Lemma sorted_length (l : list Q) : length (sorted l) = length l.
Proof. apply Permutation_length, sorted_perm. Qed.

Lemma insert_sorted_hdrel (a x : Q) (l : list Q) :
  (a <= x)%Q -> HdRel Qle a l -> HdRel Qle a (insert_sorted x l).
Proof.
  intros Hax Hl. destruct l as [|y r]; simpl; [constructor; exact Hax|].
  destruct (Qle_bool x y); constructor; [exact Hax|].
  inversion Hl; assumption.
Qed.

Lemma insert_sorted_Sorted (x : Q) (l : list Q) :
  Sorted Qle l -> Sorted Qle (insert_sorted x l).
Proof.
  induction l as [|y r IH]; intros Hl; simpl.
  - repeat constructor.
  - destruct (Qle_bool x y) eqn:Hxy.
    + constructor; [exact Hl|]. constructor. apply Qle_bool_iff, Hxy.
    + inversion Hl as [|? ? Hr Hhd]; subst. constructor; [apply IH, Hr|].
      apply insert_sorted_hdrel; [|exact Hhd].
      apply Qlt_le_weak, Qnot_le_lt. intros Hle.
      apply Qle_bool_iff in Hle. congruence.
Qed.

Lemma sorted_Sorted (l : list Q) : Sorted Qle (sorted l).
Proof.
  induction l as [|x r IH]; simpl; [constructor|].
  apply insert_sorted_Sorted, IH.
Qed.

Lemma middle_is_Some (l : list Q) : l <> [] -> is_Some (middle l).
Proof.
  intros Hl. unfold middle. apply lookup_lt_is_Some.
  rewrite sorted_length. destruct l as [|x r]; [congruence|].
  apply Nat.div_lt; simpl; lia.
Qed.

(** *** The grouping loop *)

Lemma observed_app (sym : string) (xs ys : list coin) :
  observed sym (xs ++ ys) = (observed sym xs ++ observed sym ys)%list.
Proof. unfold observed. apply omap_app. Qed.

Lemma add_coin_lookup (caps : gmap string (list Q)) (it : coin) (sym : string) :
  default [] (add_coin caps it !! sym) =
    (default [] (caps !! sym) ++ observed sym [it])%list.
Proof.
  unfold add_coin, observed. simpl.
  destruct (String.eqb_spec (PyStr.upper (coin_symbol it)) sym) as [->|Hne];
    destruct (market_cap it) as [mc|]; simpl; rewrite ?app_nil_r; try reflexivity.
  - rewrite lookup_insert_eq. reflexivity.
  - rewrite lookup_insert_ne by exact Hne. reflexivity.
Qed.

Lemma add_coin_nonempty (caps : gmap string (list Q)) (it : coin) :
  map_Forall (fun _ lst => lst <> []) caps ->
  map_Forall (fun _ lst => lst <> []) (add_coin caps it).
Proof.
  intros Hcaps. unfold add_coin. destruct (market_cap it) as [mc|]; [|exact Hcaps].
  apply map_Forall_insert_2; [|exact Hcaps].
  destruct (default [] _); discriminate.
Qed.

Lemma foldl_add_coin_lookup (items : list coin) (caps : gmap string (list Q))
    (sym : string) :
  default [] (foldl add_coin caps items !! sym) =
    (default [] (caps !! sym) ++ observed sym items)%list.
Proof.
  revert caps. induction items as [|it r IH]; intros caps; simpl.
  - rewrite app_nil_r. reflexivity.
  - rewrite IH, add_coin_lookup. rewrite <- app_assoc.
    rewrite <- observed_app. reflexivity.
Qed.

Lemma foldl_add_coin_nonempty (items : list coin) (caps : gmap string (list Q)) :
  map_Forall (fun _ lst => lst <> []) caps ->
  map_Forall (fun _ lst => lst <> []) (foldl add_coin caps items).
Proof.
  revert caps. induction items as [|it r IH]; intros caps Hcaps; simpl;
    [exact Hcaps|]. apply IH, add_coin_nonempty, Hcaps.
Qed.

Lemma collect_pages_lookup (fetch : nat -> option (list coin)) (n p : nat)
    (caps : gmap string (list Q)) (sym : string) :
  default [] (collect_pages fetch p n caps !! sym) =
    (default [] (caps !! sym) ++ observed sym (pages_read fetch p n))%list.
Proof.
  revert p caps. induction n as [|n IH]; intros p caps; simpl.
  - rewrite app_nil_r. reflexivity.
  - destruct (fetch p) as [items|]; simpl.
    + rewrite IH, foldl_add_coin_lookup, observed_app, app_assoc. reflexivity.
    + rewrite app_nil_r. reflexivity.
Qed.

Lemma collect_pages_nonempty (fetch : nat -> option (list coin)) (n p : nat)
    (caps : gmap string (list Q)) :
  map_Forall (fun _ lst => lst <> []) caps ->
  map_Forall (fun _ lst => lst <> []) (collect_pages fetch p n caps).
Proof.
  revert p caps. induction n as [|n IH]; intros p caps Hcaps; simpl;
    [exact Hcaps|].
  destruct (fetch p) as [items|]; [|exact Hcaps].
  apply IH, foldl_add_coin_nonempty, Hcaps.
Qed.

(** The build never raises, and holds [middle] of the observed values. *)
Lemma build_symbol_marketcap_map_lookup (fetch : nat -> option (list coin))
    (pages : nat) :
  exists m,
    build_symbol_marketcap_map fetch pages = Ok m /\
    forall sym,
      m !! sym =
        match observed sym (pages_read fetch 1 pages) with
        | [] => None
        | obs => middle obs
        end.
Proof.
  unfold build_symbol_marketcap_map.
  pose proof (collect_pages_nonempty fetch pages 1 ∅ (map_Forall_empty _)) as Hne.
  set (caps := collect_pages fetch 1 pages ∅) in *.
  destruct (decide _) as [_|Hbad].
  - eexists. split; [reflexivity|]. intros sym. rewrite lookup_omap.
    pose proof (collect_pages_lookup fetch pages 1 ∅ sym) as Hl.
    fold caps in Hl. rewrite lookup_empty in Hl. simpl in Hl.
    destruct (caps !! sym) as [lst|] eqn:Hc; simpl in *.
    + rewrite <- Hl. apply Hne in Hc. destruct lst; [congruence|reflexivity].
    + rewrite <- Hl. reflexivity.
  - exfalso. apply Hbad. intros k lst Hk. apply middle_is_Some, (Hne k), Hk.
Qed.

(** C2. The generic build does not resolve a symbol observed with several
    caps to their median, which is what the comment above the loop
    ("take median to reduce outliers") announces: with the two caps 10 and
    20 observed for ABC on one page the build resolves ABC to 20, while
    the median of the two values is 15. *)
Lemma generic_build_two_values_not_median :
  exists m v med,
    build_symbol_marketcap_map Examples.two_caps 1 = Ok m /\
    observed "ABC" (pages_read Examples.two_caps 1 1) = [10%Q; 20%Q] /\
    m !! "ABC" = Some v /\
    median [10%Q; 20%Q] = Some med /\
    (v == 20)%Q /\ (med == 15)%Q /\ ~ (v == med)%Q.
Proof.
  eexists. exists 20%Q. eexists.
  split; [vm_compute; reflexivity|].
  split; [reflexivity|].
  split; [vm_compute; reflexivity|].
  split; [vm_compute; reflexivity|].
  split; [reflexivity|].
  split; [reflexivity|].
  intros H. vm_compute in H. discriminate H.
Qed.

(** What the loop computes instead.  The generic build always returns; a
    symbol has an entry exactly when a cap was observed for it, and the
    entry is the value at position [n / 2] of the [n] observed values put
    in ascending order: their median when [n] is odd, the upper one of the
    two middle values when [n] is even.  For the values 30, 10, 20 read
    over two pages the entry is 20. *)
Theorem generic_build_takes_middle_value :
  (forall (fetch : nat -> option (list coin)) (pages : nat),
    exists m,
      build_symbol_marketcap_map fetch pages = Ok m /\
      forall sym,
        let obs := observed sym (pages_read fetch 1 pages) in
        match m !! sym with
        | None => obs = []
        | Some v =>
            exists s,
              s ≡ₚ obs /\ Sorted Qle s /\
              s !! (length obs / 2)%nat = Some v /\
              (if Nat.odd (length obs) then median obs = Some v else True)
        end) /\
  (exists m,
     build_symbol_marketcap_map Examples.three_caps 8 = Ok m /\
     observed "ABC" (pages_read Examples.three_caps 1 8) = [30%Q; 10%Q; 20%Q] /\
     m !! "ABC" = Some 20%Q).
Proof.
  split.
  - intros fetch pages.
    destruct (build_symbol_marketcap_map_lookup fetch pages) as (m & Hm & Hlook).
    exists m. split; [exact Hm|]. intros sym obs. rewrite Hlook. fold obs.
    destruct obs as [|x r] eqn:Hobs; [reflexivity|]. rewrite <- Hobs.
    unfold middle. rewrite sorted_length.
    destruct (sorted obs !! (length obs / 2)%nat) as [v|] eqn:Hv.
    + exists (sorted obs).
      split; [apply sorted_perm|]. split; [apply sorted_Sorted|].
      split; [exact Hv|].
      destruct (Nat.odd (length obs)) eqn:Hodd; [|exact I].
      unfold median. rewrite sorted_length, <- Nat.negb_odd, Hodd. exact Hv.
    + apply lookup_ge_None in Hv. rewrite sorted_length in Hv.
      assert (length obs / 2 < length obs)%nat; [|lia].
      apply Nat.div_lt; [|lia]. rewrite Hobs. simpl. lia.
  - eexists. split; [vm_compute; reflexivity|].
    split; [reflexivity|]. vm_compute. reflexivity.
Qed.

(** ** Python strings *)

Lemma app_cons (c : ascii) (s1 s2 : string) :
  String c s1 +:+ s2 = String c (s1 +:+ s2).
Proof. reflexivity. Qed.

Lemma app_nil (s : string) : EmptyString +:+ s = s.
Proof. reflexivity. Qed.

Lemma length_app (s1 s2 : string) :
  String.length (s1 +:+ s2) = (String.length s1 + String.length s2)%nat.
Proof. induction s1 as [|c r IH]; simpl; [reflexivity|]. rewrite IH. reflexivity. Qed.

Lemma substring_all (s : string) : substring 0 (String.length s) s = s.
Proof. induction s as [|c r IH]; simpl; [reflexivity|]. rewrite IH. reflexivity. Qed.

Lemma substring_app_l (b suf : string) :
  substring 0 (String.length b) (b +:+ suf) = b.
Proof.
  induction b as [|c r IH]; simpl.
  - destruct suf; reflexivity.
  - rewrite IH. reflexivity.
Qed.

Lemma substring_app_r (b suf : string) :
  substring (String.length b) (String.length suf) (b +:+ suf) = suf.
Proof. induction b as [|c r IH]; simpl; [apply substring_all|exact IH]. Qed.

Lemma substring_split (n : nat) (s : string) :
  (n <= String.length s)%nat ->
  s = substring 0 n s +:+ substring n (String.length s - n) s.
Proof.
  revert n. induction s as [|c r IH]; intros n Hn; simpl in *.
  - destruct n; reflexivity.
  - destruct n as [|n]; simpl.
    + rewrite substring_all. reflexivity.
    + rewrite app_cons. f_equal. apply IH. lia.
Qed.

Lemma endswith_app (b suf : string) : PyStr.endswith (b +:+ suf) suf = true.
Proof.
  unfold PyStr.endswith. rewrite length_app.
  replace (String.length b + String.length suf - String.length suf)%nat
    with (String.length b) by lia.
  rewrite substring_app_r, String.eqb_refl, andb_true_r.
  apply Nat.leb_le. lia.
Qed.

Lemma endswith_spec (s suf : string) :
  PyStr.endswith s suf = true <-> exists b, s = b +:+ suf.
Proof.
  split.
  - unfold PyStr.endswith. intros H. apply andb_true_iff in H as [Hlen Heq].
    apply Nat.leb_le in Hlen. apply String.eqb_eq in Heq.
    exists (substring 0 (String.length s - String.length suf) s).
    pose proof (substring_split (String.length s - String.length suf) s) as Hs.
    replace (String.length s - (String.length s - String.length suf))%nat
      with (String.length suf) in Hs by lia.
    rewrite Heq in Hs. apply Hs. lia.
  - intros [b ->]. apply endswith_app.
Qed.

Lemma drop_last_app (b suf : string) :
  PyStr.drop_last (String.length suf) (b +:+ suf) = b.
Proof.
  unfold PyStr.drop_last. rewrite length_app.
  replace (String.length b + String.length suf - String.length suf)%nat
    with (String.length b) by lia.
  apply substring_app_l.
Qed.

Lemma substring_length (n : nat) (s : string) :
  String.length (substring 0 n s) = Nat.min n (String.length s).
Proof.
  revert n. induction s as [|c r IH]; intros [|n]; simpl; try reflexivity.
  rewrite IH. reflexivity.
Qed.

Lemma take_spec (k : nat) (s : string) :
  String.length (PyStr.take k s) = Nat.min k (String.length s) /\
  exists rest, s = PyStr.take k s +:+ rest.
Proof.
  unfold PyStr.take. split; [apply substring_length|].
  destruct (Nat.le_gt_cases k (String.length s)) as [Hle|Hgt].
  - eexists. apply substring_split, Hle.
  - exists EmptyString. revert k Hgt.
    induction s as [|c r IH]; intros k Hgt; simpl in *.
    + destruct k; reflexivity.
    + destruct k as [|k]; [lia|]. simpl. rewrite app_cons. f_equal.
      apply IH. lia.
Qed.

Lemma upper_ascii_idem (c : ascii) :
  PyStr.upper_ascii (PyStr.upper_ascii c) = PyStr.upper_ascii c.
Proof. destruct c as [[] [] [] [] [] [] [] []]; reflexivity. Qed.

Lemma upper_idem (s : string) : PyStr.upper (PyStr.upper s) = PyStr.upper s.
Proof.
  induction s as [|c r IH]; simpl; [reflexivity|].
  rewrite upper_ascii_idem, IH. reflexivity.
Qed.

Lemma replace_dash_no_dash (s : string) :
  PyStr.mem "-" (PyStr.replace "-" EmptyString s) = false.
Proof.
  unfold PyStr.replace. induction s as [|c r IH]; [reflexivity|].
  cbn [PyStr.replace_go String.prefix]. destruct (ascii_dec "-" c) as [<-|Hne].
  - destruct r; exact IH.
  - cbn [PyStr.mem]. rewrite IH, orb_false_r. apply Ascii.eqb_neq, Hne.
Qed.

Lemma replace_dash_id (s : string) :
  PyStr.mem "-" s = false -> PyStr.replace "-" EmptyString s = s.
Proof.
  unfold PyStr.replace. induction s as [|c r IH]; [reflexivity|].
  cbn [PyStr.replace_go String.prefix PyStr.mem]. intros H.
  apply orb_false_iff in H as [Hc Hr]. apply Ascii.eqb_neq in Hc.
  destruct (ascii_dec "-" c) as [Heq|_]; [contradiction|].
  rewrite IH by exact Hr. reflexivity.
Qed.

Lemma replace_spbl_suffix (p : string) :
  PyStr.mem "_" p = false ->
  PyStr.replace "_SPBL" EmptyString (p +:+ "_SPBL") = p /\
  PyStr.replace "_SPBL" EmptyString p = p.
Proof.
  unfold PyStr.replace. induction p as [|c r IH]; [split; reflexivity|].
  cbn [PyStr.mem]. intros H. apply orb_false_iff in H as [Hc Hr].
  apply Ascii.eqb_neq in Hc. destruct (IH Hr) as [IH1 IH2].
  rewrite app_cons. cbn [PyStr.replace_go String.prefix].
  destruct (ascii_dec "_" c) as [Heq|_]; [contradiction|].
  rewrite IH1, IH2. split; reflexivity.
Qed.

Lemma upper_ascii_capital (c : ascii) : PyStr.upper_ascii c = capital c.
Proof. destruct c as [[] [] [] [] [] [] [] []]; vm_compute; reflexivity. Qed.

Lemma upper_capitals (s : string) : PyStr.upper s = capitals s.
Proof.
  induction s as [|c r IH]; simpl; [reflexivity|].
  rewrite upper_ascii_capital, IH. reflexivity.
Qed.

Lemma capital_not_lowercase (c : ascii) :
  PyStr.mem (capital c) ascii_lowercase = false.
Proof. destruct c as [[] [] [] [] [] [] [] []]; vm_compute; reflexivity. Qed.

Lemma capitals_no_lowercase (s : string) (c : ascii) :
  PyStr.mem c (capitals s) = true -> PyStr.mem c ascii_lowercase = false.
Proof.
  induction s as [|d r IH]; cbn [capitals PyStr.mem]; [discriminate|].
  intros H. apply orb_true_iff in H as [H|H]; [|exact (IH H)].
  apply Ascii.eqb_eq in H. subst c. apply capital_not_lowercase.
Qed.

Lemma capitals_length (s : string) :
  String.length (capitals s) = String.length s.
Proof. induction s as [|c r IH]; simpl; [reflexivity|]. rewrite IH. reflexivity. Qed.

(** ** Symbol normalizer *)

(** C7. For a non-empty pair symbol, let [cleaned] be the symbol with its
    ["-"] and its ["_SPBL"] removed.  The base is what precedes the quote
    suffix of [cleaned], the suffixes being tried in the order USDT, USDC,
    USD (as they are written, in capitals), and the first five characters
    of [cleaned] when it has none of them; the result is the base in upper
    case (and no result for an empty base): every lower-case letter of the
    base is replaced by its capital, every other character is kept, so
    that the result has the length of the base and holds no lower-case
    letter.  Cleaning leaves no ["-"], and takes the ["_SPBL"] suffix off
    a symbol.  The four pairs of the specification give ABC and XYZ; pairs
    written in lower case come out in capitals. *)
Theorem normalize_strips_quote_suffix :
  (forall symbol : string,
     symbol <> EmptyString ->
     let cleaned := PyStr.replace "_SPBL" EmptyString (PyStr.replace "-" EmptyString symbol) in
     exists base,
       normalize symbol =
         (if String.eqb base EmptyString then None else Some (PyStr.upper base)) /\
       (cleaned = base +:+ "USDT" \/
        (~ (exists b, cleaned = b +:+ "USDT") /\ cleaned = base +:+ "USDC") \/
        (~ (exists b, cleaned = b +:+ "USDT") /\
         ~ (exists b, cleaned = b +:+ "USDC") /\ cleaned = base +:+ "USD") \/
        (~ (exists b, cleaned = b +:+ "USDT") /\
         ~ (exists b, cleaned = b +:+ "USDC") /\
         ~ (exists b, cleaned = b +:+ "USD") /\
         String.length base = Nat.min 5 (String.length cleaned) /\
         exists rest, cleaned = base +:+ rest)) /\
       (forall out, normalize symbol = Some out ->
                    PyStr.upper out = out /\ out <> EmptyString /\
                    out = capitals base /\
                    String.length out = String.length base /\
                    forall c, PyStr.mem c out = true ->
                              PyStr.mem c ascii_lowercase = false)) /\
  (forall s : string, PyStr.mem "-" (PyStr.replace "-" EmptyString s) = false) /\
  (forall p : string,
     PyStr.mem "-" p = false -> PyStr.mem "_" p = false ->
     PyStr.replace "_SPBL" EmptyString (PyStr.replace "-" EmptyString (p +:+ "_SPBL")) = p /\
     PyStr.replace "_SPBL" EmptyString (PyStr.replace "-" EmptyString p) = p) /\
  (forall s : string, PyStr.upper s = capitals s) /\
  capitals "abcdefghijklmnopqrstuvwxyz" = "ABCDEFGHIJKLMNOPQRSTUVWXYZ" /\
  capitals "ABC-xyz_019 @[`{" = "ABC-XYZ_019 @[`{" /\
  normalize "ABCUSDT" = Some "ABC" /\
  normalize "ABC-USDT" = Some "ABC" /\
  normalize "ABCUSDT_SPBL" = Some "ABC" /\
  normalize "XYZUSD" = Some "XYZ" /\
  normalize "abcUSDT" = Some "ABC" /\
  normalize "abc-USDT" = Some "ABC" /\
  normalize "xyzUSD_SPBL" = Some "XYZ" /\
  normalize "abcusdt" = Some "ABCUS" /\
  normalize "ab" = Some "AB".
Proof.
  split; [|split; [exact replace_dash_no_dash|
                   split; [|split; [exact upper_capitals|
                                    repeat split; vm_compute; reflexivity]]]].
  - intros symbol Hne cleaned.
    assert (Hnorm : normalize symbol =
              (if String.eqb (base_of_symbol symbol) EmptyString
               then None else Some (PyStr.upper (base_of_symbol symbol)))).
    { unfold normalize. apply String.eqb_neq in Hne. rewrite Hne. reflexivity. }
    exists (base_of_symbol symbol). split; [exact Hnorm|]. split.
    + unfold base_of_symbol. fold cleaned.
      destruct (PyStr.endswith cleaned "USDT") eqn:H1.
      { left. apply endswith_spec in H1 as [b Hb]. rewrite Hb.
        f_equal. symmetry. apply (drop_last_app b "USDT"). }
      assert (N1 : ~ exists b, cleaned = b +:+ "USDT").
      { intros Hb. apply endswith_spec in Hb. congruence. }
      destruct (PyStr.endswith cleaned "USDC") eqn:H2.
      { right; left. split; [exact N1|].
        apply endswith_spec in H2 as [b Hb]. rewrite Hb.
        f_equal. symmetry. apply (drop_last_app b "USDC"). }
      assert (N2 : ~ exists b, cleaned = b +:+ "USDC").
      { intros Hb. apply endswith_spec in Hb. congruence. }
      destruct (PyStr.endswith cleaned "USD") eqn:H3.
      { right; right; left. split; [exact N1|]. split; [exact N2|].
        apply endswith_spec in H3 as [b Hb]. rewrite Hb.
        f_equal. symmetry. apply (drop_last_app b "USD"). }
      assert (N3 : ~ exists b, cleaned = b +:+ "USD").
      { intros Hb. apply endswith_spec in Hb. congruence. }
      right; right; right. repeat (split; [assumption|]).
      apply take_spec.
    + intros out Hout. rewrite Hnorm in Hout.
      destruct (String.eqb_spec (base_of_symbol symbol) EmptyString) as [|Hb];
        [discriminate|].
      injection Hout as <-. split; [apply upper_idem|]. split.
      { intros Hup. apply Hb. destruct (base_of_symbol symbol); [reflexivity|].
        discriminate Hup. }
      rewrite upper_capitals. split; [reflexivity|].
      split; [apply capitals_length|]. apply capitals_no_lowercase.
  - intros p Hdash Hus.
    assert (Hd : PyStr.mem "-" (p +:+ "_SPBL") = false).
    { clear Hus. induction p as [|c r IH]; [reflexivity|].
      rewrite app_cons. cbn [PyStr.mem] in *.
      apply orb_false_iff in Hdash as [Hc Hr]. rewrite Hc, (IH Hr). reflexivity. }
    rewrite (replace_dash_id _ Hd), (replace_dash_id _ Hdash).
    apply replace_spbl_suffix, Hus.
Qed.

Lemma normalize_strips_quote_suffix_witness :
  "abc-USDT" <> EmptyString /\
  exists base,
    normalize "abc-USDT" =
      (if String.eqb base EmptyString then None else Some (PyStr.upper base)) /\
    forall out, normalize "abc-USDT" = Some out ->
                out = capitals base /\
                forall c, PyStr.mem c out = true ->
                          PyStr.mem c ascii_lowercase = false.
Proof.
  split; [discriminate|].
  destruct (proj1 normalize_strips_quote_suffix "abc-USDT") as (base & H & _ & Hout).
  - discriminate.
  - exists base. split; [exact H|]. intros out Ho.
    destruct (Hout out Ho) as (_ & _ & Hcap & _ & Hlow).
    split; [exact Hcap|exact Hlow].
Defined.

(** ** Candidate filter *)

Lemma normalize_nonempty (s base : string) :
  normalize s = Some base -> s <> EmptyString.
Proof. intros H ->. discriminate H. Qed.

Lemma annotated_base (t : gmap string value) (base : string) (cap : Q) :
  annotated t base cap !! "_base" = Some (VStr base) /\
  annotated t base cap !! "_market_cap" = Some (VNum cap).
Proof.
  unfold annotated. split.
  - rewrite lookup_insert_ne by discriminate. apply lookup_insert_eq.
  - apply lookup_insert_eq.
Qed.

Lemma annotated_inj (t1 t2 : gmap string value) (b1 b2 : string) (c1 c2 : Q) :
  annotated t1 b1 c1 = annotated t2 b2 c2 -> b1 = b2 /\ c1 = c2.
Proof.
  intros H.
  destruct (annotated_base t1 b1 c1) as [Hb1 Hc1].
  destruct (annotated_base t2 b2 c2) as [Hb2 Hc2].
  rewrite H in Hb1, Hc1. split; congruence.
Qed.

Lemma in_band_iff (min_cap max_cap cap : Q) :
  Qle_bool min_cap cap && Qle_bool cap max_cap = true <->
  (min_cap <= cap)%Q /\ (cap <= max_cap)%Q.
Proof. rewrite andb_true_iff, !Qle_bool_iff. reflexivity. Qed.

Lemma small_cap_entry_str (min_cap max_cap : Q) (caps : gmap string Q)
    (t : gmap string value) (s base : string) :
  ticker_symbol t = VStr s -> normalize s = Some base ->
  small_cap_entry min_cap max_cap caps t =
    match caps !! base with
    | None => Ok None
    | Some cap =>
        if Qle_bool min_cap cap && Qle_bool cap max_cap
        then Ok (Some (annotated t base cap)) else Ok None
    end.
Proof.
  intros Hsym Hnorm. unfold small_cap_entry. rewrite Hsym. simpl.
  pose proof (normalize_nonempty s base Hnorm) as Hs.
  apply String.eqb_neq in Hs. rewrite Hs. simpl.
  rewrite Hnorm. reflexivity.
Qed.

Lemma small_cap_entry_Some (min_cap max_cap : Q) (caps : gmap string Q)
    (t t' : gmap string value) :
  small_cap_entry min_cap max_cap caps t = Ok (Some t') ->
  exists s base cap,
    ticker_symbol t = VStr s /\ normalize s = Some base /\
    caps !! base = Some cap /\
    Qle_bool min_cap cap && Qle_bool cap max_cap = true /\
    t' = annotated t base cap.
Proof.
  unfold small_cap_entry. intros H.
  destruct (truthy (ticker_symbol t)); [|discriminate].
  destruct (ticker_symbol t) as [| |?|?|s]; try discriminate.
  destruct (normalize s) as [base|] eqn:Hn; [|discriminate].
  destruct (caps !! base) as [cap|] eqn:Hc; [|discriminate].
  destruct (Qle_bool min_cap cap && Qle_bool cap max_cap) eqn:Hb;
    [|discriminate].
  injection H as <-. exists s, base, cap. repeat split; assumption.
Qed.

(** The filter returns when every symbol is a string (or is missing), and
    then holds the tickers its loop body keeps. *)
Lemma filter_small_caps_elem (min_cap max_cap : Q) (caps : gmap string Q)
    (ts : list (gmap string value)) :
  Forall (fun t => truthy (ticker_symbol t) = true ->
                   exists s, ticker_symbol t = VStr s) ts ->
  exists out,
    filter_small_caps ts min_cap max_cap caps = Ok out /\
    forall t', t' ∈ out <->
      exists t, t ∈ ts /\ small_cap_entry min_cap max_cap caps t = Ok (Some t').
Proof.
  induction 1 as [|t ts Ht _ IH]; simpl.
  - exists []. split; [reflexivity|]. intros t'. split.
    + intros Hin. inversion Hin.
    + intros (t & Hin & _). inversion Hin.
  - destruct IH as (out & Hout & Hmem). rewrite Hout.
    assert (He : exists e, small_cap_entry min_cap max_cap caps t = Ok e).
    { unfold small_cap_entry.
      destruct (truthy (ticker_symbol t)) eqn:Htr; [|eauto].
      destruct (Ht eq_refl) as [s ->].
      destruct (normalize s) as [b|]; [|eauto].
      destruct (caps !! b); [|eauto].
      destruct (_ && _); eauto. }
    destruct He as [e He]. rewrite He. simpl.
    eexists. split; [reflexivity|]. intros t'.
    destruct e as [kept|].
    + rewrite elem_of_cons, Hmem. split.
      * intros [->|(t0 & Hin & H0)].
        -- exists t. split; [left|exact He].
        -- exists t0. split; [right; exact Hin|exact H0].
      * intros (t0 & Hin & H0). apply elem_of_cons in Hin as [->|Hin].
        -- left. congruence.
        -- right. exists t0. split; assumption.
    + rewrite Hmem. split.
      * intros (t0 & Hin & H0). exists t0. split; [right; exact Hin|exact H0].
      * intros (t0 & Hin & H0). apply elem_of_cons in Hin as [->|Hin].
        -- congruence.
        -- exists t0. split; assumption.
Qed.

(** C6. When every ticker's symbol is a string, the filter returns; a
    ticker whose base has no market cap is dropped, and one whose base has
    the cap [cap] is kept, with its base and cap written into it, exactly
    when [min_cap <= cap <= max_cap].  A cap equal to either bound is
    kept; a cap one unit below [min_cap] or above [max_cap] is dropped. *)
Theorem filter_small_caps_inclusive_band (min_cap max_cap : Q)
    (caps : gmap string Q) (ts : list (gmap string value)) :
  Forall (fun t => truthy (ticker_symbol t) = true ->
                   exists s, ticker_symbol t = VStr s) ts ->
  exists out,
    filter_small_caps ts min_cap max_cap caps = Ok out /\
    forall t s base,
      t ∈ ts -> ticker_symbol t = VStr s -> normalize s = Some base ->
      match caps !! base with
      | None => forall cap, annotated t base cap ∉ out
      | Some cap =>
          (annotated t base cap ∈ out <->
             (min_cap <= cap)%Q /\ (cap <= max_cap)%Q) /\
          ((min_cap <= max_cap)%Q ->
           (cap == min_cap)%Q \/ (cap == max_cap)%Q ->
           annotated t base cap ∈ out) /\
          ((cap == min_cap - 1)%Q \/ (cap == max_cap + 1)%Q ->
           annotated t base cap ∉ out)
      end.
Proof.
  intros Hts.
  destruct (filter_small_caps_elem min_cap max_cap caps ts Hts)
    as (out & Hout & Hmem).
  exists out. split; [exact Hout|]. intros t s base Hin Hsym Hnorm.
  pose proof (small_cap_entry_str min_cap max_cap caps t s base Hsym Hnorm)
    as Hentry.
  destruct (caps !! base) as [cap|] eqn:Hcap.
  - assert (Hiff : annotated t base cap ∈ out <->
                   (min_cap <= cap)%Q /\ (cap <= max_cap)%Q).
    { rewrite Hmem, <- in_band_iff. split.
      - intros (t0 & _ & H0). apply small_cap_entry_Some in H0
          as (s0 & b0 & c0 & _ & _ & Hc0 & Hband & Heq).
        apply annotated_inj in Heq as [-> ->]. exact Hband.
      - intros Hband. exists t. split; [exact Hin|].
        rewrite Hentry, Hband. reflexivity. }
    split; [exact Hiff|]. split.
    + intros Hle [Heq|Heq]; apply Hiff; rewrite Heq; split;
        try apply Qle_refl; exact Hle.
    + intros [Heq|Heq] Hkept; apply Hiff in Hkept as [Hlo Hhi];
        rewrite Heq in *.
      * apply (Qle_not_lt _ _ Hlo). rewrite <- (Qplus_0_r min_cap) at 2.
        apply Qplus_lt_r. reflexivity.
      * apply (Qle_not_lt _ _ Hhi). rewrite <- (Qplus_0_r max_cap) at 1.
        apply Qplus_lt_r. reflexivity.
  - intros cap Hkept. apply Hmem in Hkept as (t0 & _ & H0).
    apply small_cap_entry_Some in H0
      as (s0 & b0 & c0 & _ & _ & Hc0 & _ & Heq).
    apply annotated_inj in Heq as [-> _]. congruence.
Qed.

Lemma filter_small_caps_inclusive_band_witness :
  Forall (fun t => truthy (ticker_symbol t) = true ->
                   exists s, ticker_symbol t = VStr s)
    [Examples.abc_ticker] /\
  exists out,
    filter_small_caps [Examples.abc_ticker] 5000000 250000000
      Examples.abc_caps = Ok out.
Proof.
  assert (H : Forall (fun t => truthy (ticker_symbol t) = true ->
                               exists s, ticker_symbol t = VStr s)
                [Examples.abc_ticker]).
  { repeat constructor. intros _. eexists. vm_compute. reflexivity. }
  split; [exact H|].
  destruct (filter_small_caps_inclusive_band 5000000 250000000
              Examples.abc_caps [Examples.abc_ticker] H) as (out & Hout & _).
  exists out. exact Hout.
Defined.

(** ** 24h change *)

#[local] Arguments Ascii.eqb : simpl never.

Lemma lstrip_mem (p : ascii -> bool) (c : ascii) (s : string) :
  p c = false -> PyStr.mem c (PyStr.lstrip p s) = false -> PyStr.mem c s = false.
Proof.
  intros Hc. induction s as [|d r IH]; simpl; [reflexivity|].
  destruct (p d) eqn:Hd; [|exact id].
  intros H. rewrite (IH H), orb_false_r.
  apply Ascii.eqb_neq. intros ->. congruence.
Qed.

Lemma rstrip_mem (p : ascii -> bool) (c : ascii) (s : string) :
  p c = false -> PyStr.mem c (PyStr.rstrip p s) = false -> PyStr.mem c s = false.
Proof.
  intros Hc. induction s as [|d r IH]; simpl; [reflexivity|].
  destruct (PyStr.rstrip p r) as [|e r'] eqn:Hr.
  - rewrite (IH eq_refl), orb_false_r. destruct (p d) eqn:Hd.
    + intros _. apply Ascii.eqb_neq. intros ->. congruence.
    + simpl. rewrite orb_false_r. exact id.
  - cbn [PyStr.mem]. intros H. apply orb_false_iff in H as [H1 H2].
    rewrite H1, (IH H2). reflexivity.
Qed.

(** *** A string that [float] reads holds no ["%"] *)

Lemma without_underscores_mem (prev : ascii) (s s' : string) :
  PyFloat.without_underscores prev s = Some s' ->
  PyStr.mem "%" s' = false -> PyStr.mem "%" s = false.
Proof.
  revert prev s'. induction s as [|c r IH]; intros prev s'; [reflexivity|].
  cbn [PyFloat.without_underscores PyStr.mem].
  destruct (Ascii.eqb_spec c "_") as [->|Hc].
  - destruct (PyFloat.is_digit prev); [|discriminate].
    intros H Hs'. exact (IH _ _ H Hs').
  - destruct (_ && _); [discriminate|].
    destruct (PyFloat.without_underscores c r) as [r'|] eqn:Hr; [|discriminate].
    intros [= <-]. cbn [PyStr.mem]. intros H.
    apply orb_false_iff in H as [H1 H2]. rewrite H1, (IH _ _ Hr H2).
    reflexivity.
Qed.

Lemma digit_not_percent (c : ascii) (d : N) :
  PyFloat.digit c = Some d -> Ascii.eqb "%" c = false.
Proof. intros H. apply Ascii.eqb_neq. intros <-. discriminate H. Qed.

Lemma digits_mem (s r : string) (acc n : N) (count k : nat) :
  PyFloat.digits acc count s = (n, k, r) ->
  PyStr.mem "%" r = false -> PyStr.mem "%" s = false.
Proof.
  revert acc count. induction s as [|c s IH]; intros acc count.
  - intros [= _ _ <-]. exact id.
  - cbn [PyFloat.digits]. destruct (PyFloat.digit c) as [d|] eqn:Hd.
    + intros H Hr. cbn [PyStr.mem].
      rewrite (digit_not_percent c d Hd), (IH _ _ H Hr). reflexivity.
    + intros [= _ _ <-]. exact id.
Qed.

Lemma sign_mem (s r : string) (neg : bool) :
  PyFloat.sign s = (neg, r) ->
  PyStr.mem "%" r = false -> PyStr.mem "%" s = false.
Proof.
  unfold PyFloat.sign. destruct s as [|c s]; [intros [= _ <-]; exact id|].
  destruct (Ascii.eqb_spec c "-") as [->|Hm]; [intros [= _ <-]; exact id|].
  destruct (Ascii.eqb_spec c "+") as [->|Hp]; [intros [= _ <-]; exact id|].
  intros H. assert (Hr : r = String c s).
  { destruct c as [[] [] [] [] [] [] [] []]; congruence. }
  rewrite Hr. exact id.
Qed.

Lemma exponent_no_percent (s : string) (x : Z) :
  PyFloat.exponent s = Some x -> PyStr.mem "%" s = false.
Proof.
  unfold PyFloat.exponent. destruct s as [|c s]; [reflexivity|].
  destruct (Ascii.eqb c "e" || Ascii.eqb c "E") eqn:He; [|discriminate].
  destruct (PyFloat.sign s) as [neg r] eqn:Hs.
  destruct (PyFloat.digits 0 0 r) as [[n k] rest] eqn:Hd.
  destruct k as [|k]; [discriminate|]. destruct rest; [|discriminate].
  intros _. cbn [PyStr.mem].
  rewrite (sign_mem _ _ _ Hs (digits_mem _ _ _ _ _ _ Hd eq_refl)), orb_false_r.
  apply Ascii.eqb_neq. intros <-. discriminate He.
Qed.

Lemma number_no_percent (neg : bool) (s : string) (x : PyFloat.float) :
  PyFloat.number neg s = Some x -> PyStr.mem "%" s = false.
Proof.
  unfold PyFloat.number.
  destruct (PyFloat.digits 0 0 s) as [[i ni] r] eqn:Hi.
  intros H. apply (digits_mem _ _ _ _ _ _ Hi). clear Hi.
  assert (Hgen : forall n nf r',
            match (ni + nf)%nat with
            | O => None
            | S _ => e ← PyFloat.exponent r';
                     Some (PyFloat.of_decimal neg n (e - Z.of_nat nf))
            end = Some x -> PyStr.mem "%" r' = false).
  { intros n nf r' H0. destruct (ni + nf)%nat; [discriminate|].
    destruct (PyFloat.exponent r') as [e|] eqn:He; [|discriminate].
    eapply exponent_no_percent, He. }
  destruct r as [|c r]; [reflexivity|].
  destruct (Ascii.eqb_spec c ".") as [->|Hc].
  - destruct (PyFloat.digits i 0 r) as [[n nf] r'] eqn:Hf.
    cbn [PyStr.mem]. change (Ascii.eqb "%" ".") with false. cbn [orb].
    apply (digits_mem _ _ _ _ _ _ Hf). exact (Hgen _ _ _ H).
  - apply (Hgen i O). destruct c as [[] [] [] [] [] [] [] []];
      try exact H; congruence.
Qed.

Lemma lower_mem_percent (s : string) :
  PyStr.mem "%" (PyStr.lower s) = PyStr.mem "%" s.
Proof.
  induction s as [|c r IH]; [reflexivity|].
  cbn [PyStr.lower PyStr.mem]. rewrite IH. f_equal.
  destruct c as [[] [] [] [] [] [] [] []]; reflexivity.
Qed.

Lemma inf_or_nan_no_percent (neg : bool) (s : string) (x : PyFloat.float) :
  PyFloat.inf_or_nan neg s = Some x -> PyStr.mem "%" s = false.
Proof.
  unfold PyFloat.inf_or_nan. rewrite <- lower_mem_percent.
  destruct (String.eqb_spec (PyStr.lower s) "inf") as [->|_]; [reflexivity|].
  destruct (String.eqb_spec (PyStr.lower s) "infinity") as [->|_];
    [reflexivity|].
  destruct (String.eqb_spec (PyStr.lower s) "nan") as [->|_]; [reflexivity|].
  discriminate.
Qed.

Lemma of_string_no_percent (s : string) (x : PyFloat.float) :
  PyFloat.of_string s = Ok x -> PyStr.mem "%" s = false.
Proof.
  unfold PyFloat.of_string.
  destruct (PyFloat.without_underscores "000" s) as [s1|] eqn:Hu;
    [|discriminate]. cbn [mbind option_bind].
  destruct (PyFloat.sign (PyStr.strip PyFloat.is_space s1)) as [neg r] eqn:Hs.
  intros H. apply (without_underscores_mem _ _ _ Hu).
  apply (lstrip_mem PyFloat.is_space); [reflexivity|].
  apply (rstrip_mem PyFloat.is_space); [reflexivity|].
  apply (sign_mem _ _ _ Hs).
  destruct (PyFloat.inf_or_nan neg r) as [y|] eqn:Hy.
  - eapply inf_or_nan_no_percent, Hy.
  - destruct (PyFloat.number neg r) as [y|] eqn:Hn; [|discriminate].
    eapply number_no_percent, Hn.
Qed.

Lemma rstrip_id (c : ascii) (s : string) :
  PyStr.mem c s = false -> PyStr.rstrip (Ascii.eqb c) s = s.
Proof.
  induction s as [|d r IH]; simpl; [reflexivity|].
  intros H. apply orb_false_iff in H as [Hd Hr]. rewrite (IH Hr), Hd.
  destruct r; reflexivity.
Qed.

Lemma rstrip_app_one (c : ascii) (s : string) :
  PyStr.rstrip (Ascii.eqb c) (s +:+ String c EmptyString) =
  PyStr.rstrip (Ascii.eqb c) s.
Proof.
  induction s as [|d r IH].
  - rewrite app_nil. simpl. rewrite Ascii.eqb_refl. reflexivity.
  - rewrite app_cons. simpl. rewrite IH. reflexivity.
Qed.

Lemma strip_percent_app (p : string) :
  PyStr.mem "%" p = false -> PyStr.strip (Ascii.eqb "%") (p +:+ "%") = p.
Proof.
  intros H. unfold PyStr.strip.
  assert (Hl : PyStr.lstrip (Ascii.eqb "%") (p +:+ "%") =
               PyStr.lstrip (Ascii.eqb "%") p +:+
                 (if String.eqb p EmptyString then EmptyString else "%")).
  { destruct p as [|d r]; [reflexivity|]. rewrite app_cons. simpl in *.
    apply orb_false_iff in H as [-> _]. reflexivity. }
  rewrite Hl. destruct p as [|d r]; [reflexivity|].
  cbn [String.eqb]. simpl in H. apply orb_false_iff in H as [Hd Hr].
  cbn [PyStr.lstrip]. rewrite Hd.
  rewrite (rstrip_app_one "%" (String d r)). apply rstrip_id.
  simpl. rewrite Hd, Hr. reflexivity.
Qed.

Lemma endswith_no_percent (s : string) :
  PyStr.mem "%" s = false -> PyStr.endswith s "%" = false.
Proof.
  intros H. destruct (PyStr.endswith s "%") eqn:He; [|reflexivity].
  apply endswith_spec in He as [b ->]. exfalso.
  induction b as [|d r IH].
  - discriminate H.
  - rewrite app_cons in H. simpl in H. apply orb_false_iff in H as [_ H].
    exact (IH H).
Qed.

Lemma parse_change_percent (p : string) (q : PyFloat.float) :
  PyFloat.of_string p = Ok q -> parse_change (VStr (p +:+ "%")) = Ok q.
Proof.
  intros H. unfold parse_change.
  rewrite (endswith_app p "%"), strip_percent_app; [exact H|].
  eapply of_string_no_percent, H.
Qed.

Lemma parse_change_bare_string (s : string) (x : PyFloat.float) :
  PyFloat.of_string s = Ok x -> parse_change (VStr s) = Ok (scale_change x).
Proof.
  intros H. unfold parse_change.
  rewrite endswith_no_percent by (eapply of_string_no_percent, H).
  simpl. rewrite H. reflexivity.
Qed.

(** *** Multiplying a double by 1.0 *)

Lemma iter_pos_nat {A : Type} (f : A -> A) (p : positive) (x : A) :
  SpecFloat.iter_pos f p x = Nat.iter (Pos.to_nat p) f x.
Proof.
  revert x. induction p as [p IH|p IH|]; intros x; cbn [SpecFloat.iter_pos].
  - rewrite !IH, Pos2Nat.inj_xI, <- Nat.iter_succ_r, <- Nat.iter_add.
    f_equal. lia.
  - rewrite !IH, Pos2Nat.inj_xO, <- Nat.iter_add. f_equal. lia.
  - reflexivity.
Qed.

Lemma digits2_iter_xO (n : nat) (m : positive) :
  Zpos (digits2_pos (Nat.iter n xO m)) = (Zpos (digits2_pos m) + Z.of_nat n)%Z.
Proof.
  induction n as [|n IH]; [simpl; lia|].
  rewrite Nat.iter_succ. cbn [digits2_pos]. rewrite Pos2Z.inj_succ, IH. lia.
Qed.

Lemma iter_shr_1_xO (n : nat) (m : positive) :
  Nat.iter n shr_1
    {| shr_m := Zpos (Nat.iter n xO m); shr_r := false; shr_s := false |} =
  {| shr_m := Zpos m; shr_r := false; shr_s := false |}.
Proof.
  induction n as [|n IH]; [reflexivity|].
  rewrite Nat.iter_succ_r. simpl. exact IH.
Qed.

Lemma mul_one_r (x : PyFloat.float) :
  PyFloat.is_double x = true -> PyFloat.mul x (PyFloat.of_Z 1) = x.
Proof.
  assert (H1 : PyFloat.of_Z 1 = S754_finite false 4503599627370496 (-52))
    by (vm_compute; reflexivity).
  rewrite H1. destruct x as [s|s| |s m e]; intros Hv.
  - destruct s; reflexivity.
  - destruct s; reflexivity.
  - reflexivity.
  - unfold PyFloat.is_double, valid_binary, bounded, canonical_mantissa in Hv.
    apply andb_true_iff in Hv as [Hc Hb]. apply Z.eqb_eq in Hc.
    unfold PyFloat.mul. cbn [SFmul]. rewrite xorb_false_r.
    replace (m * 4503599627370496)%positive with (Nat.iter 52 xO m)
      by (rewrite Pos.mul_comm; reflexivity).
    unfold binary_round_aux.
    assert (Hd : Zdigits2 (Zpos (Nat.iter 52 xO m)) =
                 (Zpos (digits2_pos m) + 52)%Z).
    { cbn [Zdigits2]. rewrite digits2_iter_xO. reflexivity. }
    unfold shr_fexp at 1. rewrite Hd.
    replace (Z.pos (digits2_pos m) + 52 + (e + -52))%Z
      with (Z.pos (digits2_pos m) + e)%Z by lia.
    rewrite Hc. replace (e - (e + -52))%Z with 52%Z by lia.
    cbn [shr shr_record_of_loc]. rewrite iter_pos_nat.
    change (Pos.to_nat 52) with 52%nat. rewrite iter_shr_1_xO.
    cbn [shr_m loc_of_shr_record round_nearest_even].
    replace (e + -52 + 52)%Z with e by lia.
    unfold shr_fexp. cbn [Zdigits2]. rewrite Hc, Z.sub_diag.
    cbn [shr shr_record_of_loc shr_m]. rewrite Hb. reflexivity.
Qed.

Lemma scale_change_spec (x : PyFloat.float) :
  (PyFloat.ltb (PyFloat.abs x) (PyFloat.of_Z 2) = true ->
   scale_change x = PyFloat.mul x (PyFloat.of_Z 100)) /\
  (PyFloat.is_double x = true ->
   PyFloat.ltb (PyFloat.abs x) (PyFloat.of_Z 2) = false ->
   scale_change x = x).
Proof.
  unfold scale_change. split.
  - intros ->. reflexivity.
  - intros Hv ->. apply mul_one_r, Hv.
Qed.

(** *** The floats that are read are doubles *)

Lemma fexp_mono (x y : Z) :
  (x <= y)%Z ->
  (fexp PyFloat.prec PyFloat.emax x <= fexp PyFloat.prec PyFloat.emax y)%Z.
Proof. unfold fexp, emin, PyFloat.prec, PyFloat.emax. lia. Qed.

Lemma fexp_ge_emin (x : Z) :
  (emin PyFloat.prec PyFloat.emax <= fexp PyFloat.prec PyFloat.emax x)%Z.
Proof. unfold fexp, emin, PyFloat.prec, PyFloat.emax. lia. Qed.

Lemma fexp_fixed (x e : Z) :
  (x <= fexp PyFloat.prec PyFloat.emax x)%Z ->
  fexp PyFloat.prec PyFloat.emax x = emin PyFloat.prec PyFloat.emax.
Proof. unfold fexp, emin, PyFloat.prec, PyFloat.emax. lia. Qed.

Lemma Zdigits2_nonneg (m : Z) : (0 <= Zdigits2 m)%Z.
Proof. destruct m; simpl; lia. Qed.

Lemma Zdigits2_pos (p : positive) : (1 <= Zdigits2 (Zpos p))%Z.
Proof. simpl. lia. Qed.

Lemma shr_1_digits (r : shr_record) :
  Zdigits2 (shr_m (shr_1 r)) = Z.max 0 (Zdigits2 (shr_m r) - 1).
Proof.
  destruct r as [m r s]. destruct m as [|[p|p|]|[p|p|]];
    cbn [shr_1 shr_m Zdigits2 digits2_pos]; rewrite ?Pos2Z.inj_succ; lia.
Qed.

Lemma shr_1_nonneg (r : shr_record) :
  (0 <= shr_m r)%Z -> (0 <= shr_m (shr_1 r))%Z.
Proof.
  destruct r as [m r s]. destruct m as [|[p|p|]|[p|p|]];
    cbn [shr_1 shr_m]; lia.
Qed.

Lemma iter_shr_1_digits (n : nat) (r : shr_record) :
  Zdigits2 (shr_m (Nat.iter n shr_1 r)) =
  Z.max 0 (Zdigits2 (shr_m r) - Z.of_nat n).
Proof.
  induction n as [|n IH].
  - simpl. pose proof (Zdigits2_nonneg (shr_m r)). lia.
  - rewrite Nat.iter_succ, shr_1_digits, IH. lia.
Qed.

Lemma iter_shr_1_nonneg (n : nat) (r : shr_record) :
  (0 <= shr_m r)%Z -> (0 <= shr_m (Nat.iter n shr_1 r))%Z.
Proof.
  intros H. induction n as [|n IH]; [exact H|].
  rewrite Nat.iter_succ. apply shr_1_nonneg, IH.
Qed.

Lemma shr_m_of_loc (m : Z) (l : location) :
  shr_m (shr_record_of_loc m l) = m.
Proof. destruct l as [|[]]; reflexivity. Qed.

(** One alignment of a mantissa on its exponent: what [shr_fexp] returns
    is canonical, if the mantissa had digits enough. *)
Lemma shr_fexp_canonical (m e : Z) (l : location) :
  (0 <= m)%Z ->
  (e <= fexp PyFloat.prec PyFloat.emax (Zdigits2 m + e))%Z ->
  let r := shr_fexp PyFloat.prec PyFloat.emax m e l in
  (0 <= shr_m (fst r))%Z /\
  ((0 < Zdigits2 (shr_m (fst r)))%Z /\
   fexp PyFloat.prec PyFloat.emax (Zdigits2 (shr_m (fst r)) + snd r) = snd r
   \/
   Zdigits2 (shr_m (fst r)) = 0%Z /\
   snd r = emin PyFloat.prec PyFloat.emax).
Proof.
  intros Hm He r. subst r. unfold shr_fexp, shr.
  set (d := Zdigits2 m) in *.
  set (f := fexp PyFloat.prec PyFloat.emax (d + e)) in *.
  pose proof (Zdigits2_nonneg m) as Hd. fold d in Hd.
  destruct (f - e)%Z as [|p|p] eqn:Hn; cbn [fst snd].
  - rewrite shr_m_of_loc. fold d. split; [exact Hm|].
    assert (f = e) by lia.
    destruct (Z.eq_dec d 0%Z) as [Hd0|Hd0].
    + right. split; [exact Hd0|]. subst f. rewrite <- H at 1.
      apply (fexp_fixed _ e). lia.
    + left. split; [lia|]. subst f. lia.
  - rewrite iter_pos_nat. split.
    { apply iter_shr_1_nonneg. rewrite shr_m_of_loc. exact Hm. }
    rewrite iter_shr_1_digits, shr_m_of_loc. fold d.
    rewrite positive_nat_Z.
    replace (e + Zpos p)%Z with f by lia.
    destruct (Z_lt_le_dec (Zpos p) d) as [Hlt|Hge].
    + left. split; [lia|].
      replace (Z.max 0 (d - Zpos p) + f)%Z with (d + e)%Z by lia.
      reflexivity.
    + right. split; [lia|]. apply (fexp_fixed _ e). fold f. lia.
  - lia.
Qed.

Lemma digits2_succ (p : positive) :
  (digits2_pos p <= digits2_pos (Pos.succ p))%positive.
Proof.
  induction p as [p IH|p IH|]; cbn [Pos.succ digits2_pos].
  - apply -> Pos.succ_le_mono. exact IH.
  - apply Pos.le_refl.
  - discriminate.
Qed.

Lemma round_nearest_even_digits (m : Z) (l : location) :
  (0 <= m)%Z ->
  (0 <= round_nearest_even m l)%Z /\
  (Zdigits2 m <= Zdigits2 (round_nearest_even m l))%Z.
Proof.
  intros Hm.
  assert (H1 : (0 <= m + 1)%Z /\ (Zdigits2 m <= Zdigits2 (m + 1))%Z).
  { split; [lia|]. destruct m as [|p|p]; [simpl; lia| |lia].
    replace (Zpos p + 1)%Z with (Zpos (Pos.succ p)) by lia.
    cbn [Zdigits2]. pose proof (digits2_succ p). lia. }
  unfold round_nearest_even. destruct l as [|[]]; try (split; [exact Hm|lia]).
  - destruct (Z.even m); [split; [exact Hm|lia]|exact H1].
  - exact H1.
Qed.

(** Rounding gives a double, if the mantissa had digits enough. *)
Lemma binary_round_aux_is_double (sx : bool) (mx ex : Z) (lx : location) :
  (0 <= mx)%Z ->
  (ex <= fexp PyFloat.prec PyFloat.emax (Zdigits2 mx + ex))%Z ->
  PyFloat.is_double (binary_round_aux PyFloat.prec PyFloat.emax sx mx ex lx)
    = true.
Proof.
  intros Hm He. unfold binary_round_aux.
  pose proof (shr_fexp_canonical mx ex lx Hm He) as H1. cbv zeta in H1.
  destruct (shr_fexp PyFloat.prec PyFloat.emax mx ex lx) as [mrs' e'].
  cbn [fst snd] in H1. destruct H1 as [Hm' Hc'].
  destruct (round_nearest_even_digits (shr_m mrs') (loc_of_shr_record mrs') Hm')
    as [Hm'' Hd''].
  set (m'' := round_nearest_even (shr_m mrs') (loc_of_shr_record mrs')) in *.
  assert (He' : (e' <= fexp PyFloat.prec PyFloat.emax (Zdigits2 m'' + e'))%Z).
  { destruct Hc' as [[_ Hc]|[_ ->]]; [|apply fexp_ge_emin].
    rewrite <- Hc at 1. apply fexp_mono. lia. }
  pose proof (shr_fexp_canonical m'' e' loc_Exact Hm'' He') as H2.
  cbv zeta in H2.
  destruct (shr_fexp PyFloat.prec PyFloat.emax m'' e' loc_Exact) as [mrs'' e''].
  cbn [fst snd] in H2. destruct H2 as [_ Hc''].
  destruct (shr_m mrs'') as [|m|m] eqn:Hs; [reflexivity| |reflexivity].
  destruct (e'' <=? PyFloat.emax - PyFloat.prec)%Z eqn:Hb; [|reflexivity].
  cbn [PyFloat.is_double valid_binary]. unfold PyFloat.is_double, valid_binary,
    bounded, canonical_mantissa.
  rewrite Hb, andb_true_r. apply Z.eqb_eq.
  destruct Hc'' as [[_ Hc]|[Hz _]]; [exact Hc|].
  simpl in Hz. lia.
Qed.

Lemma digits2_bounds (p : positive) :
  (2 ^ (Zpos (digits2_pos p) - 1) <= Zpos p < 2 ^ Zpos (digits2_pos p))%Z.
Proof.
  induction p as [p IH|p IH|]; cbn [digits2_pos];
    [rewrite Pos2Z.inj_succ, (Pos2Z.inj_xI p)
    |rewrite Pos2Z.inj_succ, (Pos2Z.inj_xO p)
    |simpl; lia];
    replace (Z.succ (Zpos (digits2_pos p)) - 1)%Z
      with (Z.succ (Zpos (digits2_pos p) - 1)) by lia;
    rewrite !Z.pow_succ_r by lia; lia.
Qed.

Lemma Zdigits2_lower (m k : Z) :
  (0 <= k)%Z -> (2 ^ k <= m)%Z -> (k + 1 <= Zdigits2 m)%Z.
Proof.
  intros Hk Hm. assert (0 < 2 ^ k)%Z by (apply Z.pow_pos_nonneg; lia).
  destruct m as [|p|p]; try lia. cbn [Zdigits2].
  destruct (digits2_bounds p) as [_ Hu].
  assert (Hlt : (2 ^ k < 2 ^ Zpos (digits2_pos p))%Z) by lia.
  apply Z.pow_lt_mono_r_iff in Hlt; lia.
Qed.

Lemma digits2_Pos_iter_xO (m d : positive) :
  Zpos (digits2_pos (Pos.iter xO m d)) = (Zpos (digits2_pos m) + Zpos d)%Z.
Proof.
  induction d as [|d IH] using Pos.peano_ind.
  - cbn [Pos.iter digits2_pos]. rewrite Pos2Z.inj_succ. lia.
  - rewrite Pos.iter_succ. cbn [digits2_pos].
    rewrite !Pos2Z.inj_succ, IH. lia.
Qed.

Lemma binary_round_is_double (sx : bool) (mx : positive) (ex : Z) :
  PyFloat.is_double (binary_round PyFloat.prec PyFloat.emax sx mx ex) = true.
Proof.
  unfold binary_round, shl_align.
  set (f := fexp PyFloat.prec PyFloat.emax (Zpos (digits2_pos mx) + ex)).
  destruct (f - ex)%Z as [|d|d] eqn:Hd;
    apply binary_round_aux_is_double; try lia; cbn [Zdigits2].
  - fold f. lia.
  - fold f. lia.
  - rewrite digits2_Pos_iter_xO.
    replace (Zpos (digits2_pos mx) + Zpos d + f)%Z
      with (Zpos (digits2_pos mx) + ex)%Z by lia.
    fold f. lia.
Qed.

Lemma of_Z_is_double (z : Z) : PyFloat.is_double (PyFloat.of_Z z) = true.
Proof.
  unfold PyFloat.of_Z, binary_normalize.
  destruct z; [reflexivity| |]; apply binary_round_is_double.
Qed.

(** The quotient that [SFdiv] rounds has digits enough. *)
Lemma SFdiv_core_binary_digits (m1 m2 : positive) (e1 e2 : Z) :
  let '(q, e, _) :=
    SFdiv_core_binary PyFloat.prec PyFloat.emax (Zpos m1) e1 (Zpos m2) e2 in
  (0 <= q)%Z /\ (e <= fexp PyFloat.prec PyFloat.emax (Zdigits2 q + e))%Z.
Proof.
  unfold SFdiv_core_binary. cbn [Zdigits2].
  set (d1 := Zpos (digits2_pos m1)). set (d2 := Zpos (digits2_pos m2)).
  set (E := (d1 + e1 - (d2 + e2))%Z).
  set (e := Z.min (fexp PyFloat.prec PyFloat.emax E) (e1 - e2)).
  set (s := (e1 - e2 - e)%Z).
  set (m' := match s with
             | Z0 => Zpos m1
             | Zpos _ => Z.shiftl (Zpos m1) s
             | Zneg _ => Z0
             end).
  assert (Hs : (0 <= s)%Z) by (unfold s, e; lia).
  assert (Hm' : m' = (Zpos m1 * 2 ^ s)%Z).
  { unfold m'. destruct s as [|p|p] eqn:Hp; [simpl; lia| |lia].
    apply Z.shiftl_mul_pow2. lia. }
  pose proof (Z.div_eucl_eq m' (Zpos m2) ltac:(lia)) as Hdiv.
  pose proof (Z.mod_pos_bound m' (Zpos m2) ltac:(lia)) as Hmod.
  unfold Z.modulo in Hmod.
  destruct (Z.div_eucl m' (Zpos m2)) as [q r] eqn:Hqr.
  assert (H2s : (0 < 2 ^ s)%Z) by (apply Z.pow_pos_nonneg; lia).
  assert (Hq : (0 <= q)%Z) by nia.
  split; [exact Hq|].
  apply Z.le_trans with (fexp PyFloat.prec PyFloat.emax E);
    [unfold e; lia|].
  apply fexp_mono.
  destruct (Z_le_gt_dec (d1 + s - d2) 0) as [Hsmall|Hbig].
  { pose proof (Zdigits2_nonneg q). unfold E, s in *. lia. }
  assert (Hk : (d1 + s - d2 - 1 + 1 <= Zdigits2 q)%Z).
  { apply Zdigits2_lower; [lia|].
    destruct (digits2_bounds m1) as [Hl1 _]. fold d1 in Hl1.
    destruct (digits2_bounds m2) as [_ Hu2]. fold d2 in Hu2.
    assert (Hpow : (2 ^ (d1 + s - d2 - 1) * 2 ^ d2 = 2 ^ (d1 - 1) * 2 ^ s)%Z).
    { rewrite <- !Z.pow_add_r by lia. f_equal. lia. }
    assert (H2k : (0 < 2 ^ (d1 + s - d2 - 1))%Z)
      by (apply Z.pow_pos_nonneg; lia).
    assert (Hle : (2 ^ (d1 + s - d2 - 1) * Zpos m2 <= m')%Z) by nia.
    nia. }
  unfold E, s in *. lia.
Qed.

Lemma SFdiv_finite_is_double (s1 s2 : bool) (m1 m2 : positive) (e1 e2 : Z) :
  PyFloat.is_double
    (SFdiv PyFloat.prec PyFloat.emax (S754_finite s1 m1 e1)
       (S754_finite s2 m2 e2)) = true.
Proof.
  cbn [SFdiv]. pose proof (SFdiv_core_binary_digits m1 m2 e1 e2) as H.
  destruct (SFdiv_core_binary PyFloat.prec PyFloat.emax (Zpos m1) e1
              (Zpos m2) e2) as [[q e] l].
  destruct H as [Hq He]. apply binary_round_aux_is_double; assumption.
Qed.

Lemma of_decimal_is_double (neg : bool) (n : N) (e : Z) :
  PyFloat.is_double (PyFloat.of_decimal neg n e) = true.
Proof.
  unfold PyFloat.of_decimal. destruct n as [|m]; [reflexivity|].
  destruct e as [|k|k];
    [apply binary_round_is_double|apply binary_round_is_double
    |apply SFdiv_finite_is_double].
Qed.

Lemma of_number_is_double (q : Q) (x : PyFloat.float) :
  PyFloat.of_number q = Ok x -> PyFloat.is_double x = true.
Proof.
  unfold PyFloat.of_number.
  destruct (Qnum q) as [|n|n]; [intros [= <-]; reflexivity| |];
    (match goal with
     | |- match ?d with _ => _ end = _ -> _ =>
         pose proof (SFdiv_finite_is_double (Z.pos n <? 0)%Z false n (Qden q) 0 0) as H1;
         pose proof (SFdiv_finite_is_double (Z.neg n <? 0)%Z false n (Qden q) 0 0) as H2;
         destruct d eqn:Hd; intros [= <-]; first [exact H1|exact H2|reflexivity]
     end).
Qed.

Lemma of_string_is_double (s : string) (x : PyFloat.float) :
  PyFloat.of_string s = Ok x -> PyFloat.is_double x = true.
Proof.
  unfold PyFloat.of_string.
  destruct (PyFloat.without_underscores "000" s) as [s1|]; [|discriminate].
  cbn [mbind option_bind].
  destruct (PyFloat.sign (PyStr.strip PyFloat.is_space s1)) as [neg r].
  unfold PyFloat.inf_or_nan, PyFloat.number.
  destruct (_ || _); [intros [= <-]; reflexivity|].
  destruct (String.eqb _ "nan"); [intros [= <-]; reflexivity|].
  destruct (PyFloat.digits 0 0 r) as [[i ni] r1].
  assert (Hgen : forall n nf r',
            match
              match (ni + nf)%nat with
              | O => None
              | S _ => e ← PyFloat.exponent r';
                       Some (PyFloat.of_decimal neg n (e - Z.of_nat nf))
              end
            with
            | Some y => Ok y
            | None => Raise ValueError
            end = Ok x -> PyFloat.is_double x = true).
  { intros n nf r' H. destruct (ni + nf)%nat; [discriminate|].
    destruct (PyFloat.exponent r') as [e|]; [|discriminate].
    injection H as <-. apply of_decimal_is_double. }
  destruct r1 as [|c r1]; [apply (Hgen i O)|].
  destruct (Ascii.eqb_spec c ".") as [->|Hc].
  - destruct (PyFloat.digits i 0 r1) as [[n nf] r']. apply Hgen.
  - intros H. apply (Hgen i O (String c r1)).
    destruct c as [[] [] [] [] [] [] [] []]; try exact H; congruence.
Qed.

(** The product of two doubles is a double. *)
Lemma mul_is_double (x y : PyFloat.float) :
  PyFloat.is_double x = true -> PyFloat.is_double y = true ->
  PyFloat.is_double (PyFloat.mul x y) = true.
Proof.
  destruct x as [sx|sx| |sx mx ex], y as [sy|sy| |sy my ey];
    try reflexivity.
  unfold PyFloat.is_double at 1 2, valid_binary, bounded, canonical_mantissa.
  intros Hx Hy. apply andb_true_iff in Hx as [Hx _], Hy as [Hy _].
  apply Z.eqb_eq in Hx, Hy.
  unfold PyFloat.mul. cbn [SFmul]. apply binary_round_aux_is_double; [lia|].
  assert (Hd : (Zpos (digits2_pos mx) + Zpos (digits2_pos my) - 2 + 1
                <= Zdigits2 (Zpos (mx * my)))%Z).
  { apply Zdigits2_lower; [lia|].
    destruct (digits2_bounds mx) as [Hlx _].
    destruct (digits2_bounds my) as [Hly _].
    replace (Zpos (digits2_pos mx) + Zpos (digits2_pos my) - 2)%Z
      with ((Zpos (digits2_pos mx) - 1) + (Zpos (digits2_pos my) - 1))%Z
      by lia.
    rewrite Z.pow_add_r, Pos2Z.inj_mul by lia.
    apply Z.mul_le_mono_nonneg; try assumption;
      apply Z.pow_nonneg; lia. }
  apply Z.le_trans with
    (fexp PyFloat.prec PyFloat.emax
       (Zpos (digits2_pos mx) + Zpos (digits2_pos my) - 1 + (ex + ey)));
    [|apply fexp_mono; lia].
  revert Hx Hy. unfold fexp, emin, PyFloat.prec, PyFloat.emax.
  generalize (Zpos (digits2_pos mx)) (Zpos (digits2_pos my))
    (Pos2Z.is_pos (digits2_pos mx)) (Pos2Z.is_pos (digits2_pos my)).
  intros dx dy Hdx Hdy Hx Hy. lia.
Qed.

Lemma scale_change_is_double (x : PyFloat.float) :
  PyFloat.is_double x = true -> PyFloat.is_double (scale_change x) = true.
Proof.
  intros H. unfold scale_change.
  apply mul_is_double; [exact H|]. destruct (PyFloat.ltb _ _); reflexivity.
Qed.

Lemma to_float_is_double (v : value) (x : PyFloat.float) :
  (forall y, v = VFloat y -> PyFloat.is_double y = true) ->
  to_float v = Ok x -> PyFloat.is_double x = true.
Proof.
  intros Hv. destruct v as [|b|q|y|s]; simpl.
  - discriminate.
  - intros [= <-]. apply of_Z_is_double.
  - apply of_number_is_double.
  - intros [= <-]. apply Hv. reflexivity.
  - apply of_string_is_double.
Qed.

Lemma parse_change_is_double (v : value) (x : PyFloat.float) :
  (forall y, v = VFloat y -> PyFloat.is_double y = true) ->
  parse_change v = Ok x -> PyFloat.is_double x = true.
Proof.
  intros Hv.
  assert (Hgen : (y ← to_float v; Ok (scale_change y)) = Ok x ->
                 PyFloat.is_double x = true).
  { destruct (to_float v) as [y|] eqn:Hy; [|discriminate].
    intros [= <-]. apply scale_change_is_double.
    exact (to_float_is_double v y Hv Hy). }
  destruct v as [|b|q|y|s]; try exact Hgen.
  unfold parse_change. destruct (PyStr.endswith s "%"); [|exact Hgen].
  apply of_string_is_double.
Qed.

Lemma scale_change_cases (x : PyFloat.float) :
  PyFloat.is_double x = true ->
  scale_change x =
    if PyFloat.ltb (PyFloat.abs x) (PyFloat.of_Z 2)
    then PyFloat.mul x (PyFloat.of_Z 100) else x.
Proof.
  intros Hv. destruct (scale_change_spec x) as [H1 H2].
  destruct (PyFloat.ltb (PyFloat.abs x) (PyFloat.of_Z 2)) eqn:Hb.
  - apply H1. reflexivity.
  - apply H2; [exact Hv|reflexivity].
Qed.

(** *** The change written into a ticker, and the ceiling *)

Lemma filter_small_caps_kept (min_cap max_cap : Q) (caps : gmap string Q)
    (ts out : list (gmap string value)) (t t' : gmap string value) :
  filter_small_caps ts min_cap max_cap caps = Ok out ->
  t ∈ ts -> small_cap_entry min_cap max_cap caps t = Ok (Some t') ->
  t' ∈ out.
Proof.
  revert out. induction ts as [|t0 ts IH]; intros out Hout Hin Hentry.
  - inversion Hin.
  - simpl in Hout.
    destruct (small_cap_entry min_cap max_cap caps t0) as [e|] eqn:He;
      [|discriminate]. simpl in Hout.
    destruct (filter_small_caps ts min_cap max_cap caps) as [rest|] eqn:Hr;
      [|discriminate]. simpl in Hout. injection Hout as <-.
    apply elem_of_cons in Hin as [->|Hin].
    + rewrite Hentry in He. injection He as <-. left.
    + specialize (IH rest eq_refl Hin Hentry).
      destruct e; [right|]; exact IH.
Qed.

Lemma under_ceiling_keeps (ceiling : PyFloat.float)
    (small out : list (gmap string value)) (t : gmap string value) :
  under_ceiling ceiling small = Ok out ->
  t ∈ small -> dict_get t "_24h_change_pct" = VNone -> t ∈ out.
Proof.
  revert out. induction small as [|t0 small IH]; intros out Hout Hin Hnone.
  - inversion Hin.
  - simpl in Hout.
    destruct (over_ceiling ceiling (dict_get t0 "_24h_change_pct"))
      as [over|] eqn:Ho; [|discriminate]. simpl in Hout.
    destruct (under_ceiling ceiling small) as [rest|] eqn:Hr; [|discriminate].
    simpl in Hout. injection Hout as <-.
    apply elem_of_cons in Hin as [->|Hin].
    + rewrite Hnone in Ho. injection Ho as <-. left.
    + specialize (IH rest eq_refl Hin Hnone). destruct over; [|right]; exact IH.
Qed.

Lemma change_of_app (t : gmap string value) (before keys : list string) :
  Forall (unparsed t) before ->
  change_of t (before ++ keys)%list = change_of t keys.
Proof.
  induction 1 as [|key before Hkey _ IH]; simpl; [reflexivity|].
  destruct Hkey as [->|(v & e & -> & ->)]; exact IH.
Qed.

Lemma change_of_unparsed (t : gmap string value) (keys : list string) :
  Forall (unparsed t) keys -> change_of t keys = None.
Proof.
  intros H. rewrite <- (app_nil_r keys). rewrite (change_of_app t keys [] H).
  reflexivity.
Qed.

Lemma with_change_lookup (t : gmap string value) :
  with_change t !! "_24h_change_pct" =
    Some match change_of t change_keys with
         | Some c => VFloat c
         | None => VNone
         end.
Proof. unfold with_change. apply lookup_insert_eq. Qed.

(** C5. The 24h change of a ticker is read from the first of its change
    fields that is present and parses, and written into the ticker.  A
    string that ends in ["%"] gives the number written before the ["%"];
    a bare number (a float, an [int], or a string that writes one) is
    multiplied by 100 when its absolute value is below 2 and is left as
    it is otherwise (every number read is a double, and a double times
    1.0 is that double); and a ticker none of whose change fields is present
    and parses has no change ([None]) and is never taken out by the
    ceiling on the 24h gain: if it passes the market-cap filter, it is
    among the symbols picked.  So a ticker with ["1.23%"] gets the change
    1.23, one with [0.0123] gets 1.23 and one with [5.0] gets 5.0; the
    arithmetic is that of doubles (["0.07"] gives 7.000000000000001), and
    a change that is written with an exponent is read as a number
    (["1e2"] is 100, above the ceiling of 30), while a field that is no
    number leaves the ticker in. *)
Theorem change_is_normalized_and_unknown_is_kept :
  (forall (p : string) (q : PyFloat.float),
     PyFloat.of_string p = Ok q -> parse_change (VStr (p +:+ "%")) = Ok q) /\
  (forall x : PyFloat.float, parse_change (VFloat x) = Ok (scale_change x)) /\
  (forall (n : Q) (x : PyFloat.float),
     PyFloat.of_number n = Ok x -> parse_change (VNum n) = Ok (scale_change x)) /\
  (forall (s : string) (x : PyFloat.float),
     PyFloat.of_string s = Ok x -> parse_change (VStr s) = Ok (scale_change x)) /\
  (forall x : PyFloat.float,
     (PyFloat.ltb (PyFloat.abs x) (PyFloat.of_Z 2) = true ->
      scale_change x = PyFloat.mul x (PyFloat.of_Z 100)) /\
     (PyFloat.is_double x = true ->
      PyFloat.ltb (PyFloat.abs x) (PyFloat.of_Z 2) = false ->
      scale_change x = x)) /\
  (forall (t : gmap string value) (before after : list string)
          (key : string) (v : value) (x : PyFloat.float),
     change_keys = (before ++ key :: after)%list ->
     Forall (unparsed t) before ->
     t !! key = Some v -> parse_change v = Ok x ->
     change_attached t = VFloat x) /\
  (forall t : gmap string value,
     Forall (unparsed t) change_keys -> change_attached t = VNone) /\
  (forall (settings : Settings) (tickers out : list (gmap string value))
          (cg_caps : gmap string Q) (t t' : gmap string value),
     pick_symbols settings tickers cg_caps = Ok out ->
     t ∈ tickers ->
     Forall (unparsed t) change_keys ->
     small_cap_entry (min_market_cap settings) (max_market_cap settings)
       cg_caps (with_change t) = Ok (Some t') ->
     t' ∈ out) /\
  (forall (v : value) (x : PyFloat.float),
     (forall y, v = VFloat y -> PyFloat.is_double y = true) ->
     parse_change v = Ok x -> PyFloat.is_double x = true) /\
  (forall (s : string) (x : PyFloat.float),
     PyFloat.of_string s = Ok x ->
     parse_change (VStr s) =
       Ok (if PyFloat.ltb (PyFloat.abs x) (PyFloat.of_Z 2)
           then PyFloat.mul x (PyFloat.of_Z 100) else x)) /\
  (forall (n : Q) (x : PyFloat.float),
     PyFloat.of_number n = Ok x ->
     parse_change (VNum n) =
       Ok (if PyFloat.ltb (PyFloat.abs x) (PyFloat.of_Z 2)
           then PyFloat.mul x (PyFloat.of_Z 100) else x)) /\
  (forall s : string,
     PyStr.endswith s "%" = true ->
     parse_change (VStr s) = PyFloat.of_string (PyStr.strip (Ascii.eqb "%") s)) /\
  (PyFloat.of_string "1.23" = Ok Examples.f1_23 /\
   PyFloat.of_string "0.0123" = Ok Examples.f0_0123 /\
   PyFloat.of_string "5.0" = Ok Examples.f5 /\
   PyFloat.of_string "0.07" = Ok Examples.f0_07 /\
   PyFloat.of_string "7.000000000000001" = Ok Examples.f7_000000000000001 /\
   PyFloat.of_string "1e2" = Ok Examples.f100) /\
  (change_attached (Examples.abc_with "priceChgPct" (VStr "1.23%"))
     = VFloat Examples.f1_23 /\
   change_attached (Examples.abc_with "priceChgPct" (VFloat Examples.f0_0123))
     = VFloat Examples.f1_23 /\
   change_attached (Examples.abc_with "changePercent" (VStr "0.0123"))
     = VFloat Examples.f1_23 /\
   change_attached (Examples.abc_with "chgPct" (VFloat Examples.f5))
     = VFloat Examples.f5 /\
   change_attached (Examples.abc_with "priceChgPct" (VNum 5))
     = VFloat Examples.f5 /\
   change_attached (Examples.abc_with "priceChgPct" (VStr "0.07"))
     = VFloat Examples.f7_000000000000001 /\
   Examples.f7_000000000000001 <> Examples.f7 /\
   change_attached (Examples.abc_with "priceChgPct" (VStr "1e2"))
     = VFloat Examples.f100 /\
   change_attached (Examples.abc_with "priceChgPct" (VStr "n/a")) = VNone /\
   change_attached Examples.abc_ticker = VNone) /\
  (pick_symbols default_settings
     [Examples.abc_with "priceChgPct" (VStr "1e2")] Examples.abc_caps = Ok [] /\
   pick_symbols default_settings
     [Examples.abc_with "priceChgPct" (VStr "1.23%")] Examples.abc_caps
     = Ok [annotated (with_change
                        (Examples.abc_with "priceChgPct" (VStr "1.23%")))
             "ABC" 5000000] /\
   pick_symbols default_settings
     [Examples.abc_with "priceChgPct" (VStr "n/a")] Examples.abc_caps
     = Ok [annotated (with_change
                        (Examples.abc_with "priceChgPct" (VStr "n/a")))
             "ABC" 5000000] /\
   pick_symbols default_settings [Examples.abc_ticker] Examples.abc_caps
     = Ok [annotated (with_change Examples.abc_ticker) "ABC" 5000000]).
Proof.
  split; [exact parse_change_percent|].
  split; [reflexivity|].
  split; [intros n x H; simpl; rewrite H; reflexivity|].
  split; [exact parse_change_bare_string|].
  split; [exact scale_change_spec|].
  split.
  { intros t before after key v x Hkeys Hbefore Hv Hx.
    unfold change_attached, dict_get. rewrite with_change_lookup, Hkeys.
    rewrite (change_of_app t before (key :: after) Hbefore).
    simpl. rewrite Hv, Hx. reflexivity. }
  split.
  { intros t Hkeys. unfold change_attached, dict_get.
    rewrite with_change_lookup, (change_of_unparsed t change_keys Hkeys).
    reflexivity. }
  split.
  { intros settings tickers out cg_caps t t' Hpick Hin Hkeys Hentry.
    unfold pick_symbols in Hpick.
    destruct (filter_small_caps (with_change <$> tickers) _ _ cg_caps)
      as [small|] eqn:Hsmall; [|discriminate]. simpl in Hpick.
    apply (under_ceiling_keeps _ small out t' Hpick).
    - eapply filter_small_caps_kept; [exact Hsmall| |exact Hentry].
      apply list_elem_of_fmap. exists t. split; [reflexivity|exact Hin].
    - apply small_cap_entry_Some in Hentry
        as (s & base & cap & _ & _ & _ & _ & ->).
      unfold dict_get, annotated.
      rewrite !lookup_insert_ne by discriminate.
      rewrite with_change_lookup, (change_of_unparsed t change_keys Hkeys).
      reflexivity. }
  split; [exact parse_change_is_double|].
  split.
  { intros s x H. rewrite (parse_change_bare_string s x H). f_equal.
    apply scale_change_cases, (of_string_is_double s x H). }
  split.
  { intros n x H. simpl. rewrite H. simpl. f_equal.
    apply scale_change_cases, (of_number_is_double n x H). }
  split; [intros s H; unfold parse_change; rewrite H; reflexivity|].
  split; [repeat split; vm_compute; reflexivity|].
  split; [|repeat split; vm_compute; reflexivity].
  repeat split; try (vm_compute; reflexivity).
  discriminate.
Qed.

Lemma change_is_normalized_and_unknown_is_kept_witness :
  let t := Examples.abc_with "changePercent" (VStr "0.0123") in
  let u := Examples.abc_with "priceChgPct" (VStr "n/a") in
  let kept := annotated (with_change u) "ABC" 5000000 in
  (change_keys = (["priceChgPct"] ++ "changePercent" :: ["chgPct"])%list /\
   change_attached t = VFloat Examples.f1_23) /\
  (PyFloat.is_double Examples.f5 = true /\
   scale_change Examples.f5 = Examples.f5) /\
  (pick_symbols default_settings [u] Examples.abc_caps = Ok [kept] /\
   kept ∈ [kept]).
Proof.
  intros t u kept. split; [|split].
  - split; [reflexivity|].
    refine (proj1 (proj2 (proj2 (proj2 (proj2 (proj2
              change_is_normalized_and_unknown_is_kept)))))
              t ["priceChgPct"] ["chgPct"] "changePercent" (VStr "0.0123")
              Examples.f1_23 eq_refl _ _ _).
    + constructor; [left; vm_compute; reflexivity|constructor].
    + vm_compute. reflexivity.
    + vm_compute. reflexivity.
  - split; [reflexivity|].
    refine (proj2 (proj1 (proj2 (proj2 (proj2 (proj2
              change_is_normalized_and_unknown_is_kept))))
              Examples.f5) _ _); reflexivity.
  - assert (Hpick : pick_symbols default_settings [u] Examples.abc_caps
                    = Ok [kept]) by (vm_compute; reflexivity).
    split; [exact Hpick|].
    refine (proj1 (proj2 (proj2 (proj2 (proj2 (proj2 (proj2 (proj2
              change_is_normalized_and_unknown_is_kept)))))))
              default_settings [u] [kept] Examples.abc_caps u kept
              Hpick _ _ _).
    + left.
    + constructor; [right; exists (VStr "n/a"), ValueError; split;
                    vm_compute; reflexivity|].
      constructor; [left; vm_compute; reflexivity|].
      constructor; [left; vm_compute; reflexivity|constructor].
    + vm_compute. reflexivity.
Defined.

(** ** Series *)

Lemma Qlt_bool_iff (a b : Q) : Qlt_bool a b = true <-> (a < b)%Q.
Proof.
  unfold Qlt_bool. rewrite negb_true_iff. split.
  - intros H. apply Qnot_le_lt. intros Hle. apply Qle_bool_iff in Hle.
    congruence.
  - intros H. destruct (Qle_bool b a) eqn:Hb; [|reflexivity].
    apply Qle_bool_iff in Hb. exfalso. exact (Qlt_not_le _ _ H Hb).
Qed.

(** [Series.max] is [NaN] on a series without a number, and otherwise a
    number of the series that no other exceeds. *)
Lemma series_max_spec (s : list cell) :
  match Series.max s with
  | NaN => forall h, Fin h ∉ s
  | Fin m => Fin m ∈ s /\ forall h, Fin h ∈ s -> (h <= m)%Q
  end.
Proof.
  induction s as [|a r IH]; simpl.
  - intros h Hin. inversion Hin.
  - destruct a as [|x]; simpl.
    + destruct (Series.max r) as [|m].
      * intros h Hin. apply elem_of_cons in Hin as [Hin|Hin]; [discriminate|].
        exact (IH h Hin).
      * destruct IH as [Hm Hle]. split; [right; exact Hm|].
        intros h Hin. apply elem_of_cons in Hin as [Hin|Hin]; [discriminate|].
        exact (Hle h Hin).
    + destruct (Series.max r) as [|m].
      * split; [left|]. intros h Hin.
        apply elem_of_cons in Hin as [[= ->]|Hin]; [apply Qle_refl|].
        exfalso. exact (IH h Hin).
      * destruct IH as [Hm Hle]. destruct (Qle_bool x m) eqn:Hxm.
        -- apply Qle_bool_iff in Hxm. split; [right; exact Hm|].
           intros h Hin. apply elem_of_cons in Hin as [[= ->]|Hin];
             [exact Hxm|exact (Hle h Hin)].
        -- assert (Hlt : (m < x)%Q).
           { apply Qnot_le_lt. intros H. apply Qle_bool_iff in H. congruence. }
           split; [left|]. intros h Hin.
           apply elem_of_cons in Hin as [[= ->]|Hin]; [apply Qle_refl|].
           apply Qle_trans with m; [exact (Hle h Hin)|].
           apply Qlt_le_weak, Hlt.
Qed.

Lemma above_series_max (s : list cell) (latest : cell) :
  Cell.ltb (Series.max s) latest = true <->
  exists c, latest = Fin c /\ (exists h, Fin h ∈ s) /\
            forall h, Fin h ∈ s -> (h < c)%Q.
Proof.
  pose proof (series_max_spec s) as Hmax. split.
  - destruct (Series.max s) as [|m]; [discriminate|].
    destruct latest as [|c]; [discriminate|]. simpl.
    intros Hlt. apply Qlt_bool_iff in Hlt. destruct Hmax as [Hm Hle].
    exists c. split; [reflexivity|]. split; [exists m; exact Hm|].
    intros h Hin. apply Qle_lt_trans with m; [exact (Hle h Hin)|exact Hlt].
  - intros (c & -> & [h Hh] & Hall).
    destruct (Series.max s) as [|m]; [exfalso; exact (Hmax h Hh)|].
    simpl. apply Qlt_bool_iff, Hall, Hmax.
Qed.

Lemma iloc_last (s : list cell) (c : cell) :
  last s = Some c -> Series.iloc s (-1) = Ok c.
Proof.
  rewrite last_lookup. intros H. unfold Series.iloc.
  assert (Hlen : (0 < length s)%nat).
  { destruct s; [discriminate|simpl; lia]. }
  change (-1 <? 0)%Z with true. cbv iota.
  replace (0 <=? -1 + Z.of_nat (length s))%Z with true
    by (symmetry; apply Z.leb_le; lia).
  replace (-1 + Z.of_nat (length s) <? Z.of_nat (length s))%Z with true
    by (symmetry; apply Z.ltb_lt; lia).
  simpl.
  replace (Z.to_nat (-1 + Z.of_nat (length s))) with (Init.Nat.pred (length s))
    by lia.
  rewrite H. reflexivity.
Qed.

Lemma slice_preceding (lookback : nat) (s : list cell) :
  (lookback + 1 <= length s)%nat ->
  Series.slice s (- (Z.of_nat lookback + 1)) (-1) = preceding lookback s.
Proof.
  intros Hlen. unfold Series.slice, Series.clamp, preceding.
  replace (- (Z.of_nat lookback + 1) <? 0)%Z with true
    by (symmetry; apply Z.ltb_lt; lia).
  change (-1 <? 0)%Z with true. cbv iota.
  rewrite length_take.
  replace (Z.to_nat
             (Z.max 0 (- (Z.of_nat lookback + 1) + Z.of_nat (length s))))
    with (length s - 1 - lookback)%nat by lia.
  replace (Z.to_nat (Z.max 0 (-1 + Z.of_nat (length s))))
    with (length s - 1)%nat by lia.
  replace ((length s - 1) `min` length s - lookback)%nat
    with (length s - 1 - lookback)%nat by lia.
  rewrite skipn_firstn_comm. reflexivity.
Qed.

Lemma preceding_length (lookback : nat) (s : list cell) :
  (lookback + 1 <= length s)%nat -> length (preceding lookback s) = lookback.
Proof.
  intros Hlen. unfold preceding. rewrite length_drop, !length_take. lia.
Qed.

(** ** Resistance break *)

(** C8. On a frame of at least [lookback + 1] candles the helper returns,
    and its answer is whether the latest close is above the largest high
    of the [lookback] candles before the latest one: it is true exactly
    when the latest close is a number, some of those highs is a number and
    each of them is strictly below the close; a close equal to the largest
    of those highs gives false. *)
Theorem resistance_break_is_strict (df : DataFrame) (lookback : nat)
    (high close : list cell) :
  Frame.col df "high" = Ok high -> Frame.col df "close" = Ok close ->
  length high = nrows df -> length close = nrows df ->
  (lookback + 1 <= nrows df)%nat ->
  exists latest,
    last close = Some latest /\
    length (preceding lookback high) = lookback /\
    recent_resistance_break df (Z.of_nat lookback) =
      Ok (Cell.ltb (Series.max (preceding lookback high)) latest) /\
    (recent_resistance_break df (Z.of_nat lookback) = Ok true <->
     exists c, latest = Fin c /\
               (exists h, Fin h ∈ preceding lookback high) /\
               forall h, Fin h ∈ preceding lookback high -> (h < c)%Q) /\
    (forall m c, Series.max (preceding lookback high) = Fin m ->
                 latest = Fin c -> (c == m)%Q ->
                 recent_resistance_break df (Z.of_nat lookback) = Ok false).
Proof.
  intros Hhigh Hclose Hlh Hlc Hlen.
  destruct (last close) as [latest|] eqn:Hlast.
  2:{ rewrite last_lookup in Hlast. apply lookup_ge_None in Hlast. lia. }
  assert (Hrun : recent_resistance_break df (Z.of_nat lookback) =
                 Ok (Cell.ltb (Series.max (preceding lookback high)) latest)).
  { unfold recent_resistance_break.
    replace (Z.of_nat (nrows df) <? Z.of_nat lookback + 1)%Z with false
      by (symmetry; apply Z.ltb_ge; lia).
    rewrite Hhigh, Hclose. simpl.
    rewrite (iloc_last close latest Hlast). simpl.
    rewrite slice_preceding by lia. reflexivity. }
  exists latest. split; [reflexivity|].
  split; [apply preceding_length; lia|]. split; [exact Hrun|]. split.
  - rewrite Hrun, <- above_series_max. split; [intros [= ->]|intros ->];
      reflexivity.
  - intros m c Hm -> Hcm. rewrite Hrun, Hm. simpl. f_equal.
    unfold Qlt_bool. apply negb_false_iff, Qle_bool_iff.
    rewrite Hcm. apply Qle_refl.
Qed.

Lemma resistance_break_is_strict_witness :
  exists latest,
    last [Fin 1; Fin 1; Fin 8] = Some latest /\
    recent_resistance_break Examples.three_candles 2 = Ok true.
Proof.
  destruct (resistance_break_is_strict Examples.three_candles 2
              [Fin 5; Fin 7; Fin 100] [Fin 1; Fin 1; Fin 8])
    as (latest & Hlast & _ & Hrun & _).
  - reflexivity.
  - reflexivity.
  - reflexivity.
  - reflexivity.
  - simpl. lia.
  - exists latest. split; [exact Hlast|]. vm_compute. reflexivity.
Defined.

(** ** Dictionaries *)

Lemma dict_get_set {V : Type} (d : list (string * V)) (k k' : string) (v : V) :
  PyDict.get (PyDict.set d k v) k' =
    if String.eqb k' k then Some v else PyDict.get d k'.
Proof.
  induction d as [|[k0 v0] r IH]; simpl.
  - destruct (String.eqb k' k); reflexivity.
  - destruct (String.eqb_spec k k0) as [->|Hk]; simpl.
    + destruct (String.eqb k' k0); reflexivity.
    + rewrite IH. destruct (String.eqb_spec k' k0) as [->|Hk'];
        [|reflexivity].
      apply String.eqb_neq in Hk. rewrite String.eqb_sym, Hk. reflexivity.
Qed.

Lemma dict_set_keys {V : Type} (d : list (string * V)) (k : string) (v : V) :
  In k (PyDict.keys d) -> PyDict.keys (PyDict.set d k v) = PyDict.keys d.
Proof.
  induction d as [|[k0 v0] r IH]; simpl; [intros []|].
  destruct (String.eqb_spec k k0) as [->|Hk]; [reflexivity|].
  intros [Heq|Hin]; [congruence|]. simpl. f_equal. apply IH, Hin.
Qed.

(** ** Pattern detector *)

Lemma detect_step_get (df : DataFrame) (res : list (string * bool))
    (n : string) (f : option pattern_fn) (name : string) :
  PyDict.get (detect_step df res (n, f)) name =
    if String.eqb name n &&
       match f with
       | Some fn =>
           match pattern_fires fn n df with
           | Ok fires => fires
           | Raise _ => false
           end
       | None => false
       end
    then Some true else PyDict.get res name.
Proof.
  unfold detect_step. cbn [fst snd]. destruct f as [fn|].
  - destruct (pattern_fires fn n df) as [[]|].
    + rewrite dict_get_set, andb_true_r. reflexivity.
    + rewrite andb_false_r. reflexivity.
    + rewrite andb_false_r. reflexivity.
  - rewrite andb_false_r. reflexivity.
Qed.

Lemma detect_step_keys (df : DataFrame) (res : list (string * bool))
    (n : string) (f : option pattern_fn) :
  In n (PyDict.keys res) ->
  PyDict.keys (detect_step df res (n, f)) = PyDict.keys res.
Proof.
  intros Hin. unfold detect_step. cbn [fst snd]. destruct f as [fn|];
    [|reflexivity].
  destruct (pattern_fires fn n df) as [[]|]; try reflexivity.
  apply dict_set_keys, Hin.
Qed.

Lemma foldl_detect_step_keys (df : DataFrame)
    (funcs : list (string * option pattern_fn)) (res : list (string * bool)) :
  Forall (fun item => In (fst item) (PyDict.keys res)) funcs ->
  PyDict.keys (foldl (detect_step df) res funcs) = PyDict.keys res.
Proof.
  revert res. induction funcs as [|[n f] funcs IH]; intros res Hall;
    [reflexivity|].
  inversion Hall as [|? ? Hn Hrest]; subst. cbn [foldl].
  rewrite IH; rewrite detect_step_keys by exact Hn; [reflexivity|exact Hrest].
Qed.

(** C9. The detector always returns, with exactly the four pattern names
    as its keys.  The entry of a name is true only when the package is
    there, has a function of that name, and that function returns and
    leaves a truthy last cell in the column of that name; it is false
    when the package is missing, when the function is missing and when
    the function (or reading its column) raises.  The entry of a name is
    fixed by the function of that name alone, so a failure of one
    predicate leaves the others as they are. *)
Theorem detect_bullish_patterns_isolates_failures (m : option candle_mod)
    (df : DataFrame) :
  PyDict.keys (detect_bullish_patterns m df) = BULLISH_PATTERNS /\
  forall name,
    name ∈ BULLISH_PATTERNS ->
    PyDict.get (detect_bullish_patterns m df) name =
      Some match m with
           | None => false
           | Some getattr =>
               match getattr name with
               | None => false
               | Some fn =>
                   match pattern_fires fn name df with
                   | Ok fires => fires
                   | Raise _ => false
                   end
               end
           end.
Proof.
  destruct m as [getattr|].
  - unfold detect_bullish_patterns, PATTERN_FUNCS, BULLISH_PATTERNS.
    cbn [fmap list_fmap foldl]. split.
    + change (PyDict.keys
                (foldl (detect_step df)
                   ((fun name => (name, false)) <$> BULLISH_PATTERNS)
                   ((fun name => (name, getattr name)) <$> BULLISH_PATTERNS))
              = BULLISH_PATTERNS).
      rewrite foldl_detect_step_keys; [reflexivity|].
      repeat (apply List.Forall_cons;
              [cbn; repeat first [left; reflexivity | right]|]).
      apply List.Forall_nil.
    + intros name Hin. rewrite !detect_step_get.
      repeat (apply elem_of_cons in Hin as [->|Hin]);
        try (inversion Hin; fail);
        cbv beta iota delta [String.eqb Ascii.eqb Bool.eqb andb PyDict.get];
        repeat match goal with
               | |- context [match ?x with _ => _ end] => destruct x
               end; reflexivity.
  - split; [reflexivity|]. intros name Hin.
    unfold BULLISH_PATTERNS in Hin.
    repeat (apply elem_of_cons in Hin as [->|Hin]);
      try (inversion Hin; fail); reflexivity.
Qed.

(** ** Signal scorer *)

Lemma bind_Ok {A B : Type} (m : result A) (k : A -> result B) (b : B) :
  (x ← m; k x) = Ok b -> exists a, m = Ok a /\ k a = Ok b.
Proof. destruct m as [a|e]; [|discriminate]. intros H. exists a. split; [reflexivity|exact H]. Qed.

Lemma ensure_ohlcv_Ok (df df' : DataFrame) :
  ensure_ohlcv df = Ok df' -> df' = df.
Proof.
  unfold ensure_ohlcv. destruct (List.filter _ _); [|discriminate].
  intros [= <-]. reflexivity.
Qed.

Lemma add_indicators_nrows `{TA} (df df' : DataFrame) :
  add_indicators df = Ok df' -> nrows df' = nrows df.
Proof.
  unfold add_indicators. intros H0.
  apply bind_Ok in H0 as (d & Hd & H0). apply ensure_ohlcv_Ok in Hd as ->.
  apply bind_Ok in H0 as (close & _ & H0).
  apply bind_Ok in H0 as (high & _ & H0).
  apply bind_Ok in H0 as (low & _ & H0).
  apply bind_Ok in H0 as (volume & _ & H0).
  apply bind_Ok in H0 as (volume' & _ & H0).
  injection H0 as <-. reflexivity.
Qed.

Lemma add_indicators_rsi `{TA} (df df' : DataFrame) :
  add_indicators df = Ok df' ->
  exists close,
    Frame.col df "close" = Ok close /\
    Frame.col df' "rsi" = Ok (Series.align (nrows df) (rsi 14 close)).
Proof.
  unfold add_indicators. intros H0.
  apply bind_Ok in H0 as (d & Hd & H0). apply ensure_ohlcv_Ok in Hd as ->.
  apply bind_Ok in H0 as (close & Hclose & H0).
  apply bind_Ok in H0 as (high & _ & H0).
  apply bind_Ok in H0 as (low & _ & H0).
  apply bind_Ok in H0 as (volume & _ & H0).
  apply bind_Ok in H0 as (volume' & _ & H0).
  injection H0 as <-. exists close. split; [exact Hclose|].
  unfold Frame.col, Frame.assign. cbn [columns nrows].
  rewrite !dict_get_set.
  cbv beta iota delta [String.eqb Ascii.eqb Bool.eqb]. reflexivity.
Qed.

Lemma iloc_neg (s : list cell) (k : positive) (c : cell) :
  Series.iloc s (Z.neg k) = Ok c ->
  (Pos.to_nat k <= length s)%nat /\ s !! (length s - Pos.to_nat k)%nat = Some c.
Proof.
  unfold Series.iloc. change (Z.neg k <? 0)%Z with true. cbv iota.
  destruct (0 <=? Z.neg k + Z.of_nat (length s))%Z eqn:Hlo; [|discriminate].
  destruct (Z.neg k + Z.of_nat (length s) <? Z.of_nat (length s))%Z;
    [|discriminate]. simpl.
  apply Z.leb_le in Hlo.
  replace (Z.to_nat (Z.neg k + Z.of_nat (length s)))
    with (length s - Pos.to_nat k)%nat by lia.
  destruct (s !! (length s - Pos.to_nat k)%nat) as [x|]; [|discriminate].
  intros [= ->]. split; [lia|reflexivity].
Qed.

Lemma count_true_le (xs : list bool) : (count_true xs <= length xs)%nat.
Proof. unfold count_true. apply List.filter_length_le. Qed.

(** What [crossings] writes into the initial condition set. *)
Lemma crossings_shape (df1 : DataFrame) (conds : list (string * bool)) :
  crossings df1
    [("rsi_cross_50", false); ("macd_bullish_cross", false);
     ("price_above_ema20_50", false); ("ema20_gt_ema50", false);
     ("bullish_pattern", false)] = Ok conds ->
  exists b1 b2,
    conds = [("rsi_cross_50", b1); ("macd_bullish_cross", b2);
             ("price_above_ema20_50", false); ("ema20_gt_ema50", false);
             ("bullish_pattern", false)] /\
    ((nrows df1 < 2)%nat -> b1 = false) /\
    ((2 <= nrows df1)%nat ->
     exists rsi_col rsi_prev rsi_now,
       Frame.col df1 "rsi" = Ok rsi_col /\
       Series.iloc rsi_col (-2) = Ok rsi_prev /\
       Series.iloc rsi_col (-1) = Ok rsi_now /\
       b1 = Cell.leb rsi_prev (Fin 50)
            && (Cell.ltb (Fin 50) rsi_now && Cell.ltb rsi_now (Fin 80))).
Proof.
  unfold crossings. destruct (Nat.leb_spec 2 (nrows df1)) as [Hn|Hn].
  - intros H0.
    apply bind_Ok in H0 as (rsi_col & Hcol & H0).
    apply bind_Ok in H0 as (rsi_prev & Hprev & H0).
    apply bind_Ok in H0 as (rsi_now & Hnow & H0).
    apply bind_Ok in H0 as (macd_col & _ & H0).
    apply bind_Ok in H0 as (sig_col & _ & H0).
    apply bind_Ok in H0 as (m2 & _ & H0).
    apply bind_Ok in H0 as (s2 & _ & H0).
    apply bind_Ok in H0 as (m1 & _ & H0).
    apply bind_Ok in H0 as (s1 & _ & H0).
    injection H0 as <-. eexists. eexists. split; [reflexivity|].
    split; [lia|]. intros _. exists rsi_col, rsi_prev, rsi_now.
    repeat split; assumption.
  - intros [= <-]. exists false, false. split; [reflexivity|].
    split; [reflexivity|lia].
Qed.

(** The result of the scorer, read back: the frames it scored, the eight
    computed conditions, and the score. *)
Lemma compute_signal_Ok `{TA} (m : option candle_mod)
    (df_1h df_15m : DataFrame) (sig : Signal) :
  compute_signal m df_1h df_15m = Ok sig ->
  exists df1 df15 b1 b2 b3 b4 b5 b6 b7 b8,
    add_indicators df_1h = Ok df1 /\
    add_indicators df_15m = Ok df15 /\
    crossings df1
      [("rsi_cross_50", false); ("macd_bullish_cross", false);
       ("price_above_ema20_50", false); ("ema20_gt_ema50", false);
       ("bullish_pattern", false)] =
      Ok [("rsi_cross_50", b1); ("macd_bullish_cross", b2);
          ("price_above_ema20_50", false); ("ema20_gt_ema50", false);
          ("bullish_pattern", false)] /\
    recent_resistance_break df15 20 = Ok b8 /\
    conditions sig =
      [("rsi_cross_50", b1); ("macd_bullish_cross", b2);
       ("price_above_ema20_50", b3); ("ema20_gt_ema50", b4);
       ("bullish_pattern", b5); ("vol_spike_15m", b6);
       ("rsi_15m_gt_50", b7); ("break_resistance_15m", b8);
       ("lunar_trending", false); ("news_positive", false)] /\
    score sig = count_true (PyDict.values (conditions sig)).
Proof.
  unfold compute_signal. intros H0.
  apply bind_Ok in H0 as (df1 & Hdf1 & H0).
  apply bind_Ok in H0 as (df15 & Hdf15 & H0).
  apply bind_Ok in H0 as (conds & Hconds & H0).
  destruct (crossings_shape df1 conds Hconds) as (b1 & b2 & -> & _).
  apply bind_Ok in H0 as (price_now & _ & H0).
  apply bind_Ok in H0 as (ema20 & _ & H0).
  apply bind_Ok in H0 as (ema50 & _ & H0).
  apply bind_Ok in H0 as (spike & _ & H0).
  apply bind_Ok in H0 as (rsi15 & _ & H0).
  apply bind_Ok in H0 as (brk & Hbrk & H0).
  apply bind_Ok in H0 as (rsi1 & _ & H0).
  apply bind_Ok in H0 as (macd1 & _ & H0).
  apply bind_Ok in H0 as (sig1 & _ & H0).
  apply bind_Ok in H0 as (ema200 & _ & H0).
  injection H0 as <-. cbn [conditions score].
  exists df1, df15, b1, b2. do 5 eexists. exists brk.
  split; [exact Hdf1|]. split; [exact Hdf15|]. split; [exact Hconds|].
  split; [exact Hbrk|]. split; reflexivity.
Qed.

(** C3. Whenever the scorer returns, its condition set has exactly the ten
    named slots, its score is the number of true entries of that set and
    lies between 0 and 10, and the slots [lunar_trending] and
    [news_positive] are false. *)
Theorem compute_signal_score_counts_conditions `{TA} (m : option candle_mod)
    (df_1h df_15m : DataFrame) (sig : Signal) :
  compute_signal m df_1h df_15m = Ok sig ->
  PyDict.keys (conditions sig) = condition_names /\
  length (conditions sig) = 10%nat /\
  NoDup (PyDict.keys (conditions sig)) /\
  score sig = count_true (PyDict.values (conditions sig)) /\
  (0 <= score sig <= 10)%nat /\
  PyDict.get (conditions sig) "lunar_trending" = Some false /\
  PyDict.get (conditions sig) "news_positive" = Some false.
Proof.
  intros H0.
  destruct (compute_signal_Ok m df_1h df_15m sig H0)
    as (df1 & df15 & b1 & b2 & b3 & b4 & b5 & b6 & b7 & b8
        & _ & _ & _ & _ & Hconds & Hscore).
  rewrite Hscore, Hconds.
  split; [reflexivity|]. split; [reflexivity|]. split.
  { refine (bool_decide_unpack _ _). vm_compute. exact I. }
  split; [reflexivity|]. split.
  { split; [lia|]. etransitivity; [apply count_true_le|]. reflexivity. }
  split; reflexivity.
Qed.

Lemma compute_signal_score_counts_conditions_witness :
  exists sig,
    @compute_signal (Examples.fixed_rsi [Fin 48; Fin 65]) None
      (Examples.flat 2) (Examples.flat 2) = Ok sig /\
    score sig = 2%nat /\
    PyDict.keys (conditions sig) = condition_names.
Proof.
  eexists. split; [vm_compute; reflexivity|]. split; [reflexivity|].
  eapply (@compute_signal_score_counts_conditions
            (Examples.fixed_rsi [Fin 48; Fin 65]) None
            (Examples.flat 2) (Examples.flat 2)).
  vm_compute. reflexivity.
Defined.

Lemma rsi_cross_iff (rsi_prev rsi_now : cell) :
  Cell.leb rsi_prev (Fin 50)
  && (Cell.ltb (Fin 50) rsi_now && Cell.ltb rsi_now (Fin 80)) = true <->
  exists p c, rsi_prev = Fin p /\ rsi_now = Fin c /\
              (p <= 50)%Q /\ (50 < c)%Q /\ (c < 80)%Q.
Proof.
  split.
  - intros H0. apply andb_true_iff in H0 as [H1 H2].
    apply andb_true_iff in H2 as [H2 H3].
    destruct rsi_prev as [|p]; [discriminate|].
    destruct rsi_now as [|c]; [discriminate|].
    exists p, c. simpl in *.
    apply Qle_bool_iff in H1. apply Qlt_bool_iff in H2, H3.
    repeat split; assumption.
  - intros (p & c & -> & -> & H1 & H2 & H3). simpl.
    apply Qle_bool_iff in H1. apply Qlt_bool_iff in H2, H3.
    rewrite H1, H2, H3. reflexivity.
Qed.

(** C4. Let the scorer return on a slow series.  With fewer than 2 rows
    [rsi_cross_50] is false.  With at least 2 rows it is true exactly when
    the RSI of the row before the last is a number at most 50 and the RSI
    of the last row is a number strictly between 50 and 80, the RSI being
    the column the indicator engine computes from the closes. *)
Theorem rsi_cross_50_is_fresh_cross `{TA} (m : option candle_mod)
    (df_1h df_15m : DataFrame) (sig : Signal) :
  compute_signal m df_1h df_15m = Ok sig ->
  exists b,
    PyDict.get (conditions sig) "rsi_cross_50" = Some b /\
    ((nrows df_1h < 2)%nat -> b = false) /\
    ((2 <= nrows df_1h)%nat ->
     exists close rsi_prev rsi_now,
       Frame.col df_1h "close" = Ok close /\
       let rsi_col := Series.align (nrows df_1h) (rsi 14 close) in
       rsi_col !! (length rsi_col - 2)%nat = Some rsi_prev /\
       last rsi_col = Some rsi_now /\
       (b = true <->
        exists p c, rsi_prev = Fin p /\ rsi_now = Fin c /\
                    (p <= 50)%Q /\ (50 < c)%Q /\ (c < 80)%Q)).
Proof.
  intros H0.
  destruct (compute_signal_Ok m df_1h df_15m sig H0)
    as (df1 & df15 & b1 & b2 & b3 & b4 & b5 & b6 & b7 & b8
        & Hdf1 & _ & Hcross & _ & Hconds & _).
  exists b1. rewrite Hconds. split; [reflexivity|].
  destruct (crossings_shape df1 _ Hcross) as (c1 & c2 & Heq & Hshort & Hlong).
  injection Heq as -> ->.
  rewrite (add_indicators_nrows df_1h df1 Hdf1) in Hshort, Hlong.
  split; [exact Hshort|]. intros Hn.
  destruct (Hlong Hn) as (rsi_col & rsi_prev & rsi_now & Hcol & Hprev & Hnow & ->).
  destruct (add_indicators_rsi df_1h df1 Hdf1) as (close & Hclose & Hrsi).
  rewrite Hrsi in Hcol. injection Hcol as <-.
  exists close, rsi_prev, rsi_now. split; [exact Hclose|]. cbv zeta.
  apply iloc_neg in Hprev as [_ Hprev]. apply iloc_neg in Hnow as [Hlen Hnow].
  split; [exact Hprev|]. split.
  - rewrite last_lookup, <- Hnow. f_equal. lia.
  - apply rsi_cross_iff.
Qed.

Lemma rsi_cross_50_is_fresh_cross_witness :
  exists sig,
    @compute_signal (Examples.fixed_rsi [Fin 48; Fin 65]) None
      (Examples.flat 2) (Examples.flat 2) = Ok sig /\
    PyDict.get (conditions sig) "rsi_cross_50" = Some true.
Proof.
  eexists. split; [vm_compute; reflexivity|].
  edestruct (@rsi_cross_50_is_fresh_cross
               (Examples.fixed_rsi [Fin 48; Fin 65]) None
               (Examples.flat 2) (Examples.flat 2)) as (b & Hb & _).
  - vm_compute. reflexivity.
  - reflexivity.
Defined.

(** The RSI series of the specification: 48 then 65 is a cross; 48 then 85
    has run into overbought; 52 then 65 was already above 50. *)
Example rsi_cross_50_examples :
  (sig ← @compute_signal (Examples.fixed_rsi [Fin 48; Fin 65]) None
           (Examples.flat 2) (Examples.flat 2);
   Ok (PyDict.get (conditions sig) "rsi_cross_50")) = Ok (Some true) /\
  (sig ← @compute_signal (Examples.fixed_rsi [Fin 48; Fin 85]) None
           (Examples.flat 2) (Examples.flat 2);
   Ok (PyDict.get (conditions sig) "rsi_cross_50")) = Ok (Some false) /\
  (sig ← @compute_signal (Examples.fixed_rsi [Fin 52; Fin 65]) None
           (Examples.flat 2) (Examples.flat 2);
   Ok (PyDict.get (conditions sig) "rsi_cross_50")) = Ok (Some false) /\
  (sig ← @compute_signal (Examples.fixed_rsi [Fin 48; Fin 65]) None
           (Examples.flat 1) (Examples.flat 2);
   Ok (PyDict.get (conditions sig) "rsi_cross_50")) = Ok (Some false).
Proof. repeat split; vm_compute; reflexivity. Qed.

(** C10. On a frame of fewer than [lookback + 1] rows the resistance-break
    helper returns false, whatever its columns are, and raises nothing;
    so, whenever the scorer returns on a fast series of fewer than 21
    candles, [break_resistance_15m] is false. *)
Theorem short_series_has_no_resistance_break :
  (forall (df : DataFrame) (lookback : Z),
     (Z.of_nat (nrows df) < lookback + 1)%Z ->
     recent_resistance_break df lookback = Ok false) /\
  (forall (ta : TA) (m : option candle_mod) (df_1h df_15m : DataFrame)
          (sig : Signal),
     compute_signal m df_1h df_15m = Ok sig ->
     (nrows df_15m < 21)%nat ->
     PyDict.get (conditions sig) "break_resistance_15m" = Some false).
Proof.
  assert (Hshort : forall (df : DataFrame) (lookback : Z),
             (Z.of_nat (nrows df) < lookback + 1)%Z ->
             recent_resistance_break df lookback = Ok false).
  { intros df lookback Hlt. unfold recent_resistance_break.
    apply Z.ltb_lt in Hlt. rewrite Hlt. reflexivity. }
  split; [exact Hshort|].
  intros ta m df_1h df_15m sig H0 Hn.
  destruct (compute_signal_Ok m df_1h df_15m sig H0)
    as (df1 & df15 & b1 & b2 & b3 & b4 & b5 & b6 & b7 & b8
        & _ & Hdf15 & _ & Hbrk & Hconds & _).
  rewrite Hconds. rewrite Hshort in Hbrk.
  - injection Hbrk as <-. reflexivity.
  - rewrite (add_indicators_nrows df_15m df15 Hdf15). lia.
Qed.

Lemma short_series_has_no_resistance_break_witness :
  recent_resistance_break Examples.three_candles 20 = Ok false /\
  exists sig,
    @compute_signal (Examples.fixed_rsi [Fin 48; Fin 65]) None
      (Examples.flat 2) (Examples.flat 2) = Ok sig /\
    PyDict.get (conditions sig) "break_resistance_15m" = Some false.
Proof.
  destruct short_series_has_no_resistance_break as [Hshort Hsignal].
  split.
  - apply Hshort. simpl. lia.
  - eexists. split; [vm_compute; reflexivity|].
    eapply (Hsignal (Examples.fixed_rsi [Fin 48; Fin 65]) None
              (Examples.flat 2) (Examples.flat 2)).
    + vm_compute. reflexivity.
    + simpl. lia.
Defined.

(** * Further properties *)

(** ** Candidate filter, continued *)

Lemma change_of_first (t : gmap string value) (keys : list string)
    (c : PyFloat.float) :
  change_of t keys = Some c <->
  exists before key after v,
    keys = (before ++ key :: after)%list /\
    t !! key = Some v /\ parse_change v = Ok c /\
    Forall (unparsed t) before.
Proof.
  split.
  - induction keys as [|k keys IH]; simpl; [discriminate|].
    destruct (t !! k) as [v|] eqn:Hk.
    + destruct (parse_change v) as [x|e] eqn:Hp.
      * intros [= ->]. exists [], k, keys, v. repeat split; try assumption.
        constructor.
      * intros H0.
        destruct (IH H0) as (before & key & after & w & -> & Hw & Hc & Hall).
        exists (k :: before), key, after, w. repeat split; try assumption.
        constructor; [right; eauto|exact Hall].
    + intros H0.
      destruct (IH H0) as (before & key & after & w & -> & Hw & Hc & Hall).
      exists (k :: before), key, after, w. repeat split; try assumption.
      constructor; [left; exact Hk|exact Hall].
  - intros (before & key & after & v & -> & Hv & Hc & Hall).
    rewrite (change_of_app t before (key :: after) Hall). simpl.
    rewrite Hv, Hc. reflexivity.
Qed.

Lemma unparsed_step (t : gmap string value) (key : string)
    (rest : list string) :
  unparsed t key -> change_of t (key :: rest) = change_of t rest.
Proof. intros H. apply (change_of_app t [key] rest). constructor; [exact H|constructor]. Qed.

Lemma parsed_or_unparsed (t : gmap string value) (key : string) :
  unparsed t key \/
  exists v c, t !! key = Some v /\ parse_change v = Ok c.
Proof.
  unfold unparsed. destruct (t !! key) as [v|]; [|left; left; reflexivity].
  destruct (parse_change v) as [c|e] eqn:Hp.
  - right. exists v, c. split; [reflexivity|exact Hp].
  - left. right. exists v, e. split; [reflexivity|exact Hp].
Qed.

Lemma parsed_step (t : gmap string value) (key : string)
    (rest : list string) (v : value) (c : PyFloat.float) :
  t !! key = Some v -> parse_change v = Ok c ->
  change_of t (key :: rest) = Some c.
Proof. intros Hv Hc. simpl. rewrite Hv, Hc. reflexivity. Qed.

Lemma parsed_not_unparsed (t : gmap string value) (key : string)
    (v : value) (c : PyFloat.float) :
  t !! key = Some v -> parse_change v = Ok c -> ~ unparsed t key.
Proof.
  intros Hv Hc [Hn|(w & e & Hw & He)]; [congruence|].
  rewrite Hv in Hw. injection Hw as <-. congruence.
Qed.

(** X1. The 24h change of a ticker comes from the first of the field
    names priceChgPct, changePercent, chgPct that is present with a value
    that parses: the names before it are each absent or hold a value on
    which the parse raises, and such a name is passed over.  The change
    written into the ticker is that number, and [None] exactly when none
    of the three names gives one.  A first field ["1e-3"] is read as the
    fraction 0.001 and gives 0.1, whatever the second field holds. *)
Theorem change_of_first_parsed_field :
  (forall (t : gmap string value) (c : PyFloat.float),
     change_of t change_keys = Some c <->
     (exists v, t !! "priceChgPct" = Some v /\ parse_change v = Ok c) \/
     (unparsed t "priceChgPct" /\
      exists v, t !! "changePercent" = Some v /\ parse_change v = Ok c) \/
     (unparsed t "priceChgPct" /\ unparsed t "changePercent" /\
      exists v, t !! "chgPct" = Some v /\ parse_change v = Ok c)) /\
  (forall (t : gmap string value) (c : PyFloat.float),
     change_of t change_keys = Some c <->
     exists before key after v,
       change_keys = (before ++ key :: after)%list /\
       t !! key = Some v /\ parse_change v = Ok c /\
       Forall (unparsed t) before) /\
  (forall t : gmap string value,
     change_of t change_keys = None <-> Forall (unparsed t) change_keys) /\
  (forall t : gmap string value,
     change_attached t =
       match change_of t change_keys with
       | Some c => VFloat c
       | None => VNone
       end) /\
  change_attached
    (<["changePercent" := VStr "50"]>
       (Examples.abc_with "priceChgPct" (VStr "1e-3")))
    = VFloat Examples.f0_1 /\
  change_attached
    (<["changePercent" := VStr "50"]>
       (Examples.abc_with "priceChgPct" (VStr "one")))
    = VFloat Examples.f50 /\
  change_attached
    (<["chgPct" := VStr "50%"]>
       (Examples.abc_with "priceChgPct" VNone))
    = VFloat Examples.f50.
Proof.
  split; [|split; [|split; [|split; [|repeat split; vm_compute; reflexivity]]]].
  - intros t c. unfold change_keys. split.
    + intros H.
      destruct (parsed_or_unparsed t "priceChgPct") as [U1|(v & x & Hv & Hx)].
      2:{ left. exists v. split; [exact Hv|].
          rewrite (parsed_step t _ _ v x Hv Hx) in H. congruence. }
      rewrite (unparsed_step t _ _ U1) in H. right.
      destruct (parsed_or_unparsed t "changePercent") as [U2|(v & x & Hv & Hx)].
      2:{ left. split; [exact U1|]. exists v. split; [exact Hv|].
          rewrite (parsed_step t _ _ v x Hv Hx) in H. congruence. }
      rewrite (unparsed_step t _ _ U2) in H. right.
      split; [exact U1|]. split; [exact U2|].
      destruct (parsed_or_unparsed t "chgPct") as [U3|(v & x & Hv & Hx)].
      * rewrite (unparsed_step t _ _ U3) in H. discriminate H.
      * exists v. split; [exact Hv|].
        rewrite (parsed_step t _ _ v x Hv Hx) in H. congruence.
    + intros [(v & Hv & Hc)|[(U1 & v & Hv & Hc)|(U1 & U2 & v & Hv & Hc)]].
      * exact (parsed_step t _ _ v c Hv Hc).
      * rewrite (unparsed_step t _ _ U1). exact (parsed_step t _ _ v c Hv Hc).
      * rewrite (unparsed_step t _ _ U1), (unparsed_step t _ _ U2).
        exact (parsed_step t _ _ v c Hv Hc).
  - intros t c. apply change_of_first.
  - intros t. split; [|apply change_of_unparsed].
    unfold change_keys. intros H.
    destruct (parsed_or_unparsed t "priceChgPct") as [U1|(v & x & Hv & Hx)];
      [|rewrite (parsed_step t _ _ v x Hv Hx) in H; discriminate H].
    rewrite (unparsed_step t _ _ U1) in H.
    destruct (parsed_or_unparsed t "changePercent") as [U2|(v & x & Hv & Hx)];
      [|rewrite (parsed_step t _ _ v x Hv Hx) in H; discriminate H].
    rewrite (unparsed_step t _ _ U2) in H.
    destruct (parsed_or_unparsed t "chgPct") as [U3|(v & x & Hv & Hx)];
      [|rewrite (parsed_step t _ _ v x Hv Hx) in H; discriminate H].
    constructor; [exact U1|]. constructor; [exact U2|].
    constructor; [exact U3|]. constructor.
  - intros t. unfold change_attached, dict_get.
    rewrite with_change_lookup. reflexivity.
Qed.

Lemma ticker_symbol_with_change (t : gmap string value) :
  ticker_symbol (with_change t) = ticker_symbol t.
Proof.
  unfold ticker_symbol, dict_get, with_change.
  rewrite !lookup_insert_ne by discriminate. reflexivity.
Qed.

Lemma filter_small_caps_from (min_cap max_cap : Q) (caps : gmap string Q)
    (ts out : list (gmap string value)) (t' : gmap string value) :
  filter_small_caps ts min_cap max_cap caps = Ok out -> t' ∈ out ->
  exists t, t ∈ ts /\ small_cap_entry min_cap max_cap caps t = Ok (Some t').
Proof.
  revert out. induction ts as [|t0 ts IH]; intros out Hout Hin; simpl in Hout.
  - injection Hout as <-. inversion Hin.
  - apply bind_Ok in Hout as (e & He & Hout).
    apply bind_Ok in Hout as (rest & Hrest & Hout). injection Hout as <-.
    destruct e as [kept|].
    + apply elem_of_cons in Hin as [->|Hin].
      * exists t0. split; [left|exact He].
      * destruct (IH rest Hrest Hin) as (t & Ht & Hentry).
        exists t. split; [right; exact Ht|exact Hentry].
    + destruct (IH rest Hrest Hin) as (t & Ht & Hentry).
      exists t. split; [right; exact Ht|exact Hentry].
Qed.

Lemma under_ceiling_from (ceiling : PyFloat.float)
    (small out : list (gmap string value)) (t : gmap string value) :
  under_ceiling ceiling small = Ok out -> t ∈ out ->
  t ∈ small /\
  over_ceiling ceiling (dict_get t "_24h_change_pct") = Ok false.
Proof.
  revert out. induction small as [|t0 small IH]; intros out Hout Hin;
    simpl in Hout.
  - injection Hout as <-. inversion Hin.
  - apply bind_Ok in Hout as (over & Hover & Hout).
    apply bind_Ok in Hout as (rest & Hrest & Hout). injection Hout as <-.
    destruct over.
    + destruct (IH rest Hrest Hin) as [Hs Ho]. split; [right; exact Hs|exact Ho].
    + apply elem_of_cons in Hin as [->|Hin].
      * split; [left|exact Hover].
      * destruct (IH rest Hrest Hin) as [Hs Ho].
        split; [right; exact Hs|exact Ho].
Qed.

(** X2. Every ticker that [pick_symbols] returns is a ticker of the input
    whose base has a market cap inside the band of the settings, with that
    base and cap written into it next to its 24h change, and that change
    is unknown ([None]) or a float that is not above the ceiling (the
    test [chg > ceiling] is false for it, as it is for a NaN): no ticker
    above the ceiling or outside the band is ever picked.  With the
    default ceiling of 30, a ticker whose change is ["35%"] or the
    fraction 0.35 is not picked, and one whose change is ["30%"] is. *)
Theorem pick_symbols_within_band_and_ceiling :
  (forall (settings : Settings) (tickers out : list (gmap string value))
          (cg_caps : gmap string Q) (t' : gmap string value),
     pick_symbols settings tickers cg_caps = Ok out -> t' ∈ out ->
     exists t s base cap,
       t ∈ tickers /\ ticker_symbol t = VStr s /\ normalize s = Some base /\
       cg_caps !! base = Some cap /\
       (min_market_cap settings <= cap)%Q /\
       (cap <= max_market_cap settings)%Q /\
       t' = annotated (with_change t) base cap /\
       dict_get t' "_24h_change_pct" = change_attached t /\
       match change_of t change_keys with
       | None => change_attached t = VNone
       | Some c =>
           change_attached t = VFloat c /\
           PyFloat.ltb (skip_if_24h_gain_pct settings) c = false
       end) /\
  pick_symbols default_settings
    [Examples.abc_with "priceChgPct" (VStr "35%")] Examples.abc_caps
    = Ok [] /\
  pick_symbols default_settings
    [Examples.abc_with "priceChgPct" (VStr "0.35")] Examples.abc_caps
    = Ok [] /\
  pick_symbols default_settings
    [Examples.abc_with "priceChgPct" (VStr "30%")] Examples.abc_caps
    = Ok [annotated (with_change
                       (Examples.abc_with "priceChgPct" (VStr "30%")))
            "ABC" 5000000] /\
  pick_symbols default_settings
    [Examples.abc_with "priceChgPct" (VStr "nan")] Examples.abc_caps
    = Ok [annotated (with_change
                       (Examples.abc_with "priceChgPct" (VStr "nan")))
            "ABC" 5000000].
Proof.
  split; [|repeat split; vm_compute; reflexivity].
  intros settings tickers out cg_caps t'.
  unfold pick_symbols. intros Hpick Hin.
  apply bind_Ok in Hpick as (small & Hsmall & Hunder).
  destruct (under_ceiling_from _ small out t' Hunder Hin) as [Hin' Hover].
  destruct (filter_small_caps_from _ _ _ _ small t' Hsmall Hin')
    as (t1 & Ht1 & Hentry).
  apply list_elem_of_fmap in Ht1 as (t & -> & Ht).
  apply small_cap_entry_Some in Hentry
    as (s & base & cap & Hsym & Hnorm & Hcap & Hband & ->).
  rewrite ticker_symbol_with_change in Hsym. apply in_band_iff in Hband as [Hlo Hhi].
  exists t, s, base, cap. repeat (split; [assumption|]). split; [reflexivity|].
  assert (Hget : dict_get (annotated (with_change t) base cap)
                   "_24h_change_pct" = change_attached t).
  { unfold change_attached, dict_get, annotated.
    rewrite !lookup_insert_ne by discriminate. reflexivity. }
  split; [exact Hget|]. rewrite Hget in Hover.
  unfold change_attached, dict_get in *. rewrite with_change_lookup in *.
  cbn [default from_option] in *.
  destruct (change_of t change_keys) as [c|]; [|reflexivity].
  split; [reflexivity|]. simpl in Hover. injection Hover as Hover.
  exact Hover.
Qed.

Lemma pick_symbols_within_band_and_ceiling_witness :
  let t0 := Examples.abc_with "priceChgPct" (VStr "30%") in
  let kept := annotated (with_change t0) "ABC" 5000000 in
  exists t s base cap,
    t ∈ [t0] /\ ticker_symbol t = VStr s /\
    normalize s = Some base /\ Examples.abc_caps !! base = Some cap /\
    (5000000 <= cap)%Q /\
    dict_get kept "_24h_change_pct" = change_attached t.
Proof.
  intros t0 kept.
  destruct (proj1 pick_symbols_within_band_and_ceiling default_settings
              [t0] [kept] Examples.abc_caps kept)
    as (t & s & base & cap & H1 & H2 & H3 & H4 & H5 & _ & _ & H8 & _).
  - vm_compute. reflexivity.
  - left.
  - exists t, s, base, cap. repeat split; assumption.
Defined.

Lemma small_cap_entry_Raise (min_cap max_cap : Q) (caps : gmap string Q)
    (t : gmap string value) (e : exn) :
  small_cap_entry min_cap max_cap caps t = Raise e <->
  e = AttributeError /\ truthy (ticker_symbol t) = true /\
  forall s, ticker_symbol t <> VStr s.
Proof.
  unfold small_cap_entry. destruct (truthy (ticker_symbol t)) eqn:Htr.
  - destruct (ticker_symbol t) as [|b|q|x|s] eqn:Hsym.
    + discriminate Htr.
    + split; [intros [= <-]|].
      * repeat split; discriminate.
      * intros (-> & _). reflexivity.
    + split; [intros [= <-]|].
      * repeat split; discriminate.
      * intros (-> & _). reflexivity.
    + split; [intros [= <-]|].
      * repeat split; discriminate.
      * intros (-> & _). reflexivity.
    + split.
      * destruct (normalize s) as [base|]; [|discriminate].
        destruct (caps !! base) as [cap|]; [|discriminate].
        destruct (_ && _); discriminate.
      * intros (_ & _ & Hns). exfalso. exact (Hns s eq_refl).
  - split; [discriminate|]. intros (_ & H & _). discriminate H.
Qed.

(** X3. The filter raises exactly when some ticker has a truthy symbol
    that is not a string, and what it raises is the [AttributeError] of
    the missing [replace]; a ticker with no symbol and no instrument id
    is dropped without an error, and an instrument id stands in for a
    missing or empty symbol. *)
Theorem filter_small_caps_symbol_errors (min_cap max_cap : Q)
    (caps : gmap string Q) :
  (forall (ts : list (gmap string value)) (e : exn),
     filter_small_caps ts min_cap max_cap caps = Raise e <->
     e = AttributeError /\
     exists t, t ∈ ts /\ truthy (ticker_symbol t) = true /\
               forall s, ticker_symbol t <> VStr s) /\
  (forall t : gmap string value,
     truthy (dict_get t "symbol") = false ->
     truthy (dict_get t "instId") = false ->
     small_cap_entry min_cap max_cap caps t = Ok None) /\
  (forall (t : gmap string value) (s : string),
     truthy (dict_get t "symbol") = false ->
     dict_get t "instId" = VStr s -> s <> EmptyString ->
     ticker_symbol t = VStr s).
Proof.
  split; [|split].
  - intros ts e. induction ts as [|t ts IH]; simpl.
    + split; [discriminate|]. intros (_ & t & Hin & _). inversion Hin.
    + destruct (small_cap_entry min_cap max_cap caps t) as [kept|e0] eqn:He;
        simpl.
      * assert (Hstep : (filtered ← filter_small_caps ts min_cap max_cap caps;
                         Ok match kept with
                            | Some t' => t' :: filtered
                            | None => filtered
                            end) = Raise e <->
                        filter_small_caps ts min_cap max_cap caps = Raise e).
        { destruct (filter_small_caps ts min_cap max_cap caps); simpl;
            split; congruence. }
        rewrite Hstep, IH. split.
        -- intros (-> & t0 & Hin & H1 & H2). split; [reflexivity|].
           exists t0. split; [right; exact Hin|]. split; assumption.
        -- intros (-> & t0 & Hin & H1 & H2). split; [reflexivity|].
           apply elem_of_cons in Hin as [->|Hin].
           ++ exfalso.
              assert (small_cap_entry min_cap max_cap caps t
                      = Raise AttributeError) as Hr
                by (apply small_cap_entry_Raise; repeat split; assumption).
              congruence.
           ++ exists t0. split; [exact Hin|]. split; assumption.
      * apply small_cap_entry_Raise in He as (-> & H1 & H2). split.
        -- intros [= <-]. split; [reflexivity|].
           exists t. split; [left|]. split; assumption.
        -- intros (-> & _). reflexivity.
  - intros t Hs Hi. unfold small_cap_entry, ticker_symbol, py_or.
    rewrite Hs, Hi. reflexivity.
  - intros t s Hs Hi Hne. unfold ticker_symbol, py_or. rewrite Hs, Hi.
    simpl. apply String.eqb_neq in Hne. rewrite Hne. reflexivity.
Qed.

(** ** Market-cap resolver, continued *)

(** X4. The merge always returns.  With 50 entries or more the
    exchange-scoped mapping is returned as it is, whatever the generic
    listing holds; with fewer, a symbol for which the generic listing has
    a cap takes the generic value and any other symbol keeps its
    exchange-scoped entry, so no symbol of either mapping is lost. *)
Theorem merged_caps_lookup (cg_caps : gmap string Q)
    (fetch : nat -> option (list coin)) (pages : nat) :
  exists m,
    merged_caps cg_caps fetch pages = Ok m /\
    (50 <= size cg_caps -> m = cg_caps)%nat /\
    forall sym,
      m !! sym =
        if (size cg_caps <? 50)%nat then
          match observed sym (pages_read fetch 1 pages) with
          | [] => cg_caps !! sym
          | obs => middle obs
          end
        else cg_caps !! sym.
Proof.
  unfold merged_caps.
  destruct (Nat.ltb_spec (size cg_caps) 50) as [Hlt|Hge].
  - destruct (build_symbol_marketcap_map_lookup fetch pages)
      as (generic & -> & Hlook). simpl.
    eexists. split; [reflexivity|]. split; [lia|].
    intros sym. rewrite dict_update_lookup, Hlook.
    destruct (observed sym (pages_read fetch 1 pages)) as [|x r] eqn:Hobs;
      [reflexivity|].
    destruct (middle_is_Some (x :: r)) as [v ->]; [discriminate|reflexivity].
  - exists cg_caps. repeat split; reflexivity.
Qed.

Lemma collect_pages_stops (fetch : nat -> option (list coin)) (k n p : nat)
    (caps : gmap string (list Q)) :
  (k < n)%nat -> fetch (p + k)%nat = None ->
  collect_pages fetch p n caps = collect_pages fetch p k caps.
Proof.
  revert n p caps. induction k as [|k IH]; intros n p caps Hlt Hfail.
  - destruct n as [|n]; [lia|]. simpl. rewrite Nat.add_0_r in Hfail.
    rewrite Hfail. reflexivity.
  - destruct n as [|n]; [lia|]. simpl.
    destruct (fetch p) as [items|]; [|reflexivity].
    apply IH; [lia|]. rewrite <- Hfail. f_equal. lia.
Qed.

(** X5. The generic build stops at the first page whose request fails:
    when page [p] fails, asking for [p] pages or more gives what asking
    for [p - 1] pages gives, and the pages after [p] are not read. *)
Theorem generic_build_stops_at_failed_page
    (fetch : nat -> option (list coin)) (p pages : nat) :
  (1 <= p <= pages)%nat -> fetch p = None ->
  build_symbol_marketcap_map fetch pages =
  build_symbol_marketcap_map fetch (p - 1).
Proof.
  intros Hp Hfail. unfold build_symbol_marketcap_map.
  rewrite (collect_pages_stops fetch (p - 1) pages 1 ∅); [reflexivity|lia|].
  rewrite <- Hfail. f_equal. lia.
Qed.

Lemma generic_build_stops_at_failed_page_witness :
  build_symbol_marketcap_map
    (fun p => if (p =? 2)%nat then None else Examples.three_caps p) 8 =
  build_symbol_marketcap_map
    (fun p => if (p =? 2)%nat then None else Examples.three_caps p) 1.
Proof.
  apply (generic_build_stops_at_failed_page
           (fun p => if (p =? 2)%nat then None else Examples.three_caps p)
           2 8).
  - lia.
  - reflexivity.
Defined.

(** ** Exchange-scoped market caps *)

Lemma fromkeys_go_spec (l acc : list string) :
  NoDup acc ->
  let r := foldl (fun acc x => if bool_decide (x ∈ acc) then acc
                               else (acc ++ [x])%list) acc l in
  NoDup r /\ forall x, x ∈ r <-> x ∈ acc \/ x ∈ l.
Proof.
  revert acc. induction l as [|y l IH]; intros acc Hnd; simpl.
  - split; [exact Hnd|]. intros x. rewrite elem_of_nil. tauto.
  - destruct (bool_decide_reflect (y ∈ acc)) as [Hin|Hnin].
    + destruct (IH acc Hnd) as [H1 H2]. split; [exact H1|].
      intros x. rewrite H2, elem_of_cons. split; [tauto|].
      intros [H|[->|H]]; tauto.
    + assert (Hnd' : NoDup (acc ++ [y])).
      { apply NoDup_app. split; [exact Hnd|]. split.
        - intros x Hx Hy. apply list_elem_of_singleton in Hy as ->. tauto.
        - apply NoDup_singleton. }
      destruct (IH _ Hnd') as [H1 H2]. split; [exact H1|].
      intros x. rewrite H2, elem_of_app, list_elem_of_singleton, elem_of_cons.
      tauto.
Qed.

Lemma fromkeys_spec (l : list string) :
  NoDup (fromkeys l) /\ forall x, x ∈ fromkeys l <-> x ∈ l.
Proof.
  destruct (fromkeys_go_spec l [] (NoDup_nil_2)) as [H1 H2].
  split; [exact H1|]. intros x. unfold fromkeys. rewrite H2, elem_of_nil.
  tauto.
Qed.

(** The id a ticker contributes, if any. *)
Lemma add_ticker_id_elem (coin_ids : list string) (t : xticker) (x : string) :
  x ∈ add_ticker_id coin_ids t <->
  x ∈ coin_ids \/
  (PyStr.upper (target t) ∈ STABLE_TARGETS /\ x <> EmptyString /\
   x = (if String.eqb (coin_id t) EmptyString then coin_nested_id t
        else coin_id t)).
Proof.
  unfold add_ticker_id.
  destruct (bool_decide_reflect (PyStr.upper (target t) ∈ STABLE_TARGETS))
    as [Hst|Hst]; [|tauto].
  set (cid := if String.eqb (coin_id t) EmptyString then coin_nested_id t
              else coin_id t).
  destruct (String.eqb_spec cid EmptyString) as [Hc|Hc].
  - split; [tauto|]. intros [H|(_ & Hx & ->)]; [exact H|contradiction].
  - rewrite elem_of_app, list_elem_of_singleton. split.
    + intros [H| ->]; [left; exact H|right]. repeat split; assumption.
    + intros [H|(_ & _ & ->)]; tauto.
Qed.

Lemma foldl_add_ticker_id_elem (ts : list xticker) (coin_ids : list string)
    (x : string) :
  x ∈ foldl add_ticker_id coin_ids ts <->
  x ∈ coin_ids \/
  exists t, t ∈ ts /\ PyStr.upper (target t) ∈ STABLE_TARGETS /\
            x <> EmptyString /\
            x = (if String.eqb (coin_id t) EmptyString then coin_nested_id t
                 else coin_id t).
Proof.
  revert coin_ids. induction ts as [|t ts IH]; intros coin_ids; simpl.
  - split; [tauto|]. intros [H|(t & Hin & _)]; [exact H|inversion Hin].
  - rewrite IH, add_ticker_id_elem. split.
    + intros [[H|H]|(t0 & Hin & H)].
      * left. exact H.
      * right. exists t. split; [left|exact H].
      * right. exists t0. split; [right; exact Hin|exact H].
    + intros [H|(t0 & Hin & H)]; [tauto|].
      apply elem_of_cons in Hin as [->|Hin]; [tauto|].
      right. exists t0. split; assumption.
Qed.

Lemma collect_coin_ids_elem (fetch : nat -> option (list xticker)) (n p : nat)
    (coin_ids : list string) (x : string) :
  x ∈ collect_coin_ids fetch p n coin_ids <->
  x ∈ coin_ids \/
  exists t, t ∈ xpages_read fetch p n /\
            PyStr.upper (target t) ∈ STABLE_TARGETS /\
            x <> EmptyString /\
            x = (if String.eqb (coin_id t) EmptyString then coin_nested_id t
                 else coin_id t).
Proof.
  revert p coin_ids. induction n as [|n IH]; intros p coin_ids; simpl.
  - split; [tauto|]. intros [H|(t & Hin & _)]; [exact H|inversion Hin].
  - destruct (fetch p) as [[|t0 ts]|].
    + split; [tauto|]. intros [H|(t & Hin & _)]; [exact H|inversion Hin].
    + rewrite IH, foldl_add_ticker_id_elem. split.
      * intros [[H|(t & Hin & H)]|(t & Hin & H)].
        -- left. exact H.
        -- right. exists t. split; [apply elem_of_app; left; exact Hin|exact H].
        -- right. exists t. split; [apply elem_of_app; right; exact Hin|exact H].
      * intros [H|(t & Hin & H)]; [tauto|].
        apply elem_of_app in Hin as [Hin|Hin].
        -- left. right. exists t. split; assumption.
        -- right. exists t. split; assumption.
    + split; [tauto|]. intros [H|(t & Hin & _)]; [exact H|inversion Hin].
Qed.

(** X6. The coin ids the exchange-scoped build asks market data for are
    pairwise distinct, and they are exactly the non-empty ids (the
    ["coin_id"] field, or else the id under ["coin"]) of the tickers
    quoted in USDT, USDC or USD on the pages read; the tickers quoted in
    another asset contribute nothing. *)
Theorem exchange_coin_ids_are_stable_and_distinct
    (fetch : nat -> option (list xticker)) (pages : nat) :
  let coin_ids := fromkeys (collect_coin_ids fetch 1 pages []) in
  NoDup coin_ids /\
  forall x,
    x ∈ coin_ids <->
    exists t, t ∈ xpages_read fetch 1 pages /\
              PyStr.upper (target t) ∈ STABLE_TARGETS /\
              x <> EmptyString /\
              x = (if String.eqb (coin_id t) EmptyString then coin_nested_id t
                   else coin_id t).
Proof.
  intros coin_ids.
  destruct (fromkeys_spec (collect_coin_ids fetch 1 pages [])) as [Hnd Hel].
  split; [exact Hnd|]. intros x. unfold coin_ids.
  rewrite Hel, collect_coin_ids_elem, elem_of_nil. tauto.
Qed.

Lemma ceil_div_bounds (len size : nat) :
  (0 < size)%nat ->
  let q := ((len + size - 1) / size)%nat in
  (len <= q * size)%nat /\ forall j, (j < q)%nat -> (j * size < len)%nat.
Proof.
  intros Hsize q.
  pose proof (Nat.div_mod_eq (len + size - 1) size) as Hdm.
  pose proof (Nat.mod_upper_bound (len + size - 1) size) as Hmod.
  fold q in Hdm. split.
  - nia.
  - intros j Hj. nia.
Qed.

Lemma concat_slices {A : Type} (size : nat) (l : list A) (n k : nat) :
  concat ((fun i => take size (drop i l))
            <$> ((fun j => (j * size)%nat) <$> seq k n)) =
  take (n * size) (drop (k * size) l).
Proof.
  revert k. induction n as [|n IH]; intros k; [reflexivity|].
  cbn [seq fmap list_fmap concat]. fold (@fmap list _ nat nat).
  change (concat (take size (drop (k * size) l)
            :: ((fun i => take size (drop i l))
                  <$> ((fun j => (j * size)%nat) <$> seq (S k) n))))
    with (take size (drop (k * size) l)
          ++ concat ((fun i => take size (drop i l))
                       <$> ((fun j => (j * size)%nat) <$> seq (S k) n)))%list.
  rewrite IH.
  replace (S k * size)%nat with (k * size + size)%nat by lia.
  rewrite <- drop_drop, take_take_drop. reflexivity.
Qed.

(** X7. The ids are requested in slices that, put end to end, give the
    list of ids back, each slice holding at least one id and at most the
    chunk size: every id is asked for once, none is left out, and no
    request is made for an empty slice. *)
Theorem chunks_partition {A : Type} (size : nat) (l : list A) :
  (0 < size)%nat ->
  concat (chunks size l) = l /\
  Forall (fun part => (0 < length part <= size)%nat) (chunks size l).
Proof.
  intros Hsize. unfold chunks, range_step.
  destruct (ceil_div_bounds (length l) size Hsize) as [Hup Hlow].
  split.
  - rewrite concat_slices. simpl. rewrite drop_0. apply take_ge. lia.
  - apply Forall_fmap, Forall_fmap, Forall_forall. intros j Hj. simpl.
    apply elem_of_seq in Hj. rewrite length_take, length_drop.
    specialize (Hlow j). lia.
Qed.

Lemma chunks_partition_witness :
  concat (chunks 2 [1; 2; 3; 4; 5]%nat) = [1; 2; 3; 4; 5]%nat.
Proof. apply (chunks_partition 2 [1; 2; 3; 4; 5]%nat). lia. Defined.

(** The larger cap seen so far, starting from [start]. *)
Lemma py_max_fold_spec (obs : list Q) (start : Q) :
  let v := foldl (fun acc mc => py_max mc acc) start obs in
  (start <= v)%Q /\ Forall (fun c => (c <= v)%Q) obs /\
  (v ∈ obs \/ v = start).
Proof.
  revert start. induction obs as [|mc obs IH]; intros start; simpl.
  - split; [apply Qle_refl|]. split; [constructor|right; reflexivity].
  - destruct (IH (py_max mc start)) as (H1 & H2 & H3).
    assert (Hmax : (start <= py_max mc start)%Q /\ (mc <= py_max mc start)%Q
                   /\ (py_max mc start = mc \/ py_max mc start = start)).
    { unfold py_max. destruct (Qlt_bool mc start) eqn:Hlt.
      - apply Qlt_bool_iff in Hlt. split; [apply Qle_refl|].
        split; [apply Qlt_le_weak, Hlt|right; reflexivity].
      - split; [|split; [apply Qle_refl|left; reflexivity]].
        unfold Qlt_bool in Hlt. apply negb_false_iff, Qle_bool_iff in Hlt.
        exact Hlt. }
    destruct Hmax as (Hs & Hm & Hor). split; [|split].
    + eapply Qle_trans; [exact Hs|exact H1].
    + constructor; [eapply Qle_trans; [exact Hm|exact H1]|exact H2].
    + destruct H3 as [H3|H3]; [left; right; exact H3|]. rewrite H3.
      destruct Hor as [-> | ->]; [left; left|right; reflexivity].
Qed.

Lemma caps_of_cons (sym : string) (m : coin) (markets : list coin) :
  caps_of sym (m :: markets) =
    (caps_of sym [m] ++ caps_of sym markets)%list.
Proof.
  unfold caps_of. destruct (String.eqb sym EmptyString); [reflexivity|].
  change (m :: markets) with ([m] ++ markets)%list. apply observed_app.
Qed.

Lemma add_market_lookup (caps : gmap string Q) (m : coin) (sym : string) :
  add_market caps m !! sym =
    match caps_of sym [m] with
    | [] => caps !! sym
    | obs => Some (foldl (fun acc mc => py_max mc acc)
                     (default 0%Q (caps !! sym)) obs)
    end.
Proof.
  unfold add_market, caps_of, observed. simpl.
  destruct (String.eqb_spec sym EmptyString) as [->|Hsym].
  - destruct (market_cap m) as [mc|]; [|reflexivity].
    destruct (String.eqb_spec (PyStr.upper (coin_symbol m)) EmptyString)
      as [_|Hne]; [reflexivity|].
    rewrite lookup_insert_ne by exact Hne. reflexivity.
  - destruct (String.eqb_spec (PyStr.upper (coin_symbol m)) sym) as [Heq|Hne].
    + destruct (market_cap m) as [mc|]; [|reflexivity]. simpl.
      rewrite Heq. apply String.eqb_neq in Hsym. rewrite Hsym.
      rewrite lookup_insert_eq. reflexivity.
    + destruct (market_cap m) as [mc|]; [|reflexivity]. simpl.
      destruct (String.eqb (PyStr.upper (coin_symbol m)) EmptyString);
        [reflexivity|].
      rewrite lookup_insert_ne by exact Hne. reflexivity.
Qed.

Lemma foldl_add_market_lookup (markets : list coin) (caps : gmap string Q)
    (sym : string) :
  foldl add_market caps markets !! sym =
    match caps_of sym markets with
    | [] => caps !! sym
    | obs => Some (foldl (fun acc mc => py_max mc acc)
                     (default 0%Q (caps !! sym)) obs)
    end.
Proof.
  revert caps. induction markets as [|m markets IH]; intros caps.
  - unfold caps_of. destruct (String.eqb sym EmptyString); reflexivity.
  - cbn [foldl]. rewrite IH, caps_of_cons, add_market_lookup.
    destruct (caps_of sym [m]) as [|x xs] eqn:H1; [reflexivity|].
    destruct (caps_of sym markets) as [|y ys] eqn:H2.
    + rewrite app_nil_r. reflexivity.
    + cbn [default from_option id]. rewrite <- app_comm_cons, foldl_app.
      reflexivity.
Qed.

Lemma foldl_add_chunk (http : list string -> option (list coin))
    (parts : list (list string)) (caps : gmap string Q) :
  foldl (add_chunk http) caps parts =
  foldl add_market caps (markets_received http parts).
Proof.
  revert caps. induction parts as [|part parts IH]; intros caps;
    [reflexivity|].
  cbn [foldl]. rewrite IH. unfold markets_received. cbn [omap list_omap].
  unfold add_chunk. destruct (coingecko_markets_by_ids http part) as [ms|];
    [|reflexivity].
  cbn [concat]. rewrite foldl_app. reflexivity.
Qed.

(** X8. In the exchange-scoped mapping a symbol has an entry exactly when
    a market record received for it carries a cap, and the entry is at
    least every such cap and never below zero: it is the largest cap
    received, or zero when all of them are negative.  The records of a
    chunk whose request fails are missing, those of the other chunks are
    all counted. *)
Theorem exchange_caps_are_floored_maxima
    (fetch : nat -> option (list xticker))
    (http : list string -> option (list coin)) (pages : nat) (sym : string) :
  let coin_ids := fromkeys (collect_coin_ids fetch 1 pages []) in
  let received := markets_received http (chunks 200 coin_ids) in
  match build_marketcap_map_from_exchange fetch http pages !! sym with
  | None => caps_of sym received = []
  | Some v =>
      caps_of sym received <> [] /\ (0 <= v)%Q /\
      Forall (fun c => (c <= v)%Q) (caps_of sym received) /\
      (v ∈ caps_of sym received \/ v = 0%Q)
  end.
Proof.
  intros coin_ids received.
  assert (Hbuild : build_marketcap_map_from_exchange fetch http pages =
                   foldl add_market ∅ received).
  { unfold build_marketcap_map_from_exchange. fold coin_ids.
    unfold received. rewrite <- foldl_add_chunk.
    destruct coin_ids; reflexivity. }
  rewrite Hbuild, foldl_add_market_lookup, lookup_empty.
  destruct (caps_of sym received) as [|x xs] eqn:Hobs; [reflexivity|].
  cbn [default from_option].
  destruct (py_max_fold_spec (x :: xs) 0%Q) as (H1 & H2 & H3).
  split; [discriminate|]. split; [exact H1|]. split; [exact H2|exact H3].
Qed.

(** ** Candles *)

(** X9. The row selection of [bitget_candles] (lines 63 to 66; the frame
    is built from the selected rows afterwards, and rows with a missing
    value are then dropped from it).  Of a response that lists the most
    recent candle first, the rows selected for a positive [limit] are the
    [limit] most recent candles, oldest first; all the rows are selected,
    oldest first, when [limit] is zero or there are no more than [limit]
    of them; so a positive [limit] never selects more than [limit] rows.
    A negative [limit] leaves out the [- limit] oldest rows. *)
Theorem recent_rows_keeps_latest {A : Type} (limit : Z) (rows : list A) :
  ((0 < limit)%Z ->
   recent_rows limit rows = rev (take (Z.to_nat limit) rows) /\
   (length (recent_rows limit rows) <= Z.to_nat limit)%nat) /\
  (limit = 0%Z \/ (Z.of_nat (length rows) <= limit)%Z ->
   recent_rows limit rows = rev rows) /\
  ((limit < 0)%Z ->
   recent_rows limit rows = drop (Z.to_nat (- limit)) (rev rows)).
Proof.
  unfold recent_rows. rewrite length_rev. split; [|split].
  - intros Hpos.
    assert (H : (if negb (limit =? 0)%Z && (limit <? Z.of_nat (length rows))%Z
                 then if (0 <? limit)%Z
                      then drop (length rows - Z.to_nat limit) (rev rows)
                      else drop (Z.to_nat (- limit)) (rev rows)
                 else rev rows) = rev (take (Z.to_nat limit) rows)).
    { destruct (Z.eqb_spec limit 0) as [->|_]; [lia|]. cbn [negb andb].
      destruct (Z.ltb_spec limit (Z.of_nat (length rows))) as [Hlt|Hge].
      - destruct (Z.ltb_spec 0 limit) as [_|]; [|lia].
        rewrite <- (take_drop (Z.to_nat limit) rows) at 2.
        rewrite rev_app_distr, drop_app_length'; [reflexivity|].
        rewrite length_rev, length_drop. lia.
      - rewrite take_ge by lia. reflexivity. }
    rewrite H. split; [reflexivity|].
    rewrite length_rev, length_take. lia.
  - intros [->|Hle]; [reflexivity|].
    destruct (Z.ltb_spec limit (Z.of_nat (length rows))) as [|_]; [lia|].
    rewrite andb_false_r. reflexivity.
  - intros Hneg.
    destruct (Z.eqb_spec limit 0) as [->|_]; [lia|]. cbn [negb andb].
    destruct (Z.ltb_spec limit (Z.of_nat (length rows))) as [_|]; [|lia].
    destruct (Z.ltb_spec 0 limit) as [|_]; [lia|]. reflexivity.
Qed.

Lemma recent_rows_keeps_latest_witness :
  (recent_rows 2 [5; 4; 3; 2; 1]%nat = [4; 5]%nat /\
   (length (recent_rows 2 [5; 4; 3; 2; 1]%nat) <= 2)%nat) /\
  recent_rows 7 [5; 4; 3; 2; 1]%nat = [1; 2; 3; 4; 5]%nat /\
  recent_rows (-2) [5; 4; 3; 2; 1]%nat = [3; 4; 5]%nat.
Proof.
  split; [|split].
  - apply (proj1 (recent_rows_keeps_latest 2 [5; 4; 3; 2; 1]%nat)). lia.
  - apply (proj1 (proj2 (recent_rows_keeps_latest 7 [5; 4; 3; 2; 1]%nat))).
    right. simpl. lia.
  - apply (proj2 (proj2 (recent_rows_keeps_latest (-2) [5; 4; 3; 2; 1]%nat))).
    lia.
Defined.

(** ** Indicator engine *)

Lemma col_assign (df : DataFrame) (c c' : string) (s : list cell) :
  Frame.col (Frame.assign df c s) c' =
    if String.eqb c' c then Ok (Series.align (nrows df) s)
    else Frame.col df c'.
Proof.
  unfold Frame.col, Frame.assign. cbn [columns]. rewrite dict_get_set.
  destruct (String.eqb c' c); reflexivity.
Qed.

Lemma align_length (n : nat) (s : list cell) :
  length (Series.align n s) = n.
Proof.
  unfold Series.align. rewrite length_take, List.length_app, length_replicate. lia.
Qed.

Lemma align_id (n : nat) (s : list cell) :
  length s = n -> Series.align n s = s.
Proof.
  intros <-. unfold Series.align. rewrite Nat.sub_diag. simpl.
  rewrite app_nil_r. apply take_ge. lia.
Qed.

Lemma has_col (df : DataFrame) (c : string) :
  Frame.has df c = true <-> exists s, Frame.col df c = Ok s.
Proof.
  unfold Frame.has, Frame.col. destruct (PyDict.get (columns df) c).
  - split; eauto.
  - split; [discriminate|]. intros [s H]. discriminate H.
Qed.

Lemma ensure_ohlcv_spec (df : DataFrame) :
  (ensure_ohlcv df = Ok df /\
   Forall (fun c => Frame.has df c = true)
     ["open"; "high"; "low"; "close"; "volume"]) \/
  (ensure_ohlcv df = Raise ValueError /\
   exists c, c ∈ ["open"; "high"; "low"; "close"; "volume"] /\
             Frame.has df c = false).
Proof.
  unfold ensure_ohlcv.
  destruct (List.filter _ _) as [|c0 rest] eqn:Hf.
  - left. split; [reflexivity|]. apply Forall_forall. intros c Hc.
    destruct (Frame.has df c) eqn:Hh; [reflexivity|]. exfalso.
    assert (Hin : In c (List.filter (fun c => negb (Frame.has df c))
                          ["open"; "high"; "low"; "close"; "volume"])).
    { apply List.filter_In. split; [apply list_elem_of_In, Hc|].
      rewrite Hh. reflexivity. }
    rewrite Hf in Hin. exact Hin.
  - right. split; [reflexivity|]. exists c0.
    assert (Hin : In c0 (List.filter (fun c => negb (Frame.has df c))
                           ["open"; "high"; "low"; "close"; "volume"])).
    { rewrite Hf. left. reflexivity. }
    apply List.filter_In in Hin as [Hin Hneg]. split.
    + apply list_elem_of_In, Hin.
    + apply negb_true_iff, Hneg.
Qed.

(** The frame [add_indicators] returns, column by column. *)
Lemma add_indicators_col `{TA} (df df' : DataFrame) :
  add_indicators df = Ok df' ->
  exists close high low volume,
    Frame.col df "close" = Ok close /\ Frame.col df "high" = Ok high /\
    Frame.col df "low" = Ok low /\ Frame.col df "volume" = Ok volume /\
    nrows df' = nrows df /\
    forall c,
      Frame.col df' c =
        if String.eqb c "vol_ma20"
        then Ok (Series.align (nrows df) (Series.rolling_mean 20 volume))
        else if String.eqb c "ema200"
        then Ok (Series.align (nrows df) (ema_indicator 200 close))
        else if String.eqb c "ema50"
        then Ok (Series.align (nrows df) (ema_indicator 50 close))
        else if String.eqb c "ema20"
        then Ok (Series.align (nrows df) (ema_indicator 20 close))
        else if String.eqb c "macd_signal"
        then Ok (Series.align (nrows df) (macd_signal close))
        else if String.eqb c "macd"
        then Ok (Series.align (nrows df) (macd close))
        else if String.eqb c "mfi"
        then Ok (Series.align (nrows df)
                   (money_flow_index 14 high low close volume))
        else if String.eqb c "rsi"
        then Ok (Series.align (nrows df) (rsi 14 close))
        else Frame.col df c.
Proof.
  unfold add_indicators. intros H0.
  apply bind_Ok in H0 as (d & Hd & H0). apply ensure_ohlcv_Ok in Hd as ->.
  apply bind_Ok in H0 as (close & Hclose & H0).
  apply bind_Ok in H0 as (high & Hhigh & H0).
  apply bind_Ok in H0 as (low & Hlow & H0).
  apply bind_Ok in H0 as (volume & Hvol & H0).
  apply bind_Ok in H0 as (volume' & Hvol' & H0).
  rewrite !col_assign in Hhigh. rewrite !col_assign in Hlow.
  rewrite !col_assign in Hvol. rewrite !col_assign in Hvol'.
  cbv beta iota delta [String.eqb Ascii.eqb Bool.eqb] in Hhigh.
  cbv beta iota delta [String.eqb Ascii.eqb Bool.eqb] in Hlow.
  cbv beta iota delta [String.eqb Ascii.eqb Bool.eqb] in Hvol.
  cbv beta iota delta [String.eqb Ascii.eqb Bool.eqb] in Hvol'.
  rewrite Hvol in Hvol'. injection Hvol' as <-.
  injection H0 as <-. exists close, high, low, volume.
  repeat (split; [assumption || reflexivity|]).
  intros c. rewrite !col_assign. reflexivity.
Qed.

(** X10. [add_indicators] fails exactly when one of the columns open,
    high, low, close, volume is missing, and then with a [ValueError].
    Otherwise it returns a frame with the same rows, in which the eight
    indicator columns are present, each as long as the index, and every
    other column is what it was in the input. *)
Theorem add_indicators_keeps_frame `{TA} (df : DataFrame) :
  (forall e,
     add_indicators df = Raise e <->
     e = ValueError /\
     exists c, c ∈ ["open"; "high"; "low"; "close"; "volume"] /\
               Frame.has df c = false) /\
  (forall df',
     add_indicators df = Ok df' ->
     nrows df' = nrows df /\
     (forall c,
        c ∈ ["rsi"; "mfi"; "macd"; "macd_signal"; "ema20"; "ema50";
             "ema200"; "vol_ma20"] ->
        exists s, Frame.col df' c = Ok s /\ length s = nrows df) /\
     (forall c,
        c ∉ ["rsi"; "mfi"; "macd"; "macd_signal"; "ema20"; "ema50";
             "ema200"; "vol_ma20"] ->
        Frame.col df' c = Frame.col df c)).
Proof.
  split.
  - intros e. destruct (ensure_ohlcv_spec df) as [[Hok Hall]|[Hbad Hmiss]].
    + split.
      * intros Hr. exfalso. unfold add_indicators in Hr. rewrite Hok in Hr.
        simpl in Hr.
        assert (Hcol : forall c, c ∈ ["open"; "high"; "low"; "close"; "volume"]
                       -> exists s, Frame.col df c = Ok s).
        { intros c Hc. apply has_col. rewrite Forall_forall in Hall.
          apply Hall, Hc. }
        destruct (Hcol "close") as [close Hclose]; [repeat constructor|].
        destruct (Hcol "high") as [high Hhigh]; [repeat constructor|].
        destruct (Hcol "low") as [low Hlow]; [repeat constructor|].
        destruct (Hcol "volume") as [volume Hvol]; [repeat constructor|].
        rewrite Hclose in Hr. simpl in Hr.
        rewrite !col_assign in Hr.
        cbv beta iota delta [String.eqb Ascii.eqb Bool.eqb] in Hr.
        rewrite Hhigh, Hlow, Hvol in Hr. simpl in Hr.
        rewrite !col_assign in Hr.
        cbv beta iota delta [String.eqb Ascii.eqb Bool.eqb] in Hr.
        rewrite Hvol in Hr. discriminate Hr.
      * intros (_ & c & Hc & Hh). rewrite Forall_forall in Hall.
        rewrite (Hall c Hc) in Hh. discriminate Hh.
    + unfold add_indicators. rewrite Hbad. simpl. split.
      * intros [= <-]. split; [reflexivity|exact Hmiss].
      * intros [-> _]. reflexivity.
  - intros df' Hok.
    destruct (add_indicators_col df df' Hok)
      as (close & high & low & volume & _ & _ & _ & _ & Hn & Hcol).
    split; [exact Hn|]. split.
    + intros c Hc. rewrite Hcol.
      repeat (apply elem_of_cons in Hc as [->|Hc]);
        try (inversion Hc; fail);
        cbv beta iota delta [String.eqb Ascii.eqb Bool.eqb];
        eexists; (split; [reflexivity|apply align_length]).
    + intros c Hc. rewrite Hcol.
      repeat match goal with
             | |- context [String.eqb c ?k] =>
                 destruct (String.eqb_spec c k) as [->|?];
                 [exfalso; apply Hc; repeat constructor|]
             end.
      reflexivity.
Qed.

Lemma rolling_mean_length (w : nat) (s : list cell) :
  length (Series.rolling_mean w s) = length s.
Proof. unfold Series.rolling_mean. rewrite length_fmap, length_seq. reflexivity. Qed.

Lemma rolling_mean_last (w : nat) (s : list cell) :
  (0 < length s)%nat ->
  last (Series.rolling_mean w s) =
    Some (if (length s <? w)%nat then NaN
          else Series.mean (take w (drop (length s - w) s))).
Proof.
  intros Hlen. rewrite last_lookup, rolling_mean_length.
  unfold Series.rolling_mean. rewrite list_lookup_fmap.
  rewrite lookup_seq_lt by lia. simpl.
  replace (S (Init.Nat.pred (length s))) with (length s) by lia.
  reflexivity.
Qed.

(** X11. On a frame that [add_indicators] returned, the volume-spike
    helper raises an [IndexError] when there is no candle, answers false
    when there are fewer than 20 candles (the moving average of the volume
    is not defined yet), and with 20 candles or more answers whether the
    latest volume is strictly above [multiple] times the mean of the last
    20 volumes. *)
Theorem volume_spike_needs_20_candles `{TA} (df df' : DataFrame)
    (volume : list cell) (multiple : Q) :
  add_indicators df = Ok df' ->
  Frame.col df "volume" = Ok volume -> length volume = nrows df ->
  (nrows df = 0%nat -> volume_spike df' multiple = Raise IndexError) /\
  ((0 < nrows df < 20)%nat -> volume_spike df' multiple = Ok false) /\
  ((20 <= nrows df)%nat ->
   exists v,
     last volume = Some v /\
     volume_spike df' multiple =
       Ok (Cell.ltb
             (Cell.mul (Fin multiple)
                (Series.mean (drop (nrows df - 20) volume))) v)).
Proof.
  intros Hadd Hvol Hlen.
  destruct (add_indicators_col df df' Hadd)
    as (close & high & low & volume0 & _ & _ & _ & Hvol0 & _ & Hcol).
  rewrite Hvol in Hvol0. injection Hvol0 as <-.
  assert (Hma : Frame.col df' "vol_ma20" = Ok (Series.rolling_mean 20 volume)).
  { rewrite Hcol. cbv beta iota delta [String.eqb Ascii.eqb Bool.eqb].
    rewrite align_id; [reflexivity|]. rewrite rolling_mean_length. exact Hlen. }
  assert (Hv : Frame.col df' "volume" = Ok volume).
  { rewrite Hcol. cbv beta iota delta [String.eqb Ascii.eqb Bool.eqb].
    exact Hvol. }
  unfold volume_spike. rewrite Hma. simpl. split; [|split].
  - intros Hz. rewrite Hz in Hlen. destruct volume; [reflexivity|discriminate].
  - intros Hn.
    rewrite (iloc_last _ _ (rolling_mean_last 20 volume ltac:(lia))). simpl.
    destruct (Nat.ltb_spec (length volume) 20) as [_|Hge]; [reflexivity|lia].
  - intros Hn.
    destruct (last volume) as [v|] eqn:Hlast.
    2:{ rewrite last_lookup in Hlast. apply lookup_ge_None in Hlast. lia. }
    exists v. split; [reflexivity|].
    rewrite (iloc_last _ _ (rolling_mean_last 20 volume ltac:(lia))). simpl.
    destruct (Nat.ltb_spec (length volume) 20) as [Hlt|_]; [lia|].
    rewrite (take_ge (drop (length volume - 20) volume))
      by (rewrite length_drop; lia).
    rewrite <- Hlen.
    destruct (Series.mean (drop (length volume - 20) volume)) as [|ma] eqn:Hm;
      simpl; [reflexivity|].
    rewrite Hv. simpl. rewrite (iloc_last volume v Hlast). simpl.
    reflexivity.
Qed.

Lemma volume_spike_needs_20_candles_witness :
  exists df',
    @add_indicators (Examples.fixed_rsi []) (Examples.flat 2) = Ok df' /\
    volume_spike df' 2 = Ok false.
Proof.
  eexists. split; [vm_compute; reflexivity|].
  eapply (fun H1 H2 H3 =>
            proj1 (proj2 (@volume_spike_needs_20_candles
                            (Examples.fixed_rsi []) (Examples.flat 2) _
                            [Fin 1; Fin 1] 2 H1 H2 H3))).
  - vm_compute. reflexivity.
  - reflexivity.
  - reflexivity.
  - simpl. lia.
Defined.

(** ** Signal scorer, continued *)

Lemma add_indicators_total `{TA} (df : DataFrame) :
  Forall (fun c => Frame.has df c = true)
    ["open"; "high"; "low"; "close"; "volume"] ->
  exists df', add_indicators df = Ok df'.
Proof.
  intros Hall. rewrite Forall_forall in Hall.
  assert (Hcol : forall c, c ∈ ["open"; "high"; "low"; "close"; "volume"]
                 -> exists s, Frame.col df c = Ok s).
  { intros c Hc. apply has_col, Hall, Hc. }
  destruct (Hcol "close") as [close Hclose]; [repeat constructor|].
  destruct (Hcol "high") as [high Hhigh]; [repeat constructor|].
  destruct (Hcol "low") as [low Hlow]; [repeat constructor|].
  destruct (Hcol "volume") as [volume Hvol]; [repeat constructor|].
  unfold add_indicators.
  destruct (ensure_ohlcv_spec df) as [[-> _]|[_ (c & Hc & Hh)]].
  2:{ rewrite (Hall c Hc) in Hh. discriminate Hh. }
  simpl. rewrite Hclose. simpl. rewrite !col_assign.
  cbv beta iota delta [String.eqb Ascii.eqb Bool.eqb].
  rewrite Hhigh, Hlow, Hvol. simpl. rewrite !col_assign.
  cbv beta iota delta [String.eqb Ascii.eqb Bool.eqb].
  rewrite Hvol. simpl. eexists. reflexivity.
Qed.

(** The columns of the frame [add_indicators] returns are as long as its
    index when those of the input are. *)
Lemma add_indicators_columns `{TA} (df df' : DataFrame) :
  add_indicators df = Ok df' ->
  (forall c s, Frame.col df c = Ok s -> length s = nrows df) ->
  (forall c s, Frame.col df' c = Ok s -> length s = nrows df') /\
  (forall c,
     c ∈ ["high"; "close"; "volume"; "rsi"; "macd"; "macd_signal"; "ema20";
          "ema50"; "ema200"; "vol_ma20"] ->
     exists s, Frame.col df' c = Ok s).
Proof.
  intros Hadd Hwf.
  destruct (add_indicators_col df df' Hadd)
    as (close & high & low & volume & Hc & Hh & Hl & Hv & Hn & Hcol).
  split.
  - intros c s. rewrite Hcol, Hn.
    repeat match goal with
           | |- context [String.eqb c ?k] => destruct (String.eqb c k)
           end;
      try (intros [= <-]; apply align_length).
    apply Hwf.
  - intros c Hin. rewrite Hcol.
    repeat (apply elem_of_cons in Hin as [->|Hin]);
      try (inversion Hin; fail);
      cbv beta iota delta [String.eqb Ascii.eqb Bool.eqb]; eauto.
Qed.

Lemma iloc_Ok (s : list cell) (k : positive) :
  (Pos.to_nat k <= length s)%nat -> exists x, Series.iloc s (Z.neg k) = Ok x.
Proof.
  intros Hk. unfold Series.iloc. change (Z.neg k <? 0)%Z with true. cbv iota.
  replace (0 <=? Z.neg k + Z.of_nat (length s))%Z with true
    by (symmetry; apply Z.leb_le; lia).
  replace (Z.neg k + Z.of_nat (length s) <? Z.of_nat (length s))%Z with true
    by (symmetry; apply Z.ltb_lt; lia).
  simpl.
  destruct (s !! Z.to_nat (Z.neg k + Z.of_nat (length s))) as [x|] eqn:Hx;
    [eauto|].
  apply lookup_ge_None in Hx. lia.
Qed.

Lemma latest_Ok (df : DataFrame) (c : string) :
  (forall c s, Frame.col df c = Ok s -> length s = nrows df) ->
  (exists s, Frame.col df c = Ok s) -> (0 < nrows df)%nat ->
  exists x, latest df c = Ok x.
Proof.
  intros Hwf [s Hs] Hn. unfold latest. rewrite Hs. simpl.
  apply (iloc_Ok s 1). rewrite (Hwf c s Hs). lia.
Qed.

Lemma latest_empty (df : DataFrame) (c : string) :
  (forall c s, Frame.col df c = Ok s -> length s = nrows df) ->
  (exists s, Frame.col df c = Ok s) -> nrows df = 0%nat ->
  latest df c = Raise IndexError.
Proof.
  intros Hwf [s Hs] Hn. unfold latest. rewrite Hs. simpl.
  pose proof (Hwf c s Hs) as Hlen. rewrite Hn in Hlen.
  destruct s; [reflexivity|discriminate].
Qed.

Lemma crossings_returns (df1 : DataFrame) (conds : list (string * bool)) :
  (forall c s, Frame.col df1 c = Ok s -> length s = nrows df1) ->
  (forall c, c ∈ ["rsi"; "macd"; "macd_signal"] ->
             exists s, Frame.col df1 c = Ok s) ->
  exists conds', crossings df1 conds = Ok conds'.
Proof.
  intros Hwf Hex. unfold crossings.
  destruct (Nat.leb_spec 2 (nrows df1)) as [Hn|Hn]; [|eauto].
  destruct (Hex "rsi") as [r Hr]; [repeat constructor|].
  destruct (Hex "macd") as [mc Hmc]; [repeat constructor|].
  destruct (Hex "macd_signal") as [sg Hsg]; [repeat constructor|].
  pose proof (Hwf _ _ Hr) as Lr. pose proof (Hwf _ _ Hmc) as Lm.
  pose proof (Hwf _ _ Hsg) as Ls.
  destruct (iloc_Ok r 2) as [r2 Hr2]; [lia|].
  destruct (iloc_Ok r 1) as [r1 Hr1]; [lia|].
  destruct (iloc_Ok mc 2) as [m2 Hm2]; [lia|].
  destruct (iloc_Ok mc 1) as [m1 Hm1]; [lia|].
  destruct (iloc_Ok sg 2) as [s2 Hs2]; [lia|].
  destruct (iloc_Ok sg 1) as [s1 Hs1]; [lia|].
  rewrite Hr. simpl. rewrite Hr2. simpl. rewrite Hr1. simpl.
  rewrite Hmc. simpl. rewrite Hsg. simpl. rewrite Hm2. simpl.
  rewrite Hs2. simpl. rewrite Hm1. simpl. rewrite Hs1. simpl.
  eauto.
Qed.

Lemma volume_spike_returns (df : DataFrame) (multiple : Q) :
  (forall c s, Frame.col df c = Ok s -> length s = nrows df) ->
  (forall c, c ∈ ["volume"; "vol_ma20"] -> exists s, Frame.col df c = Ok s) ->
  (0 < nrows df)%nat ->
  exists b, volume_spike df multiple = Ok b.
Proof.
  intros Hwf Hex Hn. unfold volume_spike.
  destruct (Hex "vol_ma20") as [ma Hma]; [repeat constructor|].
  destruct (Hex "volume") as [vol Hvol]; [repeat constructor|].
  destruct (iloc_Ok ma 1) as [x Hx]; [rewrite (Hwf _ _ Hma); lia|].
  destruct (iloc_Ok vol 1) as [v Hv]; [rewrite (Hwf _ _ Hvol); lia|].
  rewrite Hma. simpl. rewrite Hx. simpl.
  destruct (Cell.isna x); [eauto|].
  rewrite Hvol. simpl. rewrite Hv. simpl. eauto.
Qed.

Lemma recent_resistance_break_returns (df : DataFrame) (lookback : Z) :
  (forall c s, Frame.col df c = Ok s -> length s = nrows df) ->
  (forall c, c ∈ ["high"; "close"] -> exists s, Frame.col df c = Ok s) ->
  (0 < nrows df)%nat ->
  exists b, recent_resistance_break df lookback = Ok b.
Proof.
  intros Hwf Hex Hn. unfold recent_resistance_break.
  destruct (_ <? _)%Z; [eauto|].
  destruct (Hex "high") as [hi Hhi]; [repeat constructor|].
  destruct (Hex "close") as [cl Hcl]; [repeat constructor|].
  destruct (iloc_Ok cl 1) as [x Hx]; [rewrite (Hwf _ _ Hcl); lia|].
  rewrite Hhi. simpl. rewrite Hcl. simpl. rewrite Hx. simpl. eauto.
Qed.

(** X12. On two frames that have the five OHLCV columns, each column as
    long as the index, the scorer returns as soon as both frames have a
    row, and raises an [IndexError] when either is empty: with a candle in
    each series no lookup of the scorer fails, however short the series
    are. *)
Theorem compute_signal_returns_on_candles `{TA} (m : option candle_mod)
    (df_1h df_15m : DataFrame) :
  Forall (fun c => Frame.has df_1h c = true)
    ["open"; "high"; "low"; "close"; "volume"] ->
  Forall (fun c => Frame.has df_15m c = true)
    ["open"; "high"; "low"; "close"; "volume"] ->
  (forall c s, Frame.col df_1h c = Ok s -> length s = nrows df_1h) ->
  (forall c s, Frame.col df_15m c = Ok s -> length s = nrows df_15m) ->
  ((0 < nrows df_1h)%nat /\ (0 < nrows df_15m)%nat ->
   exists sig, compute_signal m df_1h df_15m = Ok sig) /\
  (nrows df_1h = 0%nat \/ nrows df_15m = 0%nat ->
   compute_signal m df_1h df_15m = Raise IndexError).
Proof.
  intros Hhas1 Hhas15 Hwf1 Hwf15.
  destruct (add_indicators_total df_1h Hhas1) as [df1 Hdf1].
  destruct (add_indicators_total df_15m Hhas15) as [df15 Hdf15].
  destruct (add_indicators_columns df_1h df1 Hdf1 Hwf1) as [W1 E1].
  destruct (add_indicators_columns df_15m df15 Hdf15 Hwf15) as [W15 E15].
  pose proof (add_indicators_nrows df_1h df1 Hdf1) as N1.
  pose proof (add_indicators_nrows df_15m df15 Hdf15) as N15.
  destruct (crossings_returns df1
              [("rsi_cross_50", false); ("macd_bullish_cross", false);
               ("price_above_ema20_50", false); ("ema20_gt_ema50", false);
               ("bullish_pattern", false)] W1) as [conds Hconds].
  { intros c Hc. apply E1.
    repeat (apply elem_of_cons in Hc as [->|Hc]);
      try (inversion Hc; fail); repeat constructor. }
  unfold compute_signal. rewrite Hdf1, Hdf15. simpl. rewrite Hconds. simpl.
  split.
  - intros [P1 P15]. rewrite <- N1 in P1. rewrite <- N15 in P15.
    destruct (latest_Ok df1 "close" W1) as [price Hprice];
      [apply E1; repeat constructor|exact P1|].
    destruct (latest_Ok df1 "ema20" W1) as [e20 He20];
      [apply E1; repeat constructor|exact P1|].
    destruct (latest_Ok df1 "ema50" W1) as [e50 He50];
      [apply E1; repeat constructor|exact P1|].
    destruct (latest_Ok df1 "rsi" W1) as [r1 Hr1];
      [apply E1; repeat constructor|exact P1|].
    destruct (latest_Ok df1 "macd" W1) as [m1 Hm1];
      [apply E1; repeat constructor|exact P1|].
    destruct (latest_Ok df1 "macd_signal" W1) as [s1 Hs1];
      [apply E1; repeat constructor|exact P1|].
    destruct (latest_Ok df1 "ema200" W1) as [e200 He200];
      [apply E1; repeat constructor|exact P1|].
    destruct (latest_Ok df15 "rsi" W15) as [r15 Hr15];
      [apply E15; repeat constructor|exact P15|].
    destruct (volume_spike_returns df15 2 W15) as [spike Hspike];
      [|exact P15|].
    { intros c Hc. apply E15.
      repeat (apply elem_of_cons in Hc as [->|Hc]);
        try (inversion Hc; fail); repeat constructor. }
    destruct (recent_resistance_break_returns df15 20 W15) as [brk Hbrk];
      [|exact P15|].
    { intros c Hc. apply E15.
      repeat (apply elem_of_cons in Hc as [->|Hc]);
        try (inversion Hc; fail); repeat constructor. }
    rewrite Hprice. simpl. rewrite He20. simpl. rewrite He50. simpl.
    rewrite Hspike. simpl. rewrite Hr15. simpl. rewrite Hbrk. simpl.
    rewrite Hr1. simpl. rewrite Hm1. simpl. rewrite Hs1. simpl.
    rewrite He200. simpl. eexists. reflexivity.
  - intros Hempty.
    destruct (Nat.eq_dec (nrows df1) 0) as [Z1|P1].
    + rewrite (latest_empty df1 "close" W1);
        [reflexivity|apply E1; repeat constructor|exact Z1].
    + destruct Hempty as [Hz|Hz]; [lia|]. rewrite <- N15 in Hz.
      destruct (latest_Ok df1 "close" W1) as [price Hprice];
        [apply E1; repeat constructor|lia|].
      destruct (latest_Ok df1 "ema20" W1) as [e20 He20];
        [apply E1; repeat constructor|lia|].
      destruct (latest_Ok df1 "ema50" W1) as [e50 He50];
        [apply E1; repeat constructor|lia|].
      rewrite Hprice. simpl. rewrite He20. simpl. rewrite He50. simpl.
      assert (Hvs : volume_spike df15 2 = Raise IndexError).
      { unfold volume_spike.
        destruct (E15 "vol_ma20") as [ma Hma]; [repeat constructor|].
        pose proof (W15 _ _ Hma) as Lma. rewrite Hz in Lma.
        rewrite Hma. simpl. destruct ma; [reflexivity|discriminate]. }
      rewrite Hvs. reflexivity.
Qed.

Lemma compute_signal_returns_on_candles_witness :
  exists sig,
    @compute_signal (Examples.fixed_rsi [Fin 48; Fin 65]) None
      (Examples.flat 2) (Examples.flat 2) = Ok sig.
Proof.
  apply (@compute_signal_returns_on_candles
           (Examples.fixed_rsi [Fin 48; Fin 65]) None
           (Examples.flat 2) (Examples.flat 2)).
  - repeat constructor.
  - repeat constructor.
  - intros c s. unfold Frame.col, Examples.flat. cbn [columns nrows fmap list_fmap PyDict.get].
    repeat match goal with
           | |- context [String.eqb c ?k] => destruct (String.eqb c k)
           end; try discriminate; intros [= <-]; reflexivity.
  - intros c s. unfold Frame.col, Examples.flat. cbn [columns nrows fmap list_fmap PyDict.get].
    repeat match goal with
           | |- context [String.eqb c ?k] => destruct (String.eqb c k)
           end; try discriminate; intros [= <-]; reflexivity.
  - split; simpl; lia.
Defined.

(** What [crossings] writes for the MACD. *)
Lemma crossings_macd (df1 : DataFrame) (b1 b2 : bool) :
  crossings df1
    [("rsi_cross_50", false); ("macd_bullish_cross", false);
     ("price_above_ema20_50", false); ("ema20_gt_ema50", false);
     ("bullish_pattern", false)] =
    Ok [("rsi_cross_50", b1); ("macd_bullish_cross", b2);
        ("price_above_ema20_50", false); ("ema20_gt_ema50", false);
        ("bullish_pattern", false)] ->
  ((nrows df1 < 2)%nat -> b2 = false) /\
  ((2 <= nrows df1)%nat ->
   exists macd_col sig_col m2 s2 m1 s1,
     Frame.col df1 "macd" = Ok macd_col /\
     Frame.col df1 "macd_signal" = Ok sig_col /\
     Series.iloc macd_col (-2) = Ok m2 /\ Series.iloc sig_col (-2) = Ok s2 /\
     Series.iloc macd_col (-1) = Ok m1 /\ Series.iloc sig_col (-1) = Ok s1 /\
     b2 = Cell.leb (Cell.sub m2 s2) (Fin 0)
          && Cell.ltb (Fin 0) (Cell.sub m1 s1)).
Proof.
  unfold crossings. destruct (Nat.leb_spec 2 (nrows df1)) as [Hn|Hn].
  - intros H0.
    apply bind_Ok in H0 as (rsi_col & _ & H0).
    apply bind_Ok in H0 as (rsi_prev & _ & H0).
    apply bind_Ok in H0 as (rsi_now & _ & H0).
    apply bind_Ok in H0 as (macd_col & Hmc & H0).
    apply bind_Ok in H0 as (sig_col & Hsc & H0).
    apply bind_Ok in H0 as (m2 & Hm2 & H0).
    apply bind_Ok in H0 as (s2 & Hs2 & H0).
    apply bind_Ok in H0 as (m1 & Hm1 & H0).
    apply bind_Ok in H0 as (s1 & Hs1 & H0).
    injection H0 as _ <-. split; [lia|]. intros _.
    exists macd_col, sig_col, m2, s2, m1, s1. repeat split; assumption.
  - intros [= <- <-]. split; [reflexivity|lia].
Qed.

(** The result of the scorer, slot by slot. *)
Lemma compute_signal_slots `{TA} (m : option candle_mod)
    (df_1h df_15m : DataFrame) (sig : Signal) :
  compute_signal m df_1h df_15m = Ok sig ->
  exists df1 df15 b1 b2 price_now ema20 ema50 spike rsi15 brk,
    add_indicators df_1h = Ok df1 /\
    add_indicators df_15m = Ok df15 /\
    crossings df1
      [("rsi_cross_50", false); ("macd_bullish_cross", false);
       ("price_above_ema20_50", false); ("ema20_gt_ema50", false);
       ("bullish_pattern", false)] =
      Ok [("rsi_cross_50", b1); ("macd_bullish_cross", b2);
          ("price_above_ema20_50", false); ("ema20_gt_ema50", false);
          ("bullish_pattern", false)] /\
    latest df1 "close" = Ok price_now /\
    latest df1 "ema20" = Ok ema20 /\
    latest df1 "ema50" = Ok ema50 /\
    volume_spike df15 2 = Ok spike /\
    latest df15 "rsi" = Ok rsi15 /\
    recent_resistance_break df15 20 = Ok brk /\
    patterns sig = detect_bullish_patterns m df1 /\
    price sig = price_now /\
    conditions sig =
      [("rsi_cross_50", b1); ("macd_bullish_cross", b2);
       ("price_above_ema20_50",
        Cell.ltb ema20 price_now && Cell.ltb ema50 price_now);
       ("ema20_gt_ema50", Cell.ltb ema50 ema20);
       ("bullish_pattern",
        any (PyDict.values (detect_bullish_patterns m df1)));
       ("vol_spike_15m", spike);
       ("rsi_15m_gt_50", Cell.ltb (Fin 50) rsi15);
       ("break_resistance_15m", brk);
       ("lunar_trending", false); ("news_positive", false)] /\
    score sig = count_true (PyDict.values (conditions sig)).
Proof.
  unfold compute_signal. intros H0.
  apply bind_Ok in H0 as (df1 & Hdf1 & H0).
  apply bind_Ok in H0 as (df15 & Hdf15 & H0).
  apply bind_Ok in H0 as (conds & Hconds & H0).
  destruct (crossings_shape df1 conds Hconds) as (b1 & b2 & -> & _).
  apply bind_Ok in H0 as (price_now & Hprice & H0).
  apply bind_Ok in H0 as (ema20 & He20 & H0).
  apply bind_Ok in H0 as (ema50 & He50 & H0).
  apply bind_Ok in H0 as (spike & Hspike & H0).
  apply bind_Ok in H0 as (rsi15 & Hrsi15 & H0).
  apply bind_Ok in H0 as (brk & Hbrk & H0).
  apply bind_Ok in H0 as (rsi1 & _ & H0).
  apply bind_Ok in H0 as (macd1 & _ & H0).
  apply bind_Ok in H0 as (sig1 & _ & H0).
  apply bind_Ok in H0 as (ema200 & _ & H0).
  injection H0 as <-. cbn [conditions score patterns price].
  exists df1, df15, b1, b2, price_now, ema20, ema50, spike, rsi15, brk.
  repeat (split; [assumption || reflexivity|]). reflexivity.
Qed.

Lemma macd_cross_iff (prev now : cell) :
  Cell.leb prev (Fin 0) && Cell.ltb (Fin 0) now = true <->
  exists p c, prev = Fin p /\ now = Fin c /\ (p <= 0)%Q /\ (0 < c)%Q.
Proof.
  split.
  - intros H0. apply andb_true_iff in H0 as [H1 H2].
    destruct prev as [|p]; [discriminate|].
    destruct now as [|c]; [discriminate|].
    exists p, c. simpl in *. apply Qle_bool_iff in H1.
    apply Qlt_bool_iff in H2. repeat split; assumption.
  - intros (p & c & -> & -> & H1 & H2). simpl.
    apply Qle_bool_iff in H1. apply Qlt_bool_iff in H2.
    rewrite H1, H2. reflexivity.
Qed.

(** X13. Let the scorer return.  With fewer than 2 rows in the slow
    series [macd_bullish_cross] is false.  With at least 2 rows it is true
    exactly when MACD minus signal is a number at most 0 on the row before
    the last and a number above 0 on the last row, both read from the
    columns of the indicator-augmented slow frame. *)
Theorem macd_bullish_cross_is_sign_flip `{TA} (m : option candle_mod)
    (df_1h df_15m : DataFrame) (sig : Signal) :
  compute_signal m df_1h df_15m = Ok sig ->
  exists df1 b,
    add_indicators df_1h = Ok df1 /\
    PyDict.get (conditions sig) "macd_bullish_cross" = Some b /\
    ((nrows df_1h < 2)%nat -> b = false) /\
    ((2 <= nrows df_1h)%nat ->
     exists macd_col sig_col m2 s2 m1 s1,
       Frame.col df1 "macd" = Ok macd_col /\
       Frame.col df1 "macd_signal" = Ok sig_col /\
       macd_col !! (length macd_col - 2)%nat = Some m2 /\
       sig_col !! (length sig_col - 2)%nat = Some s2 /\
       last macd_col = Some m1 /\ last sig_col = Some s1 /\
       (b = true <->
        exists p c, Cell.sub m2 s2 = Fin p /\ Cell.sub m1 s1 = Fin c /\
                    (p <= 0)%Q /\ (0 < c)%Q)).
Proof.
  intros H0.
  destruct (compute_signal_slots m df_1h df_15m sig H0)
    as (df1 & df15 & b1 & b2 & price_now & ema20 & ema50 & spike & rsi15 & brk
        & Hdf1 & _ & Hcross & _ & _ & _ & _ & _ & _ & _ & _ & Hconds & _).
  exists df1, b2. split; [exact Hdf1|]. rewrite Hconds.
  split; [reflexivity|].
  destruct (crossings_macd df1 b1 b2 Hcross) as [Hshort Hlong].
  rewrite (add_indicators_nrows df_1h df1 Hdf1) in Hshort, Hlong.
  split; [exact Hshort|]. intros Hn.
  destruct (Hlong Hn)
    as (macd_col & sig_col & m2 & s2 & m1 & s1
        & Hmc & Hsc & Hm2 & Hs2 & Hm1 & Hs1 & ->).
  exists macd_col, sig_col, m2, s2, m1, s1.
  apply iloc_neg in Hm2 as [_ Hm2]. apply iloc_neg in Hs2 as [_ Hs2].
  apply iloc_neg in Hm1 as [Lm Hm1]. apply iloc_neg in Hs1 as [Ls Hs1].
  repeat (split; [assumption|]). split; [|split].
  - rewrite last_lookup, <- Hm1. f_equal. lia.
  - rewrite last_lookup, <- Hs1. f_equal. lia.
  - apply macd_cross_iff.
Qed.

Lemma macd_bullish_cross_is_sign_flip_witness :
  exists df1 b,
    @add_indicators (Examples.fixed_rsi [Fin 48; Fin 65]) (Examples.flat 2)
      = Ok df1 /\
    b = false.
Proof.
  edestruct (@macd_bullish_cross_is_sign_flip
               (Examples.fixed_rsi [Fin 48; Fin 65]) None
               (Examples.flat 2) (Examples.flat 2))
    as (df1 & b & Hdf1 & Hb & _).
  - vm_compute. reflexivity.
  - exists df1, b. split; [exact Hdf1|].
    vm_compute in Hb. congruence.
Defined.

Lemma cell_ltb_iff (a b : cell) :
  Cell.ltb a b = true <-> exists x y, a = Fin x /\ b = Fin y /\ (x < y)%Q.
Proof.
  split.
  - destruct a as [|x]; [discriminate|]. destruct b as [|y]; [discriminate|].
    simpl. intros Hlt. apply Qlt_bool_iff in Hlt. exists x, y.
    repeat split. exact Hlt.
  - intros (x & y & -> & -> & Hlt). simpl. apply Qlt_bool_iff, Hlt.
Qed.

(** X14. Let the scorer return.  [price_above_ema20_50] is true exactly
    when the latest close, EMA20 and EMA50 of the slow series are numbers
    and the close is strictly above both; [ema20_gt_ema50] exactly when
    both averages are numbers and the EMA20 is strictly above the EMA50;
    [rsi_15m_gt_50] exactly when the latest RSI of the fast series is a
    number above 50; and [vol_spike_15m] is the answer of the volume-spike
    helper on the fast series with the multiple 2.  An average that is not
    defined yet leaves its slot false. *)
Theorem trend_and_momentum_slots `{TA} (m : option candle_mod)
    (df_1h df_15m : DataFrame) (sig : Signal) :
  compute_signal m df_1h df_15m = Ok sig ->
  exists df1 df15 price_now ema20 ema50 rsi15 spike,
    add_indicators df_1h = Ok df1 /\ add_indicators df_15m = Ok df15 /\
    latest df1 "close" = Ok price_now /\ latest df1 "ema20" = Ok ema20 /\
    latest df1 "ema50" = Ok ema50 /\ latest df15 "rsi" = Ok rsi15 /\
    volume_spike df15 2 = Ok spike /\
    price sig = price_now /\
    (PyDict.get (conditions sig) "price_above_ema20_50" = Some true <->
     exists p a b, price_now = Fin p /\ ema20 = Fin a /\ ema50 = Fin b /\
                   (a < p)%Q /\ (b < p)%Q) /\
    (PyDict.get (conditions sig) "ema20_gt_ema50" = Some true <->
     exists a b, ema20 = Fin a /\ ema50 = Fin b /\ (b < a)%Q) /\
    (PyDict.get (conditions sig) "rsi_15m_gt_50" = Some true <->
     exists r, rsi15 = Fin r /\ (50 < r)%Q) /\
    PyDict.get (conditions sig) "vol_spike_15m" = Some spike.
Proof.
  intros H0.
  destruct (compute_signal_slots m df_1h df_15m sig H0)
    as (df1 & df15 & b1 & b2 & price_now & ema20 & ema50 & spike & rsi15 & brk
        & Hdf1 & Hdf15 & _ & Hp & He20 & He50 & Hsp & Hr15 & _ & _ & Hprice
        & Hconds & _).
  exists df1, df15, price_now, ema20, ema50, rsi15, spike.
  repeat (split; [assumption|]). rewrite Hconds.
  cbv beta iota delta [PyDict.get String.eqb Ascii.eqb Bool.eqb].
  split; [|split; [|split; [|reflexivity]]].
  - split.
    + intros [= Hb]. apply andb_true_iff in Hb as [Ha Hb].
      apply cell_ltb_iff in Ha as (a & p & -> & -> & Hap).
      apply cell_ltb_iff in Hb as (b & p' & -> & [= <-] & Hbp).
      exists p, a, b. repeat split; assumption.
    + intros (p & a & b & -> & -> & -> & Hap & Hbp). f_equal.
      apply andb_true_iff. split; apply cell_ltb_iff; eauto 6.
  - split.
    + intros [= Hb]. apply cell_ltb_iff in Hb as (b & a & -> & -> & Hba).
      exists a, b. repeat split. exact Hba.
    + intros (a & b & -> & -> & Hba). f_equal. apply cell_ltb_iff. eauto.
  - split.
    + intros [= Hb]. destruct rsi15 as [|r]; [discriminate|].
      apply Qlt_bool_iff in Hb. exists r. split; [reflexivity|exact Hb].
    + intros (r & -> & Hr). f_equal. apply Qlt_bool_iff, Hr.
Qed.

Lemma trend_and_momentum_slots_witness :
  exists df15 spike,
    @add_indicators (Examples.fixed_rsi [Fin 48; Fin 65]) (Examples.flat 2)
      = Ok df15 /\
    volume_spike df15 2 = Ok spike.
Proof.
  edestruct (@trend_and_momentum_slots
               (Examples.fixed_rsi [Fin 48; Fin 65]) None
               (Examples.flat 2) (Examples.flat 2))
    as (df1 & df15 & p & a & b & r & spike & _ & H15 & _ & _ & _ & _ & Hs & _).
  - vm_compute. reflexivity.
  - exists df15, spike. split; assumption.
Defined.

Lemma detect_bullish_patterns_keys (m : option candle_mod) (df : DataFrame) :
  PyDict.keys (detect_bullish_patterns m df) = BULLISH_PATTERNS.
Proof.
  destruct m as [getattr|]; [|reflexivity].
  change (PyDict.keys
            (foldl (detect_step df)
               ((fun name => (name, false)) <$> BULLISH_PATTERNS)
               ((fun name => (name, getattr name)) <$> BULLISH_PATTERNS))
          = BULLISH_PATTERNS).
  rewrite foldl_detect_step_keys; [reflexivity|].
  repeat (apply List.Forall_cons;
          [cbn; repeat first [left; reflexivity | right]|]).
  apply List.Forall_nil.
Qed.

Lemma any_values_get (d : list (string * bool)) :
  NoDup (PyDict.keys d) ->
  any (PyDict.values d) = true <-> exists k, PyDict.get d k = Some true.
Proof.
  induction d as [|[k v] d IH]; simpl; intros Hnd.
  - split; [discriminate|]. intros [k H]. discriminate H.
  - apply NoDup_cons in Hnd as [Hk Hnd]. unfold any in *. simpl.
    rewrite orb_true_iff, (IH Hnd). split.
    + intros [Hv|[k' Hk']].
      * exists k. rewrite String.eqb_refl. unfold id in Hv. congruence.
      * exists k'. destruct (String.eqb_spec k' k) as [Heq|_]; [|exact Hk'].
        exfalso. subst k'. apply Hk. apply list_elem_of_fmap.
        assert (Hin : exists v', (k, v') ∈ d).
        { clear -Hk'. induction d as [|[k0 v0] d IH]; [discriminate|].
          simpl in Hk'. destruct (String.eqb_spec k k0) as [->|_].
          - exists v0. left.
          - destruct (IH Hk') as [v' Hv']. exists v'. right. exact Hv'. }
        destruct Hin as [v' Hv']. exists (k, v'). split; [reflexivity|exact Hv'].
    + intros [k' Hk']. destruct (String.eqb_spec k' k) as [Heq|_].
      * left. injection Hk' as ->. reflexivity.
      * right. exists k'. exact Hk'.
Qed.

Lemma count_true_cons (b : bool) (xs : list bool) :
  count_true (b :: xs) = ((if b then 1 else 0) + count_true xs)%nat.
Proof. unfold count_true. simpl. destruct b; reflexivity. Qed.

(** X15. Let the scorer return.  Its [patterns] are those the detector
    finds on the indicator-augmented slow frame, and [bullish_pattern] is
    true exactly when one of them is.  Without the candlestick package
    [bullish_pattern] is false, and the score is at most 7. *)
Theorem bullish_pattern_is_any_pattern `{TA} (m : option candle_mod)
    (df_1h df_15m : DataFrame) (sig : Signal) :
  compute_signal m df_1h df_15m = Ok sig ->
  exists df1,
    add_indicators df_1h = Ok df1 /\
    patterns sig = detect_bullish_patterns m df1 /\
    (PyDict.get (conditions sig) "bullish_pattern" = Some true <->
     exists name, PyDict.get (patterns sig) name = Some true) /\
    (m = None ->
     PyDict.get (conditions sig) "bullish_pattern" = Some false /\
     (score sig <= 7)%nat).
Proof.
  intros H0.
  destruct (compute_signal_slots m df_1h df_15m sig H0)
    as (df1 & df15 & b1 & b2 & price_now & ema20 & ema50 & spike & rsi15 & brk
        & Hdf1 & _ & _ & _ & _ & _ & _ & _ & _ & Hpat & _ & Hconds & Hscore).
  exists df1. split; [exact Hdf1|]. split; [exact Hpat|].
  rewrite Hscore, Hconds, Hpat.
  cbv beta iota delta [PyDict.get String.eqb Ascii.eqb Bool.eqb].
  split.
  - rewrite <- any_values_get.
    + split; [intros [= ->]; reflexivity|intros ->; reflexivity].
    + rewrite detect_bullish_patterns_keys.
      refine (bool_decide_unpack _ _). vm_compute. exact I.
  - intros ->. split; [reflexivity|].
    cbn [PyDict.values map snd detect_bullish_patterns PATTERN_FUNCS].
    rewrite !count_true_cons.
    change (any _) with false. cbv iota.
    repeat match goal with
           | |- context [if ?b then 1%nat else 0%nat] => destruct b
           end; cbn; lia.
Qed.

Lemma bullish_pattern_is_any_pattern_witness :
  exists df1,
    @add_indicators (Examples.fixed_rsi [Fin 48; Fin 65]) (Examples.flat 2)
      = Ok df1.
Proof.
  edestruct (@bullish_pattern_is_any_pattern
               (Examples.fixed_rsi [Fin 48; Fin 65]) None
               (Examples.flat 2) (Examples.flat 2)) as (df1 & Hdf1 & _).
  - vm_compute. reflexivity.
  - exists df1. exact Hdf1.
Defined.

(** X16. Whenever the scorer returns, its score is at most 8, and at most
    3 above the number of true conditions among the five of the slow
    series; so a signal that reaches the alert threshold of 5 has at least
    two of the slow conditions true: the fast series alone never raises an
    alert. *)
Theorem alert_needs_two_slow_conditions `{TA} (m : option candle_mod)
    (df_1h df_15m : DataFrame) (sig : Signal) :
  compute_signal m df_1h df_15m = Ok sig ->
  let slow := count_true (take 5 (PyDict.values (conditions sig))) in
  take 5 (PyDict.keys (conditions sig)) =
    ["rsi_cross_50"; "macd_bullish_cross"; "price_above_ema20_50";
     "ema20_gt_ema50"; "bullish_pattern"] /\
  (score sig <= 8)%nat /\ (score sig <= slow + 3)%nat /\
  (alert_worthy sig = true -> (2 <= slow)%nat).
Proof.
  intros H0 slow.
  destruct (compute_signal_slots m df_1h df_15m sig H0)
    as (df1 & df15 & b1 & b2 & price_now & ema20 & ema50 & spike & rsi15 & brk
        & _ & _ & _ & _ & _ & _ & _ & _ & _ & _ & _ & Hconds & Hscore).
  unfold alert_worthy, REQUIRED_SCORE, slow. rewrite Hscore, Hconds.
  cbn [PyDict.values PyDict.keys map snd fst take].
  rewrite !count_true_cons. change (count_true []) with 0%nat.
  split; [reflexivity|].
  repeat match goal with
         | |- context [if ?b then 1%nat else 0%nat] =>
             generalize b; intros []
         end; cbn; repeat split; try lia; intros Hle;
    apply Nat.leb_le in Hle; lia.
Qed.

Lemma alert_needs_two_slow_conditions_witness :
  exists sig,
    @compute_signal (Examples.fixed_rsi [Fin 48; Fin 65]) None
      (Examples.flat 2) (Examples.flat 2) = Ok sig /\
    (score sig <= 8)%nat.
Proof.
  eexists. split; [vm_compute; reflexivity|].
  eapply (@alert_needs_two_slow_conditions
            (Examples.fixed_rsi [Fin 48; Fin 65]) None
            (Examples.flat 2) (Examples.flat 2)).
  vm_compute. reflexivity.
Defined.
